(** * Live-chat handover core: session store, presence registry, message
      pipeline, AI response engine and inactivity reaper.

    Shallow embedding of [internal/chatbot/session.go] and of the chat
    engine (package [chatbot], types [GroqClient], [ChatEngine]).

    Conventions of the embedding.
    - Go strings are byte strings: [string].
    - Go [int] is a 64-bit two's complement integer: [Z] with [wrap64].
    - [time.Time] and [time.Duration] are integers on one common time line.
    - Firestore collections: the sessions collection is a [gmap] from the
      document id to the document, the messages collection the list of its
      documents in creation order.
    - Everything outside the process (the clock, the document store's
      failures and generated ids, the Groq transport) is an oracle indexed
      by the number of effects performed so far, which is the length of the
      event log kept in the state.
    - [strings.ToLower] (Go's Unicode lower-casing) is a parameter of the
      development; [asciiLower] is its restriction to ASCII input, used to
      run the definitions on concrete messages. *)

From Stdlib Require Import ZArith String Ascii List Lia Bool.
From Stdlib Require QArith_base.
From stdpp Require Import base option gmap strings list fin_maps pretty.

Local Open Scope string_scope.
Local Open Scope Z_scope.
Local Open Scope list_scope.

(* ===================================================================== *)
(** * Byte strings *)
(* ===================================================================== *)

(** [strings.HasPrefix(s, prefix)]. *)
Fixpoint HasPrefix (s prefix : string) {struct prefix} : bool :=
  match prefix, s with
  | EmptyString, _ => true
  | String c p, String d t => Ascii.eqb c d && HasPrefix t p
  | String _ _, EmptyString => false
  end.

(** [strings.Contains(s, substr)]: [substr] occurs at some offset of [s]. *)
Fixpoint Contains (s substr : string) : bool :=
  HasPrefix s substr ||
  match s with
  | EmptyString => false
  | String _ t => Contains t substr
  end.

(** Lower-casing of one ASCII byte; bytes outside [A-Z] are kept. *)
Definition lowerByte (c : ascii) : ascii :=
  let n := nat_of_ascii c in
  if (Nat.leb 65 n && Nat.leb n 90)%bool then ascii_of_nat (n + 32) else c.

(** [strings.ToLower] on a string of ASCII bytes. *)
Fixpoint asciiLower (s : string) : string :=
  match s with
  | EmptyString => EmptyString
  | String c t => String (lowerByte c) (asciiLower t)
  end.

Definition newline : string := String (ascii_of_nat 10) EmptyString.

(* ===================================================================== *)
(** * Go integers *)
(* ===================================================================== *)

Definition min_int64 : Z := - 2 ^ 63.
Definition max_int64 : Z := 2 ^ 63 - 1.

(** Two's complement wrap-around of a 64-bit [int]. *)
Definition wrap64 (z : Z) : Z := (z + 2 ^ 63) mod 2 ^ 64 - 2 ^ 63.

Definition in_int64 (z : Z) : Prop := min_int64 <= z <= max_int64.

(* ===================================================================== *)
(** * Data model *)
(* ===================================================================== *)

(** [SessionStatus] and its four constants. *)
Inductive SessionStatus : Type :=
  | StatusBot
  | StatusQueued
  | StatusLive
  | StatusClosed.

#[global] Instance SessionStatus_eq_dec : EqDecision SessionStatus.
Proof. solve_decision. Defined.

(** The string behind each constant. *)
Definition status_string (s : SessionStatus) : string :=
  match s with
  | StatusBot => "bot"
  | StatusQueued => "queued"
  | StatusLive => "live"
  | StatusClosed => "closed"
  end.

Definition Time := Z.
Definition Duration := Z.

Record ChatSession : Type := mkChatSession {
  ID : string;
  VisitorID : string;
  VisitorName : string;
  VisitorEmail : string;
  VisitorPhone : string;
  Status : SessionStatus;
  AssignedAdmin : string;
  CurrentPage : string;
  AISummary : string;
  Sentiment : string;
  FailedAttempts : Z;
  LastMessageAt : Time;
  CreatedAt : Time;
  Location : string;
  ClosedAt : option Time
}.

Record ChatMessage : Type := mkChatMessage {
  msgID : string;
  SessionID : string;
  Sender : string;
  Content : string;
  Timestamp : Time
}.

Record AdminStatus : Type := mkAdminStatus {
  AdminID : string;
  AdminName : string;
  adminState : string;
  ActiveChats : Z;
  MaxChats : Z;
  LastSeen : Time
}.

Record GroqMessage : Type := mkGroqMessage {
  Role : string;
  gContent : string
}.

Record KnowledgeItem : Type := mkKnowledgeItem {
  Topic : string;
  Question : string;
  Answer : string;
  Keywords : list string
}.

Record ChatResponse : Type := mkChatResponse {
  Reply : string;
  Confidence : QArith_base.Q;
  SuggestHandover : bool;
  rSentiment : string
}.

(** [ChatEngine]: the Groq client is the transport oracle of the
    environment, the other two fields are data. *)
Record ChatEngine : Type := mkChatEngine {
  knowledgeBase : list KnowledgeItem;
  systemPrompt : string
}.

(** Field updates of a session, written [session.F = v] in the source. *)
Definition set_ID (s : ChatSession) (v : string) : ChatSession :=
  mkChatSession v (VisitorID s) (VisitorName s) (VisitorEmail s)
    (VisitorPhone s) (Status s) (AssignedAdmin s) (CurrentPage s)
    (AISummary s) (Sentiment s) (FailedAttempts s) (LastMessageAt s)
    (CreatedAt s) (Location s) (ClosedAt s).

Definition set_Status (s : ChatSession) (v : SessionStatus) : ChatSession :=
  mkChatSession (ID s) (VisitorID s) (VisitorName s) (VisitorEmail s)
    (VisitorPhone s) v (AssignedAdmin s) (CurrentPage s)
    (AISummary s) (Sentiment s) (FailedAttempts s) (LastMessageAt s)
    (CreatedAt s) (Location s) (ClosedAt s).

Definition set_AssignedAdmin (s : ChatSession) (v : string) : ChatSession :=
  mkChatSession (ID s) (VisitorID s) (VisitorName s) (VisitorEmail s)
    (VisitorPhone s) (Status s) v (CurrentPage s)
    (AISummary s) (Sentiment s) (FailedAttempts s) (LastMessageAt s)
    (CreatedAt s) (Location s) (ClosedAt s).

Definition set_Sentiment (s : ChatSession) (v : string) : ChatSession :=
  mkChatSession (ID s) (VisitorID s) (VisitorName s) (VisitorEmail s)
    (VisitorPhone s) (Status s) (AssignedAdmin s) (CurrentPage s)
    (AISummary s) v (FailedAttempts s) (LastMessageAt s)
    (CreatedAt s) (Location s) (ClosedAt s).

Definition set_FailedAttempts (s : ChatSession) (v : Z) : ChatSession :=
  mkChatSession (ID s) (VisitorID s) (VisitorName s) (VisitorEmail s)
    (VisitorPhone s) (Status s) (AssignedAdmin s) (CurrentPage s)
    (AISummary s) (Sentiment s) v (LastMessageAt s)
    (CreatedAt s) (Location s) (ClosedAt s).

Definition set_LastMessageAt (s : ChatSession) (v : Time) : ChatSession :=
  mkChatSession (ID s) (VisitorID s) (VisitorName s) (VisitorEmail s)
    (VisitorPhone s) (Status s) (AssignedAdmin s) (CurrentPage s)
    (AISummary s) (Sentiment s) (FailedAttempts s) v
    (CreatedAt s) (Location s) (ClosedAt s).

Definition set_ClosedAt (s : ChatSession) (v : option Time) : ChatSession :=
  mkChatSession (ID s) (VisitorID s) (VisitorName s) (VisitorEmail s)
    (VisitorPhone s) (Status s) (AssignedAdmin s) (CurrentPage s)
    (AISummary s) (Sentiment s) (FailedAttempts s) (LastMessageAt s)
    (CreatedAt s) (Location s) v.

Definition set_msgID (m : ChatMessage) (v : string) : ChatMessage :=
  mkChatMessage v (SessionID m) (Sender m) (Content m) (Timestamp m).

(* ===================================================================== *)
(** * AI response engine: the pure part *)
(* ===================================================================== *)

Section Engine.

(** [strings.ToLower]. *)
Variable ToLower : string -> string.

(** The loop [for _, word := range words { if strings.Contains(message,
    word) { return ... } }]: does it return from inside? *)
Fixpoint containsAny (message : string) (words : list string) : bool :=
  match words with
  | [] => false
  | word :: rest =>
      if Contains message word then true else containsAny message rest
  end.

Definition frustratedWords : list string :=
  [ "tidak membantu"; "payah"; "lambat"; "bingung"; "kesel"; "marah";
    "kecewa"; "buruk"; "jelek"; "lama sekali"; "susah"; "ribet";
    "bodoh"; "tolol"; "goblok"; "bangsat"; "anjing"; "babi" ].

Definition positiveWords : list string :=
  [ "terima kasih"; "makasih"; "bagus"; "hebat"; "mantap"; "keren";
    "membantu"; "jelas"; "paham"; "mengerti"; "terbantu"; "baik" ].

(** [analyzeSentiment]. *)
Definition analyzeSentiment (message : string) : string :=
  let message := ToLower message in
  if containsAny message frustratedWords then "frustrated"
  else if containsAny message positiveWords then "positive"
  else "neutral".

(** The inner loop of [findRelevantKnowledge] over [item.Keywords]: true
    when it reaches [break]. *)
Fixpoint keywordHit (message : string) (keywords : list string) : bool :=
  match keywords with
  | [] => false
  | keyword :: rest =>
      if Contains message (ToLower keyword) then true
      else keywordHit message rest
  end.

(** The outer loop of [findRelevantKnowledge], [relevant] being the slice
    built so far. *)
Fixpoint collectRelevant (message : string) (items relevant : list KnowledgeItem)
  : list KnowledgeItem :=
  match items with
  | [] => relevant
  | item :: rest =>
      if keywordHit message (Keywords item)
      then collectRelevant message rest (relevant ++ [item])
      else collectRelevant message rest relevant
  end.

(** [findRelevantKnowledge]. *)
Definition findRelevantKnowledge (e : ChatEngine) (message : string)
  : list KnowledgeItem :=
  let message := ToLower message in
  let relevant := collectRelevant message (knowledgeBase e) [] in
  if (3 <? Z.of_nat (length relevant)) then take 3 relevant else relevant.

(** [buildSystemPrompt]. *)
Definition buildSystemPrompt (e : ChatEngine) (relevantKnowledge : list KnowledgeItem)
  : string :=
  if (Z.of_nat (length relevantKnowledge) =? 0) then systemPrompt e
  else
    fold_left
      (fun sb item => sb +:+ ("- " +:+ Topic item +:+ ": " +:+ Answer item +:+ newline))
      relevantKnowledge
      (systemPrompt e +:+ (newline +:+ newline +:+ "INFORMASI RELEVAN:" +:+ newline)).

Definition humanRequestWords : list string :=
  [ "bicara dengan manusia"; "hubungi admin"; "chat admin";
    "bicara admin"; "mau ke admin"; "operator"; "cs";
    "customer service"; "complaint"; "komplain" ].

Definition uncertaintyPhrases : list string :=
  [ "tidak yakin"; "kurang tahu"; "sebaiknya hubungi";
    "lebih baik tanya"; "konsultasikan"; "tim kami" ].

(** [shouldSuggestHandover]. *)
Definition shouldSuggestHandover (userMessage botReply : string) : bool :=
  let userMessage := ToLower userMessage in
  let botReply := ToLower botReply in
  if containsAny userMessage humanRequestWords then true
  else if containsAny botReply uncertaintyPhrases then true
  else false.

(** The message list handed to the transport by [ChatEngine.ProcessMessage]:
    the system prompt, the last 10 entries of the history, the new message. *)
Definition buildMessages (e : ChatEngine) (userMessage : string)
    (conversationHistory : list GroqMessage) : list GroqMessage :=
  let relevantKnowledge := findRelevantKnowledge e userMessage in
  let messages := [ mkGroqMessage "system" (buildSystemPrompt e relevantKnowledge) ] in
  let historyStart :=
    if (10 <? Z.of_nat (length conversationHistory))
    then (length conversationHistory - 10)%nat else 0%nat in
  let messages := messages ++ drop historyStart conversationHistory in
  messages ++ [ mkGroqMessage "user" userMessage ].

End Engine.

(* ===================================================================== *)
(** * The process state and its environment *)
(* ===================================================================== *)

(** Go [error] values that occur in the modelled code. *)
Inductive error : Type :=
  | ErrNotFound                                 (* document does not exist *)
  | ErrAlreadyExists                            (* generated id is taken *)
  | ErrUnavailable                              (* any other store failure *)
  | ErrTransport (msg : string)                 (* failure of the Groq call *)
  | ErrWrap (context : string) (cause : error). (* fmt.Errorf("...: %w", err) *)

Inductive Result (A : Type) : Type :=
  | Ok (a : A)
  | Err (e : error).
Arguments Ok {A} a.
Arguments Err {A} e.

(** One entry per effect on the outside world. *)
Inductive Event : Type :=
  | EvNow
  | EvGetSession (id : string)
  | EvSetSession (id : string)
  | EvAddSession
  | EvAddMessage (sessionID : string)
  | EvTouchSession (id : string)
  | EvQueryMessages (sessionID : string) (limit : nat)
  | EvQueryInactive (cutoff : Time)
  | EvNext
  | EvChat (messages : list GroqMessage).

(** The answers of the outside world, indexed by the number of effects
    performed before the one that asks. *)
Record Oracles : Type := mkOracles {
  now : nat -> Time;                                  (* time.Now() *)
  fault : nat -> bool;                                (* does this store call fail? *)
  autoID : nat -> string;                             (* id generated by Add *)
  chat : nat -> list GroqMessage -> Result string     (* GroqClient.Chat *)
}.

(** [SessionManager] together with the two Firestore collections it uses.
    [events] is the log of effects, most recent first. *)
Record World : Type := mkWorld {
  sessionDocs : gmap string ChatSession;
  messageDocs : list ChatMessage;
  adminStatus : gmap string AdminStatus;
  chatEngine : ChatEngine;
  events : list Event
}.

Definition step (w : World) : nat := length (events w).

Definition record (e : Event) (w : World) : World :=
  mkWorld (sessionDocs w) (messageDocs w) (adminStatus w) (chatEngine w)
    (e :: events w).

Definition with_sessions (w : World) (m : gmap string ChatSession) : World :=
  mkWorld m (messageDocs w) (adminStatus w) (chatEngine w) (events w).

Definition with_messages (w : World) (l : list ChatMessage) : World :=
  mkWorld (sessionDocs w) l (adminStatus w) (chatEngine w) (events w).

Definition with_admins (w : World) (m : gmap string AdminStatus) : World :=
  mkWorld (sessionDocs w) (messageDocs w) m (chatEngine w) (events w).

(** [NewSessionManager] over empty collections. *)
Definition NewSessionManager (engine : ChatEngine) : World :=
  mkWorld ∅ [] ∅ engine [].

(** ** State and error monad *)

Definition M (A : Type) : Type := World -> Result A * World.

Definition ret {A : Type} (a : A) : M A := fun w => (Ok a, w).

Definition bind {A B : Type} (m : M A) (k : A -> M B) : M B :=
  fun w =>
    match m w with
    | (Ok a, w') => k a w'
    | (Err e, w') => (Err e, w')
    end.

Notation "x <- m ;; k" := (bind m (fun x => k))
  (at level 100, m at next level, right associativity).

(** A call whose [err] the caller inspects itself, or drops. *)
Definition attempt {A : Type} (m : M A) : M (Result A) :=
  fun w => let (r, w') := m w in (Ok r, w').

(** [if err != nil { return fmt.Errorf("context: %w", err) }]. *)
Definition wrapErr {A : Type} (context : string) (m : M A) : M A :=
  fun w =>
    match m w with
    | (Ok a, w') => (Ok a, w')
    | (Err e, w') => (Err (ErrWrap context e), w')
    end.

(** ** Ordering of query results *)

(** Insertion of [x] into a list sorted by [le]. *)
Fixpoint insertBy {A : Type} (le : A -> A -> bool) (x : A) (l : list A) : list A :=
  match l with
  | [] => [x]
  | y :: t => if le x y then x :: y :: t else y :: insertBy le x t
  end.

Definition sortBy {A : Type} (le : A -> A -> bool) (l : list A) : list A :=
  fold_right (insertBy le) [] l.

(** [OrderBy("timestamp", firestore.Asc)], ties by document id. *)
Definition message_le (a b : ChatMessage) : bool :=
  (Timestamp a <? Timestamp b) ||
  ((Timestamp a =? Timestamp b) && String.leb (msgID a) (msgID b)).

(** Order of a query filtered by [lastMessageAt <]: by that field, ties by
    document id. *)
Definition session_le (a b : string * ChatSession) : bool :=
  (LastMessageAt (snd a) <? LastMessageAt (snd b)) ||
  ((LastMessageAt (snd a) =? LastMessageAt (snd b)) && String.leb (fst a) (fst b)).

(** [Where("status", "in", {live, queued, bot})]. *)
Definition activeStatus (s : ChatSession) : bool :=
  bool_decide (Status s ∈ [StatusLive; StatusQueued; StatusBot]).

(** The canned replies of the message pipeline. *)
Definition handoverOffer : ChatResponse :=
  mkChatResponse
    "Maaf, saya mengalami kesulitan. Mau saya hubungkan dengan admin kami?"
    (QArith_base.Qmake 0 1) true "neutral".

Definition retryPrompt : ChatResponse :=
  mkChatResponse
    "Maaf, ada sedikit gangguan. Bisa ulangi pertanyaan Anda?"
    (QArith_base.Qmake 0 1) false "neutral".

Definition liveNoOp : ChatResponse :=
  mkChatResponse "" (QArith_base.Qmake 0 1) false "neutral".

(** The loop of [ProcessMessage] that converts stored messages to the
    Groq format, [history] being the slice built so far. *)
Fixpoint toHistory (messages : list ChatMessage) (history : list GroqMessage)
  : list GroqMessage :=
  match messages with
  | [] => history
  | msg :: rest =>
      let role :=
        if (String.eqb (Sender msg) "bot" || String.eqb (Sender msg) "admin")%bool
        then "assistant" else "user" in
      if negb (String.eqb (Sender msg) "system")
      then toHistory rest (history ++ [mkGroqMessage role (Content msg)])
      else toHistory rest history
  end.

(* ===================================================================== *)
(** * Session manager *)
(* ===================================================================== *)

Section Machine.

Variable ToLower : string -> string.
Variable env : Oracles.

(** ** Effects *)

(** [time.Now()]. *)
Definition timeNow : M Time :=
  fun w => (Ok (now env (step w)), record EvNow w).

(** [sm.fs.Collection(sm.sessionsCollection).Doc(id).Get(ctx)]. *)
Definition docGet (id : string) : M ChatSession :=
  fun w =>
    let w' := record (EvGetSession id) w in
    if fault env (step w) then (Err ErrUnavailable, w')
    else match sessionDocs w !! id with
         | Some doc => (Ok doc, w')
         | None => (Err ErrNotFound, w')
         end.

(** [...Doc(id).Set(ctx, session)]: the whole document is replaced; the
    field [ID] is tagged [firestore:"-"] and is not stored. *)
Definition docSet (id : string) (session : ChatSession) : M unit :=
  fun w =>
    let w' := record (EvSetSession id) w in
    if fault env (step w) then (Err ErrUnavailable, w')
    else (Ok tt, with_sessions w' (<[id := set_ID session ""]> (sessionDocs w))).

(** [sm.fs.Collection(sm.sessionsCollection).Add(ctx, session)]: a new
    document under a generated id. *)
Definition addSession (session : ChatSession) : M string :=
  fun w =>
    let w' := record EvAddSession w in
    let id := autoID env (step w) in
    if fault env (step w) then (Err ErrUnavailable, w')
    else match sessionDocs w !! id with
         | Some _ => (Err ErrAlreadyExists, w')
         | None =>
             (Ok id, with_sessions w' (<[id := set_ID session ""]> (sessionDocs w)))
         end.

(** [sm.fs.Collection(sm.messagesCollection).Add(ctx, msg)]: the document
    is appended under the generated id; every failure of the call is a
    fault of the store oracle. *)
Definition addMessage (msg : ChatMessage) : M string :=
  fun w =>
    let w' := record (EvAddMessage (SessionID msg)) w in
    let id := autoID env (step w) in
    if fault env (step w) then (Err ErrUnavailable, w')
    else (Ok id, with_messages w' (messageDocs w ++ [set_msgID msg id])).

(** [...Doc(id).Update(ctx, {Path: "lastMessageAt", Value: t})]: fails on
    a document that does not exist. *)
Definition docTouch (id : string) (t : Time) : M unit :=
  fun w =>
    let w' := record (EvTouchSession id) w in
    if fault env (step w) then (Err ErrUnavailable, w')
    else match sessionDocs w !! id with
         | Some doc =>
             (Ok tt, with_sessions w' (<[id := set_LastMessageAt doc t]> (sessionDocs w)))
         | None => (Err ErrNotFound, w')
         end.

(** The messages query of [GetMessages]: the documents it will yield. *)
Definition queryMessages (sessionID : string) (limit : nat) : M (list ChatMessage) :=
  fun w =>
    (Ok (take limit
           (sortBy message_le
              (List.filter (fun m => String.eqb (SessionID m) sessionID)
                 (messageDocs w)))),
     record (EvQueryMessages sessionID limit) w).

(** The sessions query of [CleanupInactiveSessions]. *)
Definition queryInactive (cutoff : Time) : M (list (string * ChatSession)) :=
  fun w =>
    (Ok (sortBy session_le
           (List.filter
              (fun d => activeStatus (snd d) && (LastMessageAt (snd d) <? cutoff))
              (map_to_list (sessionDocs w)))),
     record (EvQueryInactive cutoff) w).

(** [iter.Next()], as far as its error is concerned. *)
Definition iterNext : M unit :=
  fun w =>
    (if fault env (step w) then Err ErrUnavailable else Ok tt, record EvNext w).

(** [g.Chat(ctx, messages)]. *)
Definition groqChat (messages : list GroqMessage) : M string :=
  fun w => (chat env (step w) messages, record (EvChat messages) w).

Definition getEngine : M ChatEngine := fun w => (Ok (chatEngine w), w).
Definition getAdmins : M (gmap string AdminStatus) := fun w => (Ok (adminStatus w), w).
Definition putAdmins (m : gmap string AdminStatus) : M unit :=
  fun w => (Ok tt, with_admins w m).

(** ** AI response engine *)

(** [(e *ChatEngine) ProcessMessage]. *)
Definition ChatEngine_ProcessMessage (e : ChatEngine) (userMessage : string)
    (conversationHistory : list GroqMessage) : M ChatResponse :=
  let sentiment := analyzeSentiment ToLower userMessage in
  let messages := buildMessages ToLower e userMessage conversationHistory in
  reply <- wrapErr "groq API error" (groqChat messages) ;;
  let suggestHandover :=
    (String.eqb sentiment "frustrated"
     || shouldSuggestHandover ToLower userMessage reply)%bool in
  ret (mkChatResponse reply (QArith_base.Qmake 4 5) suggestHandover sentiment).

(** ** Session store *)

(** [CreateSession]. *)
Definition CreateSession
    (visitorID visitorName visitorEmail visitorPhone currentPage location : string)
  : M ChatSession :=
  lastMessageAt <- timeNow ;;
  createdAt <- timeNow ;;
  let session :=
    mkChatSession "" visitorID visitorName visitorEmail visitorPhone StatusBot
      "" currentPage "" "neutral" 0 lastMessageAt createdAt location None in
  id <- wrapErr "failed to create session" (addSession session) ;;
  ret (set_ID session id).

(** [GetSession]. *)
Definition GetSession (sessionID : string) : M ChatSession :=
  doc <- wrapErr "failed to get session" (docGet sessionID) ;;
  ret (set_ID doc sessionID).

(** [UpdateSession]. *)
Definition UpdateSession (session : ChatSession) : M unit :=
  wrapErr "failed to update session" (docSet (ID session) session).

(** [SaveMessage]: the error of the second write is printed, not returned. *)
Definition SaveMessage (msg : ChatMessage) : M unit :=
  id <- wrapErr "failed to save message" (addMessage msg) ;;
  _ <- attempt (docTouch (SessionID msg) (Timestamp msg)) ;;
  ret tt.

(** The loop of [GetMessages] over the iterator. *)
Fixpoint GetMessages_loop (docs messages : list ChatMessage) : M (list ChatMessage) :=
  match docs with
  | [] =>
      _ <- wrapErr "failed to iterate messages" iterNext ;;
      ret messages
  | doc :: rest =>
      _ <- wrapErr "failed to iterate messages" iterNext ;;
      GetMessages_loop rest (messages ++ [doc])
  end.

(** [GetMessages]. *)
Definition GetMessages (sessionID : string) (limit : nat) : M (list ChatMessage) :=
  docs <- queryMessages sessionID limit ;;
  GetMessages_loop docs [].

(** ** Agent presence registry *)

(** [UpdateAdminStatus]. *)
Definition UpdateAdminStatus (adminID adminName status : string) : M unit :=
  admins <- getAdmins ;;
  if String.eqb status "offline" then putAdmins (delete adminID admins)
  else
    match admins !! adminID with
    | Some existing =>
        lastSeen <- timeNow ;;
        putAdmins
          (<[adminID := mkAdminStatus (AdminID existing) (AdminName existing)
                          status (ActiveChats existing) (MaxChats existing)
                          lastSeen]> admins)
    | None =>
        lastSeen <- timeNow ;;
        putAdmins
          (<[adminID := mkAdminStatus adminID adminName status 0 5 lastSeen]> admins)
    end.

(** [IsAnyAdminOnline]. *)
Definition IsAnyAdminOnline : M bool :=
  admins <- getAdmins ;;
  ret (existsb (fun kv => String.eqb (adminState (snd kv)) "online")
         (map_to_list admins)).

(** ** Message pipeline *)

(** [(sm *SessionManager) ProcessMessage]. *)
Definition ProcessMessage (sessionID content : string) : M ChatResponse :=
  session <- GetSession sessionID ;;
  if decide (Status session = StatusLive) then ret liveNoOp
  else
    messages <- wrapErr "failed to get history" (GetMessages sessionID 20) ;;
    let history := toHistory messages [] in
    engine <- getEngine ;;
    r <- attempt (ChatEngine_ProcessMessage engine content history) ;;
    sr <- match r with
          | Ok response => ret (session, response)
          | Err _ =>
              let session :=
                set_FailedAttempts session (wrap64 (FailedAttempts session + 1)) in
              let response :=
                if (2 <=? FailedAttempts session) then handoverOffer
                else retryPrompt in
              _ <- attempt (UpdateSession session) ;;
              ret (session, response)
          end ;;
    let session := fst sr in
    let response := snd sr in
    timestamp <- timeNow ;;
    let botMsg := mkChatMessage "" sessionID "bot" (Reply response) timestamp in
    _ <- attempt (SaveMessage botMsg) ;;
    let session := set_Sentiment session (rSentiment response) in
    _ <- attempt (UpdateSession session) ;;
    ret response.

(** ** State transitions *)

(** [RequestHandover]. *)
Definition RequestHandover (sessionID : string) : M bool :=
  session <- GetSession sessionID ;;
  let session := set_Status session StatusQueued in
  _ <- UpdateSession session ;;
  timestamp <- timeNow ;;
  let sysMsg :=
    mkChatMessage "" sessionID "system"
      "Pengunjung meminta untuk dihubungkan dengan admin." timestamp in
  _ <- attempt (SaveMessage sysMsg) ;;
  adminOnline <- IsAnyAdminOnline ;;
  ret adminOnline.

(** [ClaimSession]. *)
Definition ClaimSession (sessionID adminID adminName : string) : M unit :=
  session <- GetSession sessionID ;;
  let session := set_Status session StatusLive in
  let session := set_AssignedAdmin session adminID in
  _ <- UpdateSession session ;;
  timestamp <- timeNow ;;
  let sysMsg :=
    mkChatMessage "" sessionID "system"
      (adminName +:+ " telah bergabung ke chat.") timestamp in
  _ <- attempt (SaveMessage sysMsg) ;;
  ret tt.

(** [CloseSession]. *)
Definition CloseSession (sessionID : string) : M unit :=
  session <- GetSession sessionID ;;
  now <- timeNow ;;
  let session := set_Status session StatusClosed in
  let session := set_ClosedAt session (Some now) in
  UpdateSession session.

(** [ReturnToBot]. *)
Definition ReturnToBot (sessionID : string) : M unit :=
  session <- GetSession sessionID ;;
  let session := set_Status session StatusBot in
  let session := set_AssignedAdmin session "" in
  let session := set_FailedAttempts session 0 in
  _ <- UpdateSession session ;;
  timestamp <- timeNow ;;
  let sysMsg :=
    mkChatMessage "" sessionID "system"
      "Sesi telah dikembalikan ke AI. Silakan lanjutkan percakapan Anda."
      timestamp in
  _ <- attempt (SaveMessage sysMsg) ;;
  ret tt.

(** ** Inactivity reaper *)

(** What the loop of [CleanupInactiveSessions] does to one document. *)
Definition closeInactive (id : string) (doc : ChatSession) : M unit :=
  let session := set_ID doc id in
  now <- timeNow ;;
  let session := set_Status session StatusClosed in
  let session := set_ClosedAt session (Some now) in
  let session := set_Sentiment session "timeout" in
  r <- attempt (UpdateSession session) ;;
  match r with
  | Err _ => ret tt
  | Ok _ =>
      timestamp <- timeNow ;;
      let sysMsg :=
        mkChatMessage "" (ID session) "system"
          "Sesi chat telah berakhir otomatis karena tidak ada aktivitas selama 6 menit."
          timestamp in
      _ <- attempt (SaveMessage sysMsg) ;;
      ret tt
  end.

(** The loop of [CleanupInactiveSessions] over the iterator. *)
Fixpoint Cleanup_loop (docs : list (string * ChatSession)) : M unit :=
  match docs with
  | [] => iterNext
  | d :: rest =>
      _ <- iterNext ;;
      _ <- closeInactive (fst d) (snd d) ;;
      Cleanup_loop rest
  end.

(** [CleanupInactiveSessions]. *)
Definition CleanupInactiveSessions (duration : Duration) : M unit :=
  t <- timeNow ;;
  let cutoff := t + wrap64 (- duration) in
  docs <- queryInactive cutoff ;;
  Cleanup_loop docs.

End Machine.

(* ===================================================================== *)
(** * Specification vocabulary *)
(* ===================================================================== *)

(** [sub] is a substring of [s]. *)
Definition occursIn (sub s : string) : Prop :=
  exists pre post : string, s = pre +:+ sub +:+ post.

(** Some phrase of [words] is a substring of [s]. *)
Definition anyOccursIn (words : list string) (s : string) : Prop :=
  exists word : string, word ∈ words /\ occursIn word s.

(** A knowledge item matches a query when one of its keywords, lower-cased,
    is a substring of the lower-cased query. *)
Definition matchesQuery (ToLower : string -> string) (query : string)
    (item : KnowledgeItem) : Prop :=
  exists keyword : string,
    keyword ∈ Keywords item /\ occursIn (ToLower keyword) (ToLower query).

(** [triple J m phi]: running [m] in a state whose session documents
    satisfy [J] leaves them satisfying [J], whatever the store and the
    transport answer, and a value returned without error satisfies [phi]. *)
Definition triple {A : Type} (J : gmap string ChatSession -> Prop)
    (m : M A) (phi : A -> Prop) : Prop :=
  forall w : World,
    J (sessionDocs w) ->
    J (sessionDocs (snd (m w))) /\ forall a : A, fst (m w) = Ok a -> phi a.

(** [m] does not write to the sessions collection. *)
Definition readsOnly {A : Type} (m : M A) : Prop :=
  forall w : World, sessionDocs (snd (m w)) = sessionDocs w.

(** The document under key [k] exists and its field [f] is [v]. *)
Definition fieldIs {X : Type} (f : ChatSession -> X) (k : string) (v : X)
    (m : gmap string ChatSession) : Prop :=
  exists d : ChatSession, m !! k = Some d /\ f d = v.

(** What [fieldIs f k v] says of a document [d] stored under key [k']. *)
Definition fieldAt {X : Type} (f : ChatSession -> X) (k : string) (v : X)
    (k' : string) (d : ChatSession) : Prop :=
  k' = k -> f d = v.

(** The document store answers every call. *)
Definition storeReliable (env : Oracles) : Prop :=
  forall k : nat, fault env k = false.

(** The Groq transport fails on every call. *)
Definition transportDown (env : Oracles) : Prop :=
  forall (k : nat) (messages : list GroqMessage),
    exists e : error, chat env k messages = Err e.

(** A session the reaper has to close at time [sweepTime] for the cutoff
    duration [D]. *)
Definition overdue (sweepTime : Time) (D : Duration) (doc : ChatSession) : Prop :=
  (Status doc = StatusBot \/ Status doc = StatusQueued \/ Status doc = StatusLive)
  /\ LastMessageAt doc < sweepTime - D.

(** The document the reaper leaves in place of [doc]: closed at [closedAt],
    and touched at [touched] by the system message. *)
Definition reaped (doc : ChatSession) (closedAt touched : Time) : ChatSession :=
  set_LastMessageAt
    (set_Sentiment
       (set_ClosedAt (set_Status (set_ID doc "") StatusClosed) (Some closedAt))
       "timeout")
    touched.

(** The system message of the reaper for session [id]. *)
Definition reaperNote (id : string) (msg : ChatMessage) : Prop :=
  SessionID msg = id /\ Sender msg = "system"
  /\ Content msg
     = "Sesi chat telah berakhir otomatis karena tidak ada aktivitas selama 6 menit.".

(** The requests sent to the transport, most recent first. *)
Fixpoint chatRequests (evs : list Event) : list (list GroqMessage) :=
  match evs with
  | [] => []
  | EvChat messages :: rest => messages :: chatRequests rest
  | _ :: rest => chatRequests rest
  end.

(** The role under which the pipeline hands a stored message to the
    engine. *)
Definition roleOf (msg : ChatMessage) : string :=
  if bool_decide (Sender msg = "bot" \/ Sender msg = "admin")
  then "assistant" else "user".

(** The operations of the session manager that write to the sessions
    collection. *)
Inductive Operation : Type :=
  | OpCreateSession (visitorID visitorName visitorEmail visitorPhone
                       currentPage location : string)
  | OpRequestHandover (sessionID : string)
  | OpClaimSession (sessionID adminID adminName : string)
  | OpCloseSession (sessionID : string)
  | OpReturnToBot (sessionID : string)
  | OpProcessMessage (sessionID content : string)
  | OpCleanupInactiveSessions (duration : Duration).

(** The state in which an operation leaves the process. *)
Definition runOperation (ToLower : string -> string) (env : Oracles)
    (op : Operation) (w : World) : World :=
  match op with
  | OpCreateSession v n e p c l => snd (CreateSession env v n e p c l w)
  | OpRequestHandover id => snd (RequestHandover env id w)
  | OpClaimSession id adminID adminName =>
      snd (ClaimSession env id adminID adminName w)
  | OpCloseSession id => snd (CloseSession env id w)
  | OpReturnToBot id => snd (ReturnToBot env id w)
  | OpProcessMessage id content => snd (ProcessMessage ToLower env id content w)
  | OpCleanupInactiveSessions duration =>
      snd (CleanupInactiveSessions env duration w)
  end.

(** The status under which session [id] is stored, if it is stored. *)
Definition storedStatus (w : World) (id : string) : option SessionStatus :=
  Status <$> sessionDocs w !! id.

(** The invariant as the specification words it. *)
Definition adminIffLive (s : ChatSession) : Prop :=
  AssignedAdmin s <> "" <-> Status s = StatusLive.

(** What the transitions do maintain: a session in the hands of the bot has
    no agent, and a live one has an agent. *)
Definition adminConsistent (s : ChatSession) : Prop :=
  (Status s = StatusBot -> AssignedAdmin s = "")
  /\ (Status s = StatusLive -> AssignedAdmin s <> "").

(** [ClaimSession] is given the id of an agent. *)
Definition namesAgent (op : Operation) : Prop :=
  match op with
  | OpClaimSession _ adminID _ => adminID <> ""
  | _ => True
  end.

(* ===================================================================== *)
(** * Example environments and states *)
(* ===================================================================== *)

Definition exampleEngine : ChatEngine :=
  mkChatEngine
    [ mkKnowledgeItem "Pendirian PT" "Bagaimana mendirikan PT?"
        "Akta notaris, SK Kemenkumham, NIB." ["PT"; "perseroan"];
      mkKnowledgeItem "ISO" "Apa itu sertifikasi ISO?"
        "ISO 9001, 14001, 45001, 27001." ["iso"];
      mkKnowledgeItem "HAKI" "Bagaimana mendaftarkan merek?"
        "Pendaftaran merek, paten, hak cipta." ["merek"; "haki"];
      mkKnowledgeItem "NIB" "Apa itu NIB?"
        "Nomor Induk Berusaha." ["nib"; "pt"];
      mkKnowledgeItem "SBU" "Apa itu SBU?"
        "Sertifikat Badan Usaha dari LPJK." ["sbu"] ]
    "Kamu adalah asisten virtual.".

(** The clock shows the number of effects so far, the store never fails and
    names its documents "doc<n>", the transport always answers. *)
Definition reliableEnv : Oracles :=
  mkOracles (fun n => Z.of_nat n) (fun _ => false)
    (fun n => "doc" +:+ pretty n) (fun _ _ => Ok "Baik, kami bantu.").

(** As [reliableEnv], with the transport down. *)
Definition outageEnv : Oracles :=
  mkOracles (fun n => Z.of_nat n) (fun _ => false)
    (fun n => "doc" +:+ pretty n) (fun _ _ => Err (ErrTransport "request failed")).

(** As [reliableEnv], with a transport that fails on requests whose last
    message is "ping". *)
Definition selectiveEnv : Oracles :=
  mkOracles (fun n => Z.of_nat n) (fun _ => false)
    (fun n => "doc" +:+ pretty n)
    (fun _ messages =>
       match last messages with
       | Some m =>
           if String.eqb (gContent m) "ping"
           then Err (ErrTransport "request failed") else Ok "Baik, kami bantu."
       | None => Ok "Baik, kami bantu."
       end).

Definition worldEmpty : World := NewSessionManager exampleEngine.

(** One session, created under the id "doc2". *)
Definition worldCreated : World :=
  snd (CreateSession reliableEnv "visitor-1" "Ani" "ani@example.com" "0812"
         "/layanan" "Jakarta" worldEmpty).

(** ... claimed by an agent ... *)
Definition worldClaimed : World :=
  snd (ClaimSession reliableEnv "doc2" "admin-1" "Sari" worldCreated).

(** ... and closed. *)
Definition worldClosed : World :=
  snd (CloseSession reliableEnv "doc2" worldClaimed).

(** The [n]-th message of a long conversation of session "doc2". *)
Definition visitorMessage (n : nat) : ChatMessage :=
  mkChatMessage ("msg" +:+ pretty n) "doc2" "visitor" ("pesan " +:+ pretty n)
    (100 + Z.of_nat n).

(** Session "doc2" with 21 messages, "pesan 1" the oldest and "pesan 21"
    the most recent. *)
Definition worldLongChat : World :=
  with_messages worldCreated (map visitorMessage (seq 1 21)).


(* ===================================================================== *)
(** * Package [utils] *)
(* ===================================================================== *)

(** [len(s)] as a Go [int]. *)
Definition len (s : string) : Z := Z.of_nat (String.length s).

(** [s[n:]] for [n <= len(s)]. *)
Fixpoint sliceFrom (n : nat) (s : string) : string :=
  match n, s with
  | O, _ => s
  | S k, String _ t => sliceFrom k t
  | S _, EmptyString => EmptyString
  end.

(** [s[:n]] for [n <= len(s)]. *)
Fixpoint sliceTo (n : nat) (s : string) : string :=
  match n, s with
  | O, _ => EmptyString
  | S k, String c t => String c (sliceTo k t)
  | S _, EmptyString => EmptyString
  end.

(** The class [\d] of Go regular expressions: the ASCII digits. *)
Definition isDigit (c : ascii) : bool :=
  let n := nat_of_ascii c in (Nat.leb 48 n && Nat.leb n 57)%bool.

(** [nonDigitRegex.ReplaceAllString(number, "")]: every character that is
    not an ASCII digit is removed; the bytes of a character outside ASCII
    are none of them digits. *)
Fixpoint removeNonDigits (number : string) : string :=
  match number with
  | EmptyString => EmptyString
  | String c t =>
      if isDigit c then String c (removeNonDigits t) else removeNonDigits t
  end.

(** [FormatPhoneNumber]. *)
Definition FormatPhoneNumber (number : string) : string :=
  let phone := removeNonDigits number in
  let phone := if HasPrefix phone "0" then "62" +:+ sliceFrom 1 phone else phone in
  let phone := if HasPrefix phone "8" then "62" +:+ phone else phone in
  phone.

(** [FormatPhoneForDisplay]. *)
Definition FormatPhoneForDisplay (number : string) : string :=
  let phone := FormatPhoneNumber number in
  if HasPrefix phone "62" then "0" +:+ sliceFrom 2 phone else phone.

Definition CR : ascii := ascii_of_nat 13.
Definition LF : ascii := ascii_of_nat 10.

(** [strings.ReplaceAll(s, old, new)] for a non-empty [old]: the
    occurrences of [old] are replaced from left to right, without overlap.
    [skip] counts the bytes of an occurrence still to be passed over. *)
Fixpoint replaceAllFrom (skip : nat) (s old new : string) : string :=
  match s with
  | EmptyString => EmptyString
  | String c t =>
      match skip with
      | S k => replaceAllFrom k t old new
      | O =>
          if HasPrefix s old
          then new +:+ replaceAllFrom (String.length old - 1) t old new
          else String c (replaceAllFrom 0 t old new)
      end
  end.

Definition ReplaceAll (s old new : string) : string := replaceAllFrom 0 s old new.

(** [NormalizeNewlines]. *)
Definition NormalizeNewlines (text : string) : string :=
  let text := ReplaceAll text (String CR (String LF EmptyString)) (String LF EmptyString) in
  let text := ReplaceAll text (String CR EmptyString) (String LF EmptyString) in
  text.

(** [Truncate]; [None] is the run-time panic of the slice expression
    [s[:maxLen]] on a negative bound. *)
Definition Truncate (s : string) (maxLen : Z) : option string :=
  if len s <=? maxLen then Some s
  else if maxLen <? 0 then None
  else Some (sliceTo (Z.to_nat maxLen) s +:+ "...").

(** [strings.Split(s, sep)] for a separator of one byte, [cur] being the
    piece read so far. *)
Fixpoint splitFrom (sep : ascii) (cur s : string) : list string :=
  match s with
  | EmptyString => [cur]
  | String c t =>
      if Ascii.eqb c sep then cur :: splitFrom sep EmptyString t
      else splitFrom sep (cur +:+ String c EmptyString) t
  end.

Definition Split (s : string) (sep : ascii) : list string :=
  splitFrom sep EmptyString s.

(** The table of [GetExtensionFromMimetype]. *)
Definition extensions : gmap string string :=
  list_to_map
    [ ("application/pdf", ".pdf");
      ("image/jpeg", ".jpg");
      ("image/png", ".png");
      ("image/gif", ".gif");
      ("image/webp", ".webp");
      ("video/mp4", ".mp4");
      ("audio/mpeg", ".mp3");
      ("audio/ogg", ".ogg");
      ("application/zip", ".zip");
      ("application/msword", ".doc");
      ("application/vnd.openxmlformats-officedocument.wordprocessingml.document",
       ".docx");
      ("application/vnd.ms-excel", ".xls");
      ("application/vnd.openxmlformats-officedocument.spreadsheetml.sheet",
       ".xlsx") ].

(** [GetExtensionFromMimetype]. *)
Definition GetExtensionFromMimetype (mimetype : string) : string :=
  match extensions !! mimetype with
  | Some ext => ext
  | None =>
      match Split mimetype "/"%char with
      | [_; subtype] => "." +:+ subtype
      | _ => ""
      end
  end.


(** [s] consists of ASCII digits. *)
Fixpoint onlyDigits (s : string) : bool :=
  match s with
  | EmptyString => true
  | String c t => (isDigit c && onlyDigits t)%bool
  end.

(** The byte [c] does not occur in [s]. *)
Fixpoint freeOf (c : ascii) (s : string) : bool :=
  match s with
  | EmptyString => true
  | String d t => (negb (Ascii.eqb d c) && freeOf c t)%bool
  end.

(** Newlines unified in one pass: a CR LF pair or a lone CR becomes one
    LF. *)
Fixpoint unifyNewlines (s : string) : string :=
  match s with
  | EmptyString => EmptyString
  | String c t =>
      if Ascii.eqb c CR
      then String LF
             match t with
             | String d t' => if Ascii.eqb d LF then unifyNewlines t' else unifyNewlines t
             | EmptyString => EmptyString
             end
      else String c (unifyNewlines t)
  end.

(* ===================================================================== *)
(** * Further operations of the session manager *)
(* ===================================================================== *)

(** [truncateText], the copy of [utils.Truncate] in package [chatbot]. *)
Definition truncateText (text : string) (maxLen : Z) : option string :=
  if len text <=? maxLen then Some text
  else if maxLen <? 0 then None
  else Some (sliceTo (Z.to_nat maxLen) text +:+ "...").

(** A string given by its bytes. *)
Definition bytes (l : list nat) : string :=
  string_of_list_ascii (map ascii_of_nat l).

(** The three prefixes of [GenerateAISummary], byte for byte. *)
Definition prefixVisitor : string :=
  bytes [196; 159; 197; 184; 226; 128; 152; 194; 164]%nat.
Definition prefixBot : string :=
  bytes [196; 159; 197; 184; 194; 164; 226; 128; 147]%nat.
Definition prefixAdmin : string :=
  bytes [196; 159; 197; 184; 226; 128; 152; 194; 168; 195; 162; 226; 130; 172;
         196; 159; 197; 184; 226; 128; 153; 194; 188]%nat.

(** [Where("status", "in", statuses)]. *)
Definition statusIn (statuses : list SessionStatus) (s : ChatSession) : bool :=
  bool_decide (Status s ∈ statuses).

(** Order of a query without [OrderBy]: by document id. *)
Definition key_le (a b : string * ChatSession) : bool :=
  String.leb (fst a) (fst b).

(** The documents of the query of [GetSessionByVisitorID]. The iterator is
    created without a call to the store: the call is made by [Next]. *)
Definition activeOfVisitor (visitorID : string) (w : World)
  : list (string * ChatSession) :=
  take 1
    (sortBy key_le
       (List.filter
          (fun d => String.eqb (VisitorID (snd d)) visitorID
                    && statusIn [StatusBot; StatusQueued; StatusLive] (snd d))
          (map_to_list (sessionDocs w)))).

(** The documents of the query of [GetQueuedSessions]. *)
Definition queuedAndLive (w : World) : list (string * ChatSession) :=
  sortBy key_le
    (List.filter (fun d => statusIn [StatusQueued; StatusLive] (snd d))
       (map_to_list (sessionDocs w))).

(** The line of [GenerateAISummary] for one message. *)
Definition summaryLine (msg : ChatMessage) : string :=
  let prefix :=
    if String.eqb (Sender msg) "bot" then prefixBot
    else if String.eqb (Sender msg) "admin" then prefixAdmin
    else prefixVisitor in
  prefix +:+ ": " +:+ default "" (truncateText (Content msg) 100) +:+ newline.

(** The loop of [GenerateAISummary] over [messages[startIdx:]]. *)
Fixpoint summaryLines (messages : list ChatMessage) (summary : string) : string :=
  match messages with
  | [] => summary
  | msg :: rest => summaryLines rest (summary +:+ summaryLine msg)
  end.

Section Machine2.

Variable env : Oracles.

Definition getWorld : M World := fun w => (Ok w, w).

(** [GetSessionByVisitorID]; [None] is the result [nil, nil]. *)
Definition GetSessionByVisitorID (visitorID : string) : M (option ChatSession) :=
  w <- getWorld ;;
  let docs := activeOfVisitor visitorID w in
  _ <- wrapErr "failed to query session" (iterNext env) ;;
  match docs with
  | [] => ret None
  | d :: _ => ret (Some (set_ID (snd d) (fst d)))
  end.

(** The loop of [GetQueuedSessions] over the iterator. *)
Fixpoint GetQueuedSessions_loop (docs : list (string * ChatSession))
    (sessions : list ChatSession) : M (list ChatSession) :=
  match docs with
  | [] =>
      _ <- iterNext env ;;
      ret sessions
  | d :: rest =>
      _ <- iterNext env ;;
      GetQueuedSessions_loop rest (sessions ++ [set_ID (snd d) (fst d)])
  end.

(** [GetQueuedSessions]. *)
Definition GetQueuedSessions : M (list ChatSession) :=
  w <- getWorld ;;
  GetQueuedSessions_loop (queuedAndLive w) [].

(** [GetOnlineAdmins]; the order of the result is that of the iteration
    over the map, which Go leaves open. *)
Definition GetOnlineAdmins : M (list AdminStatus) :=
  admins <- getAdmins ;;
  ret (List.filter (fun admin => String.eqb (adminState admin) "online")
         (map snd (map_to_list admins))).

(** [GenerateAISummary]. *)
Definition GenerateAISummary (sessionID : string) : M string :=
  messages <- GetMessages env sessionID 50 ;;
  if Z.of_nat (length messages) =? 0 then ret "Tidak ada percakapan."
  else
    r <- attempt (GetSession env sessionID) ;;
    let summary :=
      match r with
      | Ok session =>
          "Pengunjung: " +:+ VisitorName session +:+ " (" +:+ VisitorEmail session
          +:+ ")" +:+ newline +:+ "Sentimen: " +:+ Sentiment session
          +:+ newline +:+ newline
      | Err _ => ""
      end in
    let summary := summary +:+ "Ringkasan percakapan:" +:+ newline in
    let startIdx :=
      if 5 <? Z.of_nat (length messages) then (length messages - 5)%nat else 0%nat in
    ret (summaryLines (drop startIdx messages) summary).

End Machine2.

(* ===================================================================== *)
(** * Further specification vocabulary *)
(* ===================================================================== *)

(** [effect R m phi]: the state after [m] is related by [R] to the state
    before it, whatever the store and the transport answer, and a value
    returned without error satisfies [phi]. *)
Definition effect {A : Type} (R : World -> World -> Prop) (m : M A)
    (phi : A -> Prop) : Prop :=
  forall w : World,
    R w (snd (m w)) /\ forall a : A, fst (m w) = Ok a -> phi a.

(** The session an operation is called on. *)
Definition targetOf (op : Operation) : option string :=
  match op with
  | OpRequestHandover id | OpClaimSession id _ _ | OpCloseSession id
  | OpReturnToBot id | OpProcessMessage id _ => Some id
  | OpCreateSession _ _ _ _ _ _ | OpCleanupInactiveSessions _ => None
  end.

(** The messages an operation may append. *)
Definition mayAppend (op : Operation) (msg : ChatMessage) : Prop :=
  match op with
  | OpCreateSession _ _ _ _ _ _ | OpCloseSession _ => False
  | OpProcessMessage id _ => SessionID msg = id /\ Sender msg = "bot"
  | OpRequestHandover id | OpClaimSession id _ _ | OpReturnToBot id =>
      SessionID msg = id /\ Sender msg = "system"
  | OpCleanupInactiveSessions _ => Sender msg = "system"
  end.

(** The data of the visitor kept in a session. *)
Definition visitorData (s : ChatSession)
  : string * string * string * string * string * string * Time :=
  (VisitorID s, VisitorName s, VisitorEmail s, VisitorPhone s, CurrentPage s,
   Location s, CreatedAt s).

(** Every entry of the registry is filed under its agent id, with the
    capacity 5 and no active chat. *)
Definition registryShape (admins : gmap string AdminStatus) : Prop :=
  forall k entry, admins !! k = Some entry ->
    AdminID entry = k /\ MaxChats entry = 5 /\ ActiveChats entry = 0.

(** The document under key [k] exists and satisfies [P]. *)
Definition docSat (P : ChatSession -> Prop) (k : string)
    (m : gmap string ChatSession) : Prop :=
  exists d : ChatSession, m !! k = Some d /\ P d.

(** What [docSat P k] says of a document [d] stored under key [k']. *)
Definition docAt (P : ChatSession -> Prop) (k k' : string) (d : ChatSession) : Prop :=
  k' = k -> P d.

(** [d] is closed the way the reaper closes. *)
Definition closedOnTimeout (d : ChatSession) : Prop :=
  Status d = StatusClosed /\ Sentiment d = "timeout" /\ is_Some (ClosedAt d).

(** [d'] has the status, sentiment and closing time of [d]. *)
Definition sameClosing (d d' : ChatSession) : Prop :=
  Status d' = Status d /\ Sentiment d' = Sentiment d /\ ClosedAt d' = ClosedAt d.

(** The document stored by [worldCreated] under "doc2". *)
Definition docCreated : ChatSession :=
  mkChatSession "" "visitor-1" "Ani" "ani@example.com" "0812" StatusBot ""
    "/layanan" "" "neutral" 0 0 1 "Jakarta" None.


(* ===================================================================== *)
(** * Properties of the AI response engine *)
(* ===================================================================== *)

Section EngineProperties.

Variable ToLower : string -> string.

Lemma HasPrefix_spec (s p : string) :
  HasPrefix s p = true <-> exists post : string, s = p +:+ post.
Proof.
  revert s. induction p as [|c p IH]; intros s; simpl.
  - split; [intros _; by exists s | done].
  - destruct s as [|d t].
    + split; [done | intros [post H]; discriminate H].
    + rewrite andb_true_iff, Ascii.eqb_eq, IH. split.
      * intros [-> [post ->]]. by exists post.
      * intros [post H]. injection H as -> ->. split; [done | by exists post].
Qed.

Lemma Contains_spec (s sub : string) :
  Contains s sub = true <-> occursIn sub s.
Proof.
  unfold occursIn. induction s as [|d t IH].
  - simpl. rewrite orb_false_r, HasPrefix_spec. split.
    + intros [post H]. by exists EmptyString, post.
    + intros [pre [post H]]. destruct pre; simpl in H.
      * by exists post.
      * discriminate H.
  - cbn [Contains]. rewrite orb_true_iff, HasPrefix_spec, IH. split.
    + intros [[post H] | [pre [post H]]].
      * by exists EmptyString, post.
      * exists (String d pre), post. simpl. by rewrite H.
    + intros [pre [post H]]. destruct pre as [|c pre]; simpl in H.
      * left. by exists post.
      * right. injection H as _ ->. by exists pre, post.
Qed.

Lemma containsAny_spec (message : string) (words : list string) :
  containsAny message words = true <-> anyOccursIn words message.
Proof.
  unfold anyOccursIn. induction words as [|w ws IH]; simpl.
  - split; [done | intros [word [H _]]; by apply elem_of_nil in H].
  - destruct (Contains message w) eqn:Hc.
    + split; [intros _ | done]. exists w. split; [left | by apply Contains_spec].
    + rewrite IH. split.
      * intros [word [Hin Ho]]. exists word. split; [by right | done].
      * intros [word [Hin Ho]]. apply elem_of_cons in Hin as [-> | Hin].
        -- apply Contains_spec in Ho. congruence.
        -- by exists word.
Qed.

Lemma containsAny_false (message : string) (words : list string) :
  containsAny message words = false <-> ~ anyOccursIn words message.
Proof.
  rewrite <- containsAny_spec. destruct (containsAny message words); split; congruence.
Qed.

Lemma keywordHit_spec (query : string) (item : KnowledgeItem) :
  keywordHit ToLower (ToLower query) (Keywords item) = true
  <-> matchesQuery ToLower query item.
Proof.
  unfold matchesQuery. induction (Keywords item) as [|k ks IH]; simpl.
  - split; [done | intros [kw [H _]]; by apply elem_of_nil in H].
  - destruct (Contains (ToLower query) (ToLower k)) eqn:Hc.
    + split; [intros _ | done]. exists k. split; [left | by apply Contains_spec].
    + rewrite IH. split.
      * intros [kw [Hin Ho]]. exists kw. split; [by right | done].
      * intros [kw [Hin Ho]]. apply elem_of_cons in Hin as [-> | Hin].
        -- apply Contains_spec in Ho. congruence.
        -- by exists kw.
Qed.

Lemma collectRelevant_filter (message : string) (items relevant : list KnowledgeItem) :
  collectRelevant ToLower message items relevant
  = relevant ++ List.filter (fun item => keywordHit ToLower message (Keywords item)) items.
Proof.
  revert relevant. induction items as [|item rest IH]; intros relevant; simpl.
  - by rewrite app_nil_r.
  - destruct (keywordHit ToLower message (Keywords item)).
    + rewrite IH. by rewrite <- app_assoc.
    + apply IH.
Qed.

Lemma findRelevantKnowledge_take (e : ChatEngine) (query : string) :
  findRelevantKnowledge ToLower e query
  = take 3 (List.filter
              (fun item => keywordHit ToLower (ToLower query) (Keywords item))
              (knowledgeBase e)).
Proof.
  unfold findRelevantKnowledge. rewrite collectRelevant_filter. simpl.
  destruct (Z.ltb_spec 3 (Z.of_nat (length (List.filter
    (fun item => keywordHit ToLower (ToLower query) (Keywords item))
    (knowledgeBase e))))) as [Hlt | Hge].
  - done.
  - symmetry. apply take_ge. lia.
Qed.

Lemma asciiLower_append (a b : string) :
  asciiLower (a +:+ b) = asciiLower a +:+ asciiLower b.
Proof. induction a as [|c a IH]; simpl; [done | by rewrite IH]. Qed.

(** With [asciiLower], a phrase is found in whatever case it is written. *)
Lemma occursIn_asciiLower (phrase message : string) :
  occursIn phrase message -> occursIn (asciiLower phrase) (asciiLower message).
Proof.
  intros (pre & post & ->). exists (asciiLower pre), (asciiLower post).
  by rewrite !asciiLower_append.
Qed.

(** C6. Sentiment classification is a substring match on the lower-cased
    message, the frustrated phrases being tried before the positive ones:
    a message in which "kesel" occurs is [frustrated]; one in which
    "terima kasih" occurs and no frustrated phrase is [positive]; one in
    which neither a frustrated nor a positive phrase occurs is [neutral];
    and one in which both a frustrated and a positive phrase occur is
    [frustrated]. *)
Theorem analyzeSentiment_classification (message : string) :
  (occursIn "kesel" (ToLower message) ->
     analyzeSentiment ToLower message = "frustrated")
  /\ (occursIn "terima kasih" (ToLower message) ->
      ~ anyOccursIn frustratedWords (ToLower message) ->
      analyzeSentiment ToLower message = "positive")
  /\ (~ anyOccursIn frustratedWords (ToLower message) ->
      ~ anyOccursIn positiveWords (ToLower message) ->
      analyzeSentiment ToLower message = "neutral")
  /\ (anyOccursIn frustratedWords (ToLower message) ->
      anyOccursIn positiveWords (ToLower message) ->
      analyzeSentiment ToLower message = "frustrated").
Proof.
  unfold analyzeSentiment. repeat split.
  - intros Hk.
    assert (Hf : anyOccursIn frustratedWords (ToLower message)).
    { exists "kesel". split; [|done]. unfold frustratedWords.
      repeat (first [left | right]). }
    apply containsAny_spec in Hf. by rewrite Hf.
  - intros Ht Hnf. apply containsAny_false in Hnf. rewrite Hnf.
    assert (Hp : anyOccursIn positiveWords (ToLower message)).
    { exists "terima kasih". split; [left | done]. }
    apply containsAny_spec in Hp. by rewrite Hp.
  - intros Hnf Hnp. apply containsAny_false in Hnf, Hnp. by rewrite Hnf, Hnp.
  - intros Hf _. apply containsAny_spec in Hf. by rewrite Hf.
Qed.

(** C7. Knowledge retrieval returns at most 3 items, each of which has a
    keyword whose lower-cased form is a substring of the lower-cased query,
    and the items returned are the first (up to 3) matching items of the
    knowledge base, in its order. *)
Theorem findRelevantKnowledge_first_three (e : ChatEngine) (query : string) :
  (length (findRelevantKnowledge ToLower e query) <= 3)%nat
  /\ (forall item : KnowledgeItem,
        item ∈ findRelevantKnowledge ToLower e query ->
        item ∈ knowledgeBase e /\ matchesQuery ToLower query item)
  /\ (exists hit : KnowledgeItem -> bool,
        (forall item, hit item = true <-> matchesQuery ToLower query item)
        /\ findRelevantKnowledge ToLower e query
           = take 3 (List.filter hit (knowledgeBase e))).
Proof.
  rewrite findRelevantKnowledge_take. split; [|split].
  - rewrite length_take. lia.
  - intros item Hin. apply (subseteq_take 3) in Hin.
    apply list_elem_of_In, filter_In in Hin as [Hkb Hhit].
    split; [by apply list_elem_of_In | by apply keywordHit_spec].
  - exists (fun item => keywordHit ToLower (ToLower query) (Keywords item)).
    split; [|done]. intros item. apply keywordHit_spec.
Qed.

End EngineProperties.

(* ===================================================================== *)
(** * Reasoning about the session documents *)
(* ===================================================================== *)

Section Triples.

Variable J : gmap string ChatSession -> Prop.

Lemma triple_ret {A : Type} (a : A) (phi : A -> Prop) :
  phi a -> triple J (ret a) phi.
Proof. intros Ha w HJ. split; [done|]. simpl. intros b [= <-]. exact Ha. Qed.

Lemma triple_bind {A B : Type} (m : M A) (k : A -> M B)
    (psi : A -> Prop) (phi : B -> Prop) :
  triple J m psi ->
  (forall a : A, psi a -> triple J (k a) phi) ->
  triple J (bind m k) phi.
Proof.
  intros Hm Hk w HJ. unfold bind. destruct (Hm w HJ) as [HJ1 Hpsi].
  destruct (m w) as [[a|e] w1]; simpl in *.
  - exact (Hk a (Hpsi a eq_refl) w1 HJ1).
  - split; [done | intros b Hb; discriminate Hb].
Qed.

Lemma triple_attempt {A : Type} (m : M A) (psi : A -> Prop) :
  triple J m psi ->
  triple J (attempt m) (fun r => forall a : A, r = Ok a -> psi a).
Proof.
  intros Hm w HJ. unfold attempt. destruct (Hm w HJ) as [HJ1 Hpsi].
  destruct (m w) as [r w1]; simpl in *. split; [done|].
  intros r' [= <-]. exact Hpsi.
Qed.

Lemma triple_wrapErr {A : Type} (context : string) (m : M A) (phi : A -> Prop) :
  triple J m phi -> triple J (wrapErr context m) phi.
Proof.
  intros Hm w HJ. unfold wrapErr. destruct (Hm w HJ) as [HJ1 Hphi].
  destruct (m w) as [[a|e] w1]; simpl in *; split; try done.
Qed.


Lemma triple_readsOnly {A : Type} (m : M A) :
  readsOnly m -> triple J m (fun _ => True).
Proof. intros Hm w HJ. rewrite Hm. done. Qed.

End Triples.

Lemma readsOnly_ret {A : Type} (a : A) : readsOnly (ret a).
Proof. done. Qed.

Lemma readsOnly_bind {A B : Type} (m : M A) (k : A -> M B) :
  readsOnly m -> (forall a : A, readsOnly (k a)) -> readsOnly (bind m k).
Proof.
  intros Hm Hk w. unfold bind. specialize (Hm w).
  destruct (m w) as [[a|e] w1]; simpl in *; [|done].
  by rewrite Hk.
Qed.

Lemma readsOnly_wrapErr {A : Type} (context : string) (m : M A) :
  readsOnly m -> readsOnly (wrapErr context m).
Proof.
  intros Hm w. unfold wrapErr. specialize (Hm w).
  by destruct (m w) as [[a|e] w1].
Qed.

Lemma readsOnly_attempt {A : Type} (m : M A) :
  readsOnly m -> readsOnly (attempt m).
Proof.
  intros Hm w. unfold attempt. specialize (Hm w). by destruct (m w).
Qed.

Section StoreFrames.

Variable ToLower : string -> string.
Variable env : Oracles.

Lemma readsOnly_timeNow : readsOnly (timeNow env).
Proof. done. Qed.

Lemma readsOnly_iterNext : readsOnly (iterNext env).
Proof. done. Qed.

Lemma readsOnly_groqChat (messages : list GroqMessage) :
  readsOnly (groqChat env messages).
Proof. done. Qed.

Lemma readsOnly_addMessage (msg : ChatMessage) : readsOnly (addMessage env msg).
Proof. intros w. unfold addMessage. by destruct (fault env (step w)). Qed.

Lemma readsOnly_docGet (id : string) : readsOnly (docGet env id).
Proof.
  intros w. unfold docGet.
  destruct (fault env (step w)); [done|]. by destruct (sessionDocs w !! id).
Qed.

Lemma readsOnly_GetSession (id : string) : readsOnly (GetSession env id).
Proof.
  apply readsOnly_bind; [|done]. apply readsOnly_wrapErr, readsOnly_docGet.
Qed.

Lemma readsOnly_GetMessages_loop (docs messages : list ChatMessage) :
  readsOnly (GetMessages_loop env docs messages).
Proof.
  revert messages. induction docs as [|doc rest IH]; intros messages; simpl.
  - apply readsOnly_bind; [|done]. apply readsOnly_wrapErr, readsOnly_iterNext.
  - apply readsOnly_bind; [|intros _; apply IH].
    apply readsOnly_wrapErr, readsOnly_iterNext.
Qed.

Lemma readsOnly_GetMessages (sessionID : string) (limit : nat) :
  readsOnly (GetMessages env sessionID limit).
Proof.
  apply readsOnly_bind; [done|]. intros docs. apply readsOnly_GetMessages_loop.
Qed.

Lemma readsOnly_ChatEngine_ProcessMessage (e : ChatEngine) (userMessage : string)
    (history : list GroqMessage) :
  readsOnly (ChatEngine_ProcessMessage ToLower env e userMessage history).
Proof.
  apply readsOnly_bind; [|done]. apply readsOnly_wrapErr, readsOnly_groqChat.
Qed.

Lemma readsOnly_IsAnyAdminOnline : readsOnly IsAnyAdminOnline.
Proof. done. Qed.

Lemma readsOnly_UpdateAdminStatus (adminID adminName status : string) :
  readsOnly (UpdateAdminStatus env adminID adminName status).
Proof.
  intros w. unfold UpdateAdminStatus, bind, getAdmins, putAdmins, timeNow.
  destruct (String.eqb status "offline"); [done|].
  by destruct (adminStatus w !! adminID).
Qed.

End StoreFrames.

Lemma insertBy_perm {A : Type} (le : A -> A -> bool) (x : A) (l : list A) :
  insertBy le x l ≡ₚ x :: l.
Proof.
  induction l as [|y t IH]; simpl; [done|].
  destruct (le x y); [done|]. rewrite IH. apply Permutation_swap.
Qed.

Lemma sortBy_perm {A : Type} (le : A -> A -> bool) (l : list A) :
  sortBy le l ≡ₚ l.
Proof.
  induction l as [|x t IH]; simpl; [done|].
  rewrite insertBy_perm. by rewrite IH.
Qed.

Section SessionInvariant.

Variable ToLower : string -> string.
Variable env : Oracles.

(** [J] is the property of the sessions collection to be preserved, [G k d]
    what it says about a document [d] stored under key [k], and [N d] what
    it asks of a document created under a fresh key. *)
Variable J : gmap string ChatSession -> Prop.
Variable G : string -> ChatSession -> Prop.
Variable N : ChatSession -> Prop.

Hypothesis J_read :
  forall (m : gmap string ChatSession) k d, J m -> m !! k = Some d -> G k d.
Hypothesis J_write :
  forall (m : gmap string ChatSession) k d, J m -> G k d -> J (<[k := d]> m).
Hypothesis J_new :
  forall (m : gmap string ChatSession) k d,
    J m -> m !! k = None -> N d -> J (<[k := d]> m).
Hypothesis G_ID : forall k d v, G k d -> G k (set_ID d v).
Hypothesis G_touch : forall k d t, G k d -> G k (set_LastMessageAt d t).

Lemma triple_docGet (k : string) : triple J (docGet env k) (G k).
Proof.
  intros w HJ. unfold docGet. destruct (fault env (step w)); simpl.
  - split; [done | intros a Ha; discriminate Ha].
  - destruct (sessionDocs w !! k) as [d|] eqn:Hk; simpl.
    + split; [done|]. intros a [= <-]. by eapply J_read.
    + split; [done | intros a Ha; discriminate Ha].
Qed.

Lemma triple_docSet (k : string) (s : ChatSession) :
  G k (set_ID s "") -> triple J (docSet env k s) (fun _ => True).
Proof.
  intros HG w HJ. unfold docSet. destruct (fault env (step w)); simpl.
  - done.
  - split; [|done]. by apply J_write.
Qed.

Lemma triple_docTouch (k : string) (t : Time) :
  triple J (docTouch env k t) (fun _ => True).
Proof.
  intros w HJ. unfold docTouch. destruct (fault env (step w)); simpl; [done|].
  destruct (sessionDocs w !! k) as [d|] eqn:Hk; simpl; [|done].
  split; [|done]. apply J_write; [done|]. apply G_touch. by eapply J_read.
Qed.

Lemma triple_addSession (s : ChatSession) :
  N (set_ID s "") -> triple J (addSession env s) (fun _ => True).
Proof.
  intros HN w HJ. unfold addSession. destruct (fault env (step w)); simpl; [done|].
  destruct (sessionDocs w !! autoID env (step w)) as [d|] eqn:Hk; simpl; [done|].
  split; [|done]. by apply J_new.
Qed.

Lemma triple_GetSession (k : string) :
  triple J (GetSession env k) (fun s => G k s /\ ID s = k).
Proof.
  eapply triple_bind.
  - apply triple_wrapErr, triple_docGet.
  - intros d Hd. apply triple_ret. split; [by apply G_ID | done].
Qed.

Lemma triple_UpdateSession (s : ChatSession) :
  G (ID s) s -> triple J (UpdateSession env s) (fun _ => True).
Proof. intros HG. apply triple_wrapErr, triple_docSet. by apply G_ID. Qed.

Lemma triple_SaveMessage (msg : ChatMessage) :
  triple J (SaveMessage env msg) (fun _ => True).
Proof.
  eapply triple_bind.
  - apply triple_wrapErr, triple_readsOnly, readsOnly_addMessage.
  - intros id _. eapply triple_bind.
    + apply triple_attempt, triple_docTouch.
    + intros r _. by apply triple_ret.
Qed.

Lemma triple_timeNow : triple J (timeNow env) (fun _ => True).
Proof. apply triple_readsOnly, readsOnly_timeNow. Qed.

(** The transitions, each under what it needs of [G]. *)

Lemma triple_CreateSession (visitorID visitorName visitorEmail visitorPhone
    currentPage location : string) :
  (forall t1 t2 : Time,
     N (mkChatSession "" visitorID visitorName visitorEmail visitorPhone
          StatusBot "" currentPage "" "neutral" 0 t1 t2 location None)) ->
  triple J
    (CreateSession env visitorID visitorName visitorEmail visitorPhone
       currentPage location)
    (fun _ => True).
Proof.
  intros HN. unfold CreateSession.
  eapply triple_bind; [apply triple_timeNow | intros t1 _].
  eapply triple_bind; [apply triple_timeNow | intros t2 _].
  eapply triple_bind.
  - apply triple_wrapErr, triple_addSession. apply HN.
  - intros id _. by apply triple_ret.
Qed.

Lemma triple_RequestHandover (k : string) :
  (forall d, G k d -> G k (set_Status d StatusQueued)) ->
  triple J (RequestHandover env k) (fun _ => True).
Proof.
  intros Hq. unfold RequestHandover.
  eapply triple_bind; [apply triple_GetSession | intros s [Hs Hid]].
  eapply triple_bind.
  { apply triple_UpdateSession. simpl. rewrite Hid. by apply Hq. }
  intros _ _.
  eapply triple_bind; [apply triple_timeNow | intros t _].
  eapply triple_bind; [apply triple_attempt, triple_SaveMessage | intros r _].
  eapply triple_bind.
  { apply triple_readsOnly, readsOnly_IsAnyAdminOnline. }
  intros b _. by apply triple_ret.
Qed.

Lemma triple_ClaimSession (k adminID adminName : string) :
  (forall d, G k d -> G k (set_AssignedAdmin (set_Status d StatusLive) adminID)) ->
  triple J (ClaimSession env k adminID adminName) (fun _ => True).
Proof.
  intros Hc. unfold ClaimSession.
  eapply triple_bind; [apply triple_GetSession | intros s [Hs Hid]].
  eapply triple_bind.
  { apply triple_UpdateSession. simpl. rewrite Hid. by apply Hc. }
  intros _ _.
  eapply triple_bind; [apply triple_timeNow | intros t _].
  eapply triple_bind; [apply triple_attempt, triple_SaveMessage | intros r _].
  by apply triple_ret.
Qed.

Lemma triple_CloseSession (k : string) :
  (forall d t, G k d -> G k (set_ClosedAt (set_Status d StatusClosed) (Some t))) ->
  triple J (CloseSession env k) (fun _ => True).
Proof.
  intros Hc. unfold CloseSession.
  eapply triple_bind; [apply triple_GetSession | intros s [Hs Hid]].
  eapply triple_bind; [apply triple_timeNow | intros t _].
  apply triple_UpdateSession. simpl. rewrite Hid. by apply Hc.
Qed.

Lemma triple_ReturnToBot (k : string) :
  (forall d, G k d ->
     G k (set_FailedAttempts (set_AssignedAdmin (set_Status d StatusBot) "") 0)) ->
  triple J (ReturnToBot env k) (fun _ => True).
Proof.
  intros Hb. unfold ReturnToBot.
  eapply triple_bind; [apply triple_GetSession | intros s [Hs Hid]].
  eapply triple_bind.
  { apply triple_UpdateSession. simpl. rewrite Hid. by apply Hb. }
  intros _ _.
  eapply triple_bind; [apply triple_timeNow | intros t _].
  eapply triple_bind; [apply triple_attempt, triple_SaveMessage | intros r _].
  by apply triple_ret.
Qed.

Lemma triple_ProcessMessage (k content : string) :
  (forall d v, G k d -> G k (set_Sentiment d v)) ->
  (forall d v, G k d -> G k (set_FailedAttempts d v)) ->
  triple J (ProcessMessage ToLower env k content) (fun _ => True).
Proof.
  intros Hsent Hfail. unfold ProcessMessage.
  eapply triple_bind; [apply triple_GetSession | intros s [Hs Hid]].
  destruct (decide (Status s = StatusLive)); [by apply triple_ret|].
  eapply triple_bind.
  { apply triple_wrapErr, triple_readsOnly, readsOnly_GetMessages. }
  intros messages _.
  eapply triple_bind; [by apply triple_readsOnly | intros engine _].
  eapply triple_bind.
  { apply triple_attempt, triple_readsOnly.
    apply readsOnly_ChatEngine_ProcessMessage. }
  intros r _.
  eapply (triple_bind _ _ _ (fun sr => G k (fst sr) /\ ID (fst sr) = k)).
  { destruct r as [response|e].
    - by apply triple_ret.
    - eapply triple_bind.
      + apply triple_attempt, triple_UpdateSession. simpl. rewrite Hid.
        by apply Hfail.
      + intros _ _. apply triple_ret. simpl. split; [by apply Hfail | done]. }
  intros [s' response] [Hs' Hid']. simpl in *.
  eapply triple_bind; [apply triple_timeNow | intros t _].
  eapply triple_bind; [apply triple_attempt, triple_SaveMessage | intros r' _].
  eapply triple_bind.
  { apply triple_attempt, triple_UpdateSession. simpl. rewrite Hid'.
    by apply Hsent. }
  intros _ _. by apply triple_ret.
Qed.

Lemma triple_closeInactive (k : string) (d : ChatSession) :
  (forall d t, G k d ->
     G k (set_Sentiment (set_ClosedAt (set_Status d StatusClosed) (Some t)) "timeout")) ->
  G k d ->
  triple J (closeInactive env k d) (fun _ => True).
Proof.
  intros Hc Hd. unfold closeInactive.
  eapply triple_bind; [apply triple_timeNow | intros t _].
  eapply triple_bind.
  { apply triple_attempt, triple_UpdateSession. simpl. apply Hc. by apply G_ID. }
  intros [[]|e] _; [|by apply triple_ret].
  eapply triple_bind; [apply triple_timeNow | intros t' _].
  eapply triple_bind; [apply triple_attempt, triple_SaveMessage | intros r' _].
  by apply triple_ret.
Qed.

Lemma triple_Cleanup_loop (docs : list (string * ChatSession)) :
  (forall k d t, G k d ->
     G k (set_Sentiment (set_ClosedAt (set_Status d StatusClosed) (Some t)) "timeout")) ->
  (forall k d, (k, d) ∈ docs -> G k d) ->
  triple J (Cleanup_loop env docs) (fun _ => True).
Proof.
  intros Hc. induction docs as [|[k d] rest IH]; intros Hdocs; simpl.
  - apply triple_readsOnly, readsOnly_iterNext.
  - eapply triple_bind.
    { apply triple_readsOnly, readsOnly_iterNext. }
    intros _ _. eapply triple_bind.
    { apply triple_closeInactive; [apply Hc | apply Hdocs; left]. }
    intros _ _. apply IH. intros k' d' Hin. apply Hdocs. by right.
Qed.

Lemma triple_queryInactive (cutoff : Time) :
  triple J (queryInactive cutoff)
    (fun docs => forall k d, (k, d) ∈ docs -> G k d).
Proof.
  intros w HJ. unfold queryInactive. simpl. split; [done|].
  intros docs [= <-] k d Hin. rewrite sortBy_perm in Hin.
  apply list_elem_of_In, filter_In in Hin as [Hin _].
  apply list_elem_of_In, elem_of_map_to_list in Hin. by eapply J_read.
Qed.

Lemma triple_CleanupInactiveSessions (duration : Duration) :
  (forall k d t, G k d ->
     G k (set_Sentiment (set_ClosedAt (set_Status d StatusClosed) (Some t)) "timeout")) ->
  triple J (CleanupInactiveSessions env duration) (fun _ => True).
Proof.
  intros Hc. unfold CleanupInactiveSessions.
  eapply triple_bind; [apply triple_timeNow | intros t _].
  eapply triple_bind; [apply triple_queryInactive | intros docs Hdocs].
  by apply triple_Cleanup_loop.
Qed.

End SessionInvariant.

(* ===================================================================== *)
(** * Running the monad *)
(* ===================================================================== *)

Lemma bind_Ok_inv {A B : Type} (m : M A) (k : A -> M B) (w w' : World) (b : B) :
  bind m k w = (Ok b, w') ->
  exists (a : A) (w1 : World), m w = (Ok a, w1) /\ k a w1 = (Ok b, w').
Proof.
  unfold bind. destruct (m w) as [[a|e] w1]; [|discriminate].
  intros H. by exists a, w1.
Qed.

Lemma bind_run {A B : Type} (m : M A) (k : A -> M B) (w w1 : World) (a : A) :
  m w = (Ok a, w1) -> bind m k w = k a w1.
Proof. intros H. unfold bind. by rewrite H. Qed.


Lemma attempt_run {A : Type} (m : M A) (w w' : World) (r : Result A) :
  m w = (r, w') -> attempt m w = (Ok r, w').
Proof. intros H. unfold attempt. by rewrite H. Qed.

Lemma wrapErr_run {A : Type} (context : string) (m : M A) (w w' : World) (a : A) :
  m w = (Ok a, w') -> wrapErr context m w = (Ok a, w').
Proof. intros H. unfold wrapErr. by rewrite H. Qed.

Lemma readsOnly_run {A : Type} (m : M A) (w w' : World) (r : Result A) :
  readsOnly m -> m w = (r, w') -> sessionDocs w' = sessionDocs w.
Proof. intros Hm Hrun. specialize (Hm w). by rewrite Hrun in Hm. Qed.

(** One step of symbolic execution: the first computation of a [bind] is
    replaced by its known outcome. *)
Ltac mrun H := rewrite (bind_run _ _ _ _ _ H); cbn beta iota zeta.

Lemma triple_run {A : Type} (J : gmap string ChatSession -> Prop) (m : M A)
    (phi : A -> Prop) (w w' : World) (r : Result A) :
  triple J m phi -> J (sessionDocs w) -> m w = (r, w') ->
  J (sessionDocs w') /\ forall a : A, r = Ok a -> phi a.
Proof. intros Hm HJ Hrun. specialize (Hm w HJ). by rewrite Hrun in Hm. Qed.

Lemma triple_keeps {A : Type} (J : gmap string ChatSession -> Prop) (m : M A)
    (phi : A -> Prop) (w : World) :
  triple J m phi -> J (sessionDocs w) -> J (sessionDocs (snd (m w))).
Proof. intros Hm HJ. by apply Hm. Qed.

Section Runs.

Variable env : Oracles.

Lemma GetSession_Ok_inv (id : string) (w w' : World) (s : ChatSession) :
  GetSession env id w = (Ok s, w') ->
  exists doc : ChatSession,
    sessionDocs w !! id = Some doc /\ s = set_ID doc id
    /\ w' = record (EvGetSession id) w /\ fault env (step w) = false.
Proof.
  unfold GetSession, bind, wrapErr, docGet, ret.
  destruct (fault env (step w)); [discriminate|].
  destruct (sessionDocs w !! id) as [doc|]; [|discriminate].
  intros [= <- <-]. by exists doc.
Qed.

Lemma GetSession_run (id : string) (w : World) (doc : ChatSession) :
  sessionDocs w !! id = Some doc -> fault env (step w) = false ->
  GetSession env id w = (Ok (set_ID doc id), record (EvGetSession id) w).
Proof.
  intros Hdoc Hf. unfold GetSession, bind, wrapErr, docGet, ret.
  by rewrite Hf, Hdoc.
Qed.

Lemma GetSession_fault (id : string) (w : World) :
  fault env (step w) = true ->
  GetSession env id w
  = (Err (ErrWrap "failed to get session" ErrUnavailable),
     record (EvGetSession id) w).
Proof.
  intros Hf. unfold GetSession, bind, wrapErr, docGet, ret. by rewrite Hf.
Qed.

Lemma UpdateSession_Ok_inv (s : ChatSession) (w w' : World) (u : unit) :
  UpdateSession env s w = (Ok u, w') ->
  w' = with_sessions (record (EvSetSession (ID s)) w)
         (<[ID s := set_ID s ""]> (sessionDocs w))
  /\ fault env (step w) = false.
Proof.
  unfold UpdateSession, wrapErr, docSet.
  destruct (fault env (step w)); [discriminate|]. by intros [= <-].
Qed.

Lemma UpdateSession_run (s : ChatSession) (w : World) :
  fault env (step w) = false ->
  UpdateSession env s w
  = (Ok tt, with_sessions (record (EvSetSession (ID s)) w)
              (<[ID s := set_ID s ""]> (sessionDocs w))).
Proof. intros Hf. unfold UpdateSession, wrapErr, docSet. by rewrite Hf. Qed.

End Runs.

(** [fieldIs] and [fieldAt] as an instance of the hypotheses of section
    [SessionInvariant]. *)
Section KeyedField.

Context {X : Type}.
Variable f : ChatSession -> X.
Variable k : string.
Variable v : X.

Local Abbreviation fieldIs := (fieldIs f k v).
Local Abbreviation fieldAt := (fieldAt f k v).

Lemma fieldIs_read (m : gmap string ChatSession) k' d :
  fieldIs m -> m !! k' = Some d -> fieldAt k' d.
Proof. intros (d0 & Hd0 & Hv) Hk' ->. congruence. Qed.

Lemma fieldIs_write (m : gmap string ChatSession) k' d :
  fieldIs m -> fieldAt k' d -> fieldIs (<[k' := d]> m).
Proof.
  intros (d0 & Hd0 & Hv) Hd. unfold fieldIs. rewrite lookup_insert.
  case_decide as Hk.
  - exists d. split; [done|]. by apply Hd.
  - by exists d0.
Qed.

Lemma fieldIs_new (m : gmap string ChatSession) k' d :
  fieldIs m -> m !! k' = None -> True -> fieldIs (<[k' := d]> m).
Proof.
  intros (d0 & Hd0 & Hv) Hnone _. apply fieldIs_write; [by exists d0|].
  intros ->. congruence.
Qed.

End KeyedField.

(* ===================================================================== *)
(** * The state machine *)
(* ===================================================================== *)

Lemma map_Forall_by_list {A : Type} (P : A -> Prop) (m : gmap string A) :
  Forall (fun kd => P (snd kd)) (map_to_list m) ->
  forall k d, m !! k = Some d -> P d.
Proof.
  intros HF k d Hk. rewrite Forall_forall in HF.
  apply (HF (k, d)). by apply elem_of_map_to_list.
Qed.

Section StateMachine.

Variable ToLower : string -> string.
Variable env : Oracles.

(** C1 (amended). After every operation on the sessions collection, every
    stored session whose status is [bot] has an empty [assignedAdmin], and
    every stored session whose status is [live] has a non-empty one,
    provided [ClaimSession] is called with a non-empty agent id. Nothing is
    said of [queued] and [closed] sessions: closing does not clear the
    field. *)
Theorem operations_keep_admin_consistent (op : Operation) (w : World) :
  namesAgent op ->
  (forall id s, sessionDocs w !! id = Some s -> adminConsistent s) ->
  forall id s,
    sessionDocs (runOperation ToLower env op w) !! id = Some s ->
    adminConsistent s.
Proof.
  intros Hop Hinv.
  set (J := fun m : gmap string ChatSession =>
              forall id s, m !! id = Some s -> adminConsistent s).
  set (G := fun (_ : string) (s : ChatSession) => adminConsistent s).
  assert (Hread : forall (m : gmap string ChatSession) k d,
            J m -> m !! k = Some d -> G k d).
  { intros m k d Hm Hk. by eapply Hm. }
  assert (Hwrite : forall (m : gmap string ChatSession) k d,
            J m -> G k d -> J (<[k := d]> m)).
  { intros m k d Hm Hd id s. rewrite lookup_insert. case_decide.
    - by intros [= <-].
    - apply Hm. }
  assert (Hnew : forall (m : gmap string ChatSession) k d,
            J m -> m !! k = None -> adminConsistent d -> J (<[k := d]> m)).
  { intros m k d Hm _ Hd. by apply Hwrite. }
  assert (HID : forall k d v, G k d -> G k (set_ID d v)) by done.
  assert (Htouch : forall k d t, G k d -> G k (set_LastMessageAt d t)) by done.
  change (J (sessionDocs (runOperation ToLower env op w))).
  destruct op as [v n e p c l | k | k adminID adminName | k | k | k content | duration];
    simpl in *.
  - eapply (triple_CreateSession env J adminConsistent); eauto.
    intros t1 t2. split; simpl; [done | discriminate].
  - eapply (triple_RequestHandover env J G); eauto.
    intros d _. split; simpl; discriminate.
  - eapply (triple_ClaimSession env J G); eauto.
    intros d _. split; simpl; [discriminate | done].
  - eapply (triple_CloseSession env J G); eauto.
    intros d t _. split; simpl; discriminate.
  - eapply (triple_ReturnToBot env J G); eauto.
    intros d _. split; simpl; [done | discriminate].
  - eapply (triple_ProcessMessage ToLower env J G); eauto.
  - eapply (triple_CleanupInactiveSessions env J G); eauto.
    intros k d t _. split; simpl; discriminate.
Qed.

Lemma storedStatus_fieldIs (w : World) (id : string) (st : SessionStatus) :
  storedStatus w id = Some st <-> fieldIs Status id st (sessionDocs w).
Proof.
  unfold storedStatus, fieldIs. destruct (sessionDocs w !! id) as [d|]; simpl.
  - split; [intros [= <-]; by exists d | intros (d' & [= <-] & <-); done].
  - split; [done | intros (d' & Hd & _); discriminate Hd].
Qed.

(** The tail shared by the transitions: the system message is saved, which
    touches [lastMessageAt] only. *)
Lemma notify_keeps_status (k : string) (st : SessionStatus) (msg : ChatMessage)
    (w w' : World) (r : Result unit) :
  storedStatus w k = Some st ->
  attempt (SaveMessage env msg) w = (Ok r, w') ->
  storedStatus w' k = Some st.
Proof.
  rewrite !storedStatus_fieldIs. intros HJ Hrun.
  eapply (triple_run (fieldIs Status k st)) in Hrun as [HJ' _]; [done| |done].
  apply triple_attempt.
  apply (triple_SaveMessage env _ (fieldAt Status k st)).
  - apply fieldIs_read.
  - apply fieldIs_write.
  - done.
Qed.

Lemma storedStatus_after_set (s : ChatSession) (w : World) :
  storedStatus
    (with_sessions (record (EvSetSession (ID s)) w)
       (<[ID s := set_ID s ""]> (sessionDocs w))) (ID s)
  = Some (Status s).
Proof. unfold storedStatus. simpl. by rewrite lookup_insert_eq. Qed.

Lemma RequestHandover_stores_queued (k : string) (w w' : World) (b : bool) :
  RequestHandover env k w = (Ok b, w') -> storedStatus w' k = Some StatusQueued.
Proof.
  unfold RequestHandover. intros H.
  apply bind_Ok_inv in H as (s & w1 & HG & H).
  apply bind_Ok_inv in H as ([] & w2 & HU & H).
  apply bind_Ok_inv in H as (t & w3 & HT & H).
  apply bind_Ok_inv in H as (r & w4 & HS & H).
  apply bind_Ok_inv in H as (b' & w5 & HA & H).
  injection H as _ <-. injection HA as _ <-. injection HT as _ <-.
  apply GetSession_Ok_inv in HG as (doc & _ & -> & -> & _).
  apply UpdateSession_Ok_inv in HU as [-> _].
  eapply notify_keeps_status; [|exact HS].
  apply (storedStatus_after_set (set_Status (set_ID doc k) StatusQueued)).
Qed.

Lemma ClaimSession_stores_live (k adminID adminName : string) (w w' : World) (u : unit) :
  ClaimSession env k adminID adminName w = (Ok u, w') ->
  storedStatus w' k = Some StatusLive.
Proof.
  unfold ClaimSession. intros H.
  apply bind_Ok_inv in H as (s & w1 & HG & H).
  apply bind_Ok_inv in H as ([] & w2 & HU & H).
  apply bind_Ok_inv in H as (t & w3 & HT & H).
  apply bind_Ok_inv in H as (r & w4 & HS & H).
  injection H as _ <-. injection HT as _ <-.
  apply GetSession_Ok_inv in HG as (doc & _ & -> & -> & _).
  apply UpdateSession_Ok_inv in HU as [-> _].
  eapply notify_keeps_status; [|exact HS].
  apply (storedStatus_after_set
           (set_AssignedAdmin (set_Status (set_ID doc k) StatusLive) adminID)).
Qed.

Lemma ReturnToBot_stores_bot (k : string) (w w' : World) (u : unit) :
  ReturnToBot env k w = (Ok u, w') -> storedStatus w' k = Some StatusBot.
Proof.
  unfold ReturnToBot. intros H.
  apply bind_Ok_inv in H as (s & w1 & HG & H).
  apply bind_Ok_inv in H as ([] & w2 & HU & H).
  apply bind_Ok_inv in H as (t & w3 & HT & H).
  apply bind_Ok_inv in H as (r & w4 & HS & H).
  injection H as _ <-. injection HT as _ <-.
  apply GetSession_Ok_inv in HG as (doc & _ & -> & -> & _).
  apply UpdateSession_Ok_inv in HU as [-> _].
  eapply notify_keeps_status; [|exact HS].
  apply (storedStatus_after_set
           (set_FailedAttempts
              (set_AssignedAdmin (set_Status (set_ID doc k) StatusBot) "") 0)).
Qed.

(** C2 (amended). A session stored as [closed] is still stored as [closed]
    after [ProcessMessage], after a sweep of the reaper and after
    [CloseSession], on whatever session they are called and whatever the
    store and the transport answer. [RequestHandover], [ClaimSession] and
    [ReturnToBot] do not look at the current status: when they succeed on a
    closed session it is stored as [queued], [live] and [bot]. *)
Theorem closed_is_kept_by_pipeline_and_reaper_only (w : World) (id0 : string) :
  storedStatus w id0 = Some StatusClosed ->
  (forall id content : string,
     storedStatus (snd (ProcessMessage ToLower env id content w)) id0
     = Some StatusClosed)
  /\ (forall duration : Duration,
        storedStatus (snd (CleanupInactiveSessions env duration w)) id0
        = Some StatusClosed)
  /\ (forall id : string,
        storedStatus (snd (CloseSession env id w)) id0 = Some StatusClosed)
  /\ (forall (b : bool) (w' : World),
        RequestHandover env id0 w = (Ok b, w') ->
        storedStatus w' id0 = Some StatusQueued)
  /\ (forall (adminID adminName : string) (w' : World),
        ClaimSession env id0 adminID adminName w = (Ok tt, w') ->
        storedStatus w' id0 = Some StatusLive)
  /\ (forall w' : World,
        ReturnToBot env id0 w = (Ok tt, w') ->
        storedStatus w' id0 = Some StatusBot).
Proof.
  intros Hclosed.
  pose proof (proj1 (storedStatus_fieldIs _ _ _) Hclosed) as HJ.
  repeat split.
  - intros id content. apply storedStatus_fieldIs.
    apply (triple_keeps _ _ (fun _ => True)); [|exact HJ].
    apply (triple_ProcessMessage ToLower env _ (fieldAt Status id0 StatusClosed));
      try done; [apply fieldIs_read | apply fieldIs_write].
  - intros duration. apply storedStatus_fieldIs.
    apply (triple_keeps _ _ (fun _ => True)); [|exact HJ].
    apply (triple_CleanupInactiveSessions env _ (fieldAt Status id0 StatusClosed));
      try done; [apply fieldIs_read | apply fieldIs_write].
  - intros id. apply storedStatus_fieldIs.
    apply (triple_keeps _ _ (fun _ => True)); [|exact HJ].
    apply (triple_CloseSession env _ (fieldAt Status id0 StatusClosed));
      try done; [apply fieldIs_read | apply fieldIs_write].
  - intros b w'. apply RequestHandover_stores_queued.
  - intros adminID adminName w'. apply ClaimSession_stores_live.
  - intros w'. apply ReturnToBot_stores_bot.
Qed.

End StateMachine.

(* ===================================================================== *)
(** * The agent presence registry *)
(* ===================================================================== *)

Section Registry.

Variable env : Oracles.

Lemma with_admins_same (w : World) : with_admins w (adminStatus w) = w.
Proof. by destruct w. Qed.

Lemma UpdateAdminStatus_offline (adminID adminName : string) (w : World) :
  UpdateAdminStatus env adminID adminName "offline" w
  = (Ok tt, with_admins w (delete adminID (adminStatus w))).
Proof. done. Qed.

Lemma UpdateAdminStatus_new (adminID adminName status : string) (w : World) :
  status <> "offline" -> adminStatus w !! adminID = None ->
  UpdateAdminStatus env adminID adminName status w
  = (Ok tt,
     with_admins (record EvNow w)
       (<[adminID := mkAdminStatus adminID adminName status 0 5 (now env (step w))]>
          (adminStatus w))).
Proof.
  intros Hst Hnone. unfold UpdateAdminStatus, bind, getAdmins.
  apply String.eqb_neq in Hst. rewrite Hst, Hnone. done.
Qed.

(** C9. Reporting [offline] for an agent removes its entry, and changes
    nothing when there is none; reporting another state for an agent without
    entry creates one with capacity ceiling 5; and after [online] then
    [offline] for one agent, from an empty registry, [IsAnyAdminOnline]
    answers false. *)
Theorem presence_registry_reports (w : World) (adminID adminName status : string) :
  (fst (UpdateAdminStatus env adminID adminName "offline" w) = Ok tt
   /\ adminStatus (snd (UpdateAdminStatus env adminID adminName "offline" w))
      = delete adminID (adminStatus w)
   /\ adminStatus (snd (UpdateAdminStatus env adminID adminName "offline" w))
        !! adminID = None)
  /\ (adminStatus w !! adminID = None ->
      snd (UpdateAdminStatus env adminID adminName "offline" w) = w)
  /\ (status <> "offline" -> adminStatus w !! adminID = None ->
      exists entry : AdminStatus,
        adminStatus (snd (UpdateAdminStatus env adminID adminName status w))
          !! adminID = Some entry
        /\ MaxChats entry = 5 /\ adminState entry = status
        /\ AdminID entry = adminID /\ AdminName entry = adminName
        /\ ActiveChats entry = 0 /\ LastSeen entry = now env (step w))
  /\ (adminStatus w = ∅ ->
      let w1 := snd (UpdateAdminStatus env adminID adminName "online" w) in
      let w2 := snd (UpdateAdminStatus env adminID adminName "offline" w1) in
      fst (IsAnyAdminOnline w2) = Ok false).
Proof.
  split; [|split; [|split]].
  - rewrite UpdateAdminStatus_offline. simpl.
    split; [done|]. split; [done|]. apply lookup_delete_eq.
  - intros Hnone. rewrite UpdateAdminStatus_offline. simpl.
    rewrite delete_id by done. apply with_admins_same.
  - intros Hst Hnone. rewrite UpdateAdminStatus_new by done. simpl.
    eexists. rewrite lookup_insert_eq. split; [done|]. done.
  - intros Hempty w1 w2. subst w2 w1.
    rewrite (UpdateAdminStatus_new adminID adminName "online" w);
      [|discriminate | by rewrite Hempty].
    rewrite UpdateAdminStatus_offline. simpl.
    rewrite delete_insert_eq, Hempty, delete_empty.
    unfold IsAnyAdminOnline, bind, getAdmins, ret. simpl.
    by rewrite map_to_list_empty.
Qed.

End Registry.

(* ===================================================================== *)
(** * The message pipeline *)
(* ===================================================================== *)

Section Pipeline.

Variable ToLower : string -> string.
Variable env : Oracles.

(** C5. On a session stored as [live] the pipeline only reads the session:
    the state after the call is the state before it with that one read
    logged, so the transport is not called, no history is queried and no
    message is saved; and when the read succeeds the response has an empty
    reply and [SuggestHandover = false]. *)
Theorem ProcessMessage_live_short_circuit (w : World) (id content : string) :
  storedStatus w id = Some StatusLive ->
  let w' := snd (ProcessMessage ToLower env id content w) in
  w' = record (EvGetSession id) w
  /\ chatRequests (events w') = chatRequests (events w)
  /\ messageDocs w' = messageDocs w
  /\ sessionDocs w' = sessionDocs w
  /\ (fault env (step w) = false ->
      fst (ProcessMessage ToLower env id content w) = Ok liveNoOp)
  /\ Reply liveNoOp = "" /\ SuggestHandover liveNoOp = false.
Proof.
  intros Hlive w'. unfold storedStatus in Hlive.
  destruct (sessionDocs w !! id) as [doc|] eqn:Hdoc; [|discriminate].
  injection Hlive as Hlive.
  assert (Hw' : w' = record (EvGetSession id) w
                /\ (fault env (step w) = false ->
                    fst (ProcessMessage ToLower env id content w) = Ok liveNoOp)).
  { subst w'. unfold ProcessMessage. destruct (fault env (step w)) eqn:Hf.
    - unfold bind. rewrite (GetSession_fault env id w Hf). done.
    - rewrite (bind_run _ _ _ _ _ (GetSession_run env id w doc Hdoc Hf)).
      simpl. destruct (decide (Status doc = StatusLive)); [done | contradiction]. }
  destruct Hw' as [Hw' Hres]. rewrite Hw'. done.
Qed.

Lemma GetMessages_loop_run (docs messages : list ChatMessage) (w : World) :
  storeReliable env ->
  fst (GetMessages_loop env docs messages w) = Ok (messages ++ docs).
Proof.
  intros Hnf. revert messages w. induction docs as [|doc rest IH]; intros messages w.
  - simpl. unfold bind, wrapErr, iterNext, ret. rewrite Hnf. simpl.
    by rewrite app_nil_r.
  - simpl. unfold bind, wrapErr, iterNext. rewrite Hnf.
    rewrite IH. by rewrite <- app_assoc.
Qed.

(** Without store failures [GetMessages] returns the first [limit]
    messages of the session in the order of the query. *)
Lemma GetMessages_run (sessionID : string) (limit : nat) (w : World) :
  storeReliable env ->
  fst (GetMessages env sessionID limit w)
  = Ok (take limit
          (sortBy message_le
             (List.filter (fun m => String.eqb (SessionID m) sessionID)
                (messageDocs w)))).
Proof.
  intros Hnf. unfold GetMessages, bind, queryMessages.
  by rewrite GetMessages_loop_run.
Qed.

(** The outcome of the pipeline once the session is loaded, is not live,
    the history is loaded and the engine has failed: the canned reply chosen
    by the incremented counter is returned, and the counter is stored if the
    store takes the write that follows the failure. *)
Lemma ProcessMessage_engine_failure (w w1 w2 w3 : World) (id content : string)
    (s : ChatSession) (msgs : list ChatMessage) (e : error) :
  GetSession env id w = (Ok s, w1) ->
  Status s <> StatusLive ->
  GetMessages env id 20 w1 = (Ok msgs, w2) ->
  ChatEngine_ProcessMessage ToLower env (chatEngine w2) content
    (toHistory msgs []) w2 = (Err e, w3) ->
  fst (ProcessMessage ToLower env id content w)
  = Ok (if 2 <=? wrap64 (FailedAttempts s + 1) then handoverOffer else retryPrompt)
  /\ (fault env (step w3) = false ->
      fieldIs FailedAttempts id (wrap64 (FailedAttempts s + 1))
        (sessionDocs (snd (ProcessMessage ToLower env id content w)))).
Proof.
  intros HGet Hlive HMsgs HEng.
  pose proof HGet as Hs. apply GetSession_Ok_inv in Hs as (doc & _ & Hs & _ & _).
  assert (Hid : ID s = id) by (by subst s).
  set (n := wrap64 (FailedAttempts s + 1)).
  set (J := fieldIs FailedAttempts id n).
  assert (HSave : forall msg, triple J (SaveMessage env msg) (fun _ => True)).
  { intros msg. apply (triple_SaveMessage env J (fieldAt FailedAttempts id n));
      [apply fieldIs_read | apply fieldIs_write | done]. }
  assert (HUpd : forall s', ID s' = id -> FailedAttempts s' = n ->
            triple J (UpdateSession env s') (fun _ => True)).
  { intros s' Hid' Hn. apply (triple_UpdateSession env J (fieldAt FailedAttempts id n));
      [apply fieldIs_write | done | by intros _]. }
  unfold ProcessMessage. mrun HGet.
  destruct (decide (Status s = StatusLive)); [contradiction|].
  mrun (wrapErr_run "failed to get history" _ _ _ _ HMsgs).
  assert (HE : getEngine w2 = (Ok (chatEngine w2), w2)) by done. mrun HE.
  mrun (attempt_run _ _ _ _ HEng). fold n.
  destruct (UpdateSession env (set_FailedAttempts s n) w3) as [ru w4] eqn:HU.
  rewrite (bind_run _ _ _ _ _
             (bind_run _ (fun _ => ret _) _ _ _ (attempt_run _ _ _ _ HU))).
  cbn beta iota zeta. cbn [fst snd].
  assert (HT : timeNow env w4 = (Ok (now env (step w4)), record EvNow w4)) by done.
  mrun HT.
  match goal with
  | |- context [attempt (SaveMessage env ?m)] =>
      destruct (SaveMessage env m (record EvNow w4)) as [rs w6] eqn:HS
  end.
  mrun (attempt_run _ _ _ _ HS).
  match goal with
  | |- context [attempt (UpdateSession env ?s')] =>
      destruct (UpdateSession env s' w6) as [ru' w7] eqn:HU'
  end.
  mrun (attempt_run _ _ _ _ HU').
  split; [done|]. intros Hf. simpl.
  rewrite (UpdateSession_run env _ w3 Hf) in HU. injection HU as _ <-.
  assert (HJ4 : J (sessionDocs (record EvNow
            (with_sessions (record (EvSetSession (ID (set_FailedAttempts s n))) w3)
               (<[ID (set_FailedAttempts s n) := set_ID (set_FailedAttempts s n) ""]>
                  (sessionDocs w3)))))).
  { simpl. rewrite Hid. exists (set_ID (set_FailedAttempts s n) "").
    by rewrite lookup_insert_eq. }
  eapply triple_run in HS as [HJ6 _]; [|apply HSave|exact HJ4].
  eapply triple_run in HU' as [HJ7 _]; [exact HJ7| |exact HJ6].
  by apply HUpd.
Qed.

(** The same when the engine has answered: its response is returned and the
    stored counter is the one that was loaded. *)
Lemma ProcessMessage_engine_success (w w1 w2 w3 : World) (id content : string)
    (s : ChatSession) (msgs : list ChatMessage) (response : ChatResponse) :
  GetSession env id w = (Ok s, w1) ->
  Status s <> StatusLive ->
  GetMessages env id 20 w1 = (Ok msgs, w2) ->
  ChatEngine_ProcessMessage ToLower env (chatEngine w2) content
    (toHistory msgs []) w2 = (Ok response, w3) ->
  fst (ProcessMessage ToLower env id content w) = Ok response
  /\ fieldIs FailedAttempts id (FailedAttempts s)
       (sessionDocs (snd (ProcessMessage ToLower env id content w))).
Proof.
  intros HGet Hlive HMsgs HEng.
  pose proof HGet as Hs.
  apply GetSession_Ok_inv in Hs as (doc & Hdoc & Hs & Hw1 & _).
  assert (Hid : ID s = id) by (by subst s).
  set (n := FailedAttempts s).
  set (J := fieldIs FailedAttempts id n).
  assert (HJ3 : J (sessionDocs w3)).
  { rewrite (readsOnly_run _ _ _ _
               (readsOnly_ChatEngine_ProcessMessage ToLower env _ _ _) HEng).
    rewrite (readsOnly_run _ _ _ _ (readsOnly_GetMessages env _ _) HMsgs).
    rewrite Hw1. simpl. exists doc. split; [done|]. by subst s. }
  unfold ProcessMessage. mrun HGet.
  destruct (decide (Status s = StatusLive)); [contradiction|].
  mrun (wrapErr_run "failed to get history" _ _ _ _ HMsgs).
  assert (HE : getEngine w2 = (Ok (chatEngine w2), w2)) by done. mrun HE.
  mrun (attempt_run _ _ _ _ HEng).
  assert (HR : ret (s, response) w3 = (Ok (s, response), w3)) by done. mrun HR.
  cbn [fst snd].
  assert (HT : timeNow env w3 = (Ok (now env (step w3)), record EvNow w3)) by done.
  mrun HT.
  match goal with
  | |- context [attempt (SaveMessage env ?m)] =>
      destruct (SaveMessage env m (record EvNow w3)) as [rs w6] eqn:HS
  end.
  mrun (attempt_run _ _ _ _ HS).
  match goal with
  | |- context [attempt (UpdateSession env ?s')] =>
      destruct (UpdateSession env s' w6) as [ru' w7] eqn:HU'
  end.
  mrun (attempt_run _ _ _ _ HU').
  split; [done|]. simpl.
  eapply triple_run in HS as [HJ6 _]; [| |exact HJ3].
  2:{ apply (triple_SaveMessage env J (fieldAt FailedAttempts id n));
        [apply fieldIs_read | apply fieldIs_write | done]. }
  eapply triple_run in HU' as [HJ7 _]; [exact HJ7| |exact HJ6].
  apply (triple_UpdateSession env J (fieldAt FailedAttempts id n));
    [apply fieldIs_write | done | by intros _].
Qed.

Lemma wrap64_in_range (z : Z) : in_int64 z -> wrap64 z = z.
Proof.
  unfold in_int64, min_int64, max_int64, wrap64. intros Hz.
  rewrite Z.mod_small by lia. lia.
Qed.

(** Without store failures the pipeline gets as far as the engine. *)
Lemma pipeline_loads (w : World) (id : string) (doc : ChatSession) :
  storeReliable env ->
  sessionDocs w !! id = Some doc ->
  exists (msgs : list ChatMessage) (w2 : World),
    GetSession env id w = (Ok (set_ID doc id), record (EvGetSession id) w)
    /\ GetMessages env id 20 (record (EvGetSession id) w) = (Ok msgs, w2)
    /\ sessionDocs w2 = sessionDocs w.
Proof.
  intros Hnf Hdoc.
  pose proof (GetMessages_run id 20 (record (EvGetSession id) w) Hnf) as Hm.
  pose proof (readsOnly_GetMessages env id 20 (record (EvGetSession id) w)) as Hr.
  destruct (GetMessages env id 20 (record (EvGetSession id) w)) as [r w2].
  simpl in Hm, Hr. subst r. eexists _, w2.
  split; [by apply GetSession_run | done].
Qed.

Lemma engine_fails_when_down (e0 : ChatEngine) (content : string)
    (history : list GroqMessage) (w : World) :
  transportDown env ->
  exists e : error,
    ChatEngine_ProcessMessage ToLower env e0 content history w
    = (Err e, record (EvChat (buildMessages ToLower e0 content history)) w).
Proof.
  intros Hdown. unfold ChatEngine_ProcessMessage, bind, wrapErr, groqChat.
  destruct (Hdown (step w) (buildMessages ToLower e0 content history)) as [e He].
  rewrite He. by eexists.
Qed.

(** One failing turn on a stored session that is not live, when the store
    answers and the transport is down. *)
Lemma ProcessMessage_outage_turn (w : World) (id content : string)
    (doc : ChatSession) :
  storeReliable env -> transportDown env ->
  sessionDocs w !! id = Some doc -> Status doc <> StatusLive ->
  fst (ProcessMessage ToLower env id content w)
  = Ok (if 2 <=? wrap64 (FailedAttempts doc + 1) then handoverOffer else retryPrompt)
  /\ exists doc' : ChatSession,
       sessionDocs (snd (ProcessMessage ToLower env id content w)) !! id = Some doc'
       /\ Status doc' = Status doc
       /\ FailedAttempts doc' = wrap64 (FailedAttempts doc + 1).
Proof.
  intros Hnf Hdown Hdoc Hlive.
  destruct (pipeline_loads w id doc Hnf Hdoc) as (msgs & w2 & HGet & HMsgs & _).
  destruct (engine_fails_when_down (chatEngine w2) content (toHistory msgs []) w2 Hdown)
    as [e HEng].
  destruct (ProcessMessage_engine_failure _ _ _ _ id content _ msgs e
              HGet Hlive HMsgs HEng) as [Hres Hstored].
  split; [exact Hres|].
  destruct (Hstored (Hnf _)) as (doc' & Hdoc' & Hn).
  exists doc'. split; [done|]. split; [|done].
  assert (HJ : fieldIs Status id (Status doc)
                 (sessionDocs (snd (ProcessMessage ToLower env id content w)))).
  { apply (triple_keeps _ _ (fun _ => True)); [|by exists doc].
    apply (triple_ProcessMessage ToLower env _ (fieldAt Status id (Status doc)));
      try done; [apply fieldIs_read | apply fieldIs_write]. }
  destruct HJ as (doc'' & Hdoc'' & Hst). congruence.
Qed.

(** C4. When the engine fails, the pipeline returns no error but a canned
    response chosen by the incremented counter: the handover offer, with
    [SuggestHandover = true], when the counter has reached 2, the retry
    prompt, with [SuggestHandover = false], otherwise; the counter is stored
    when the store takes the write. On a session whose counter is 0, with
    the transport down and the store answering, the first turn returns the
    retry prompt and the second the handover offer. *)
Theorem ai_failure_escalation :
  (forall (w w1 w2 w3 : World) (id content : string) (s : ChatSession)
          (msgs : list ChatMessage) (e : error),
     GetSession env id w = (Ok s, w1) ->
     Status s <> StatusLive ->
     GetMessages env id 20 w1 = (Ok msgs, w2) ->
     ChatEngine_ProcessMessage ToLower env (chatEngine w2) content
       (toHistory msgs []) w2 = (Err e, w3) ->
     let counter := wrap64 (FailedAttempts s + 1) in
     exists response : ChatResponse,
       fst (ProcessMessage ToLower env id content w) = Ok response
       /\ (2 <= counter -> response = handoverOffer)
       /\ (counter < 2 -> response = retryPrompt)
       /\ (in_int64 (FailedAttempts s + 1) -> counter = FailedAttempts s + 1)
       /\ (fault env (step w3) = false ->
           fieldIs FailedAttempts id counter
             (sessionDocs (snd (ProcessMessage ToLower env id content w)))))
  /\ (SuggestHandover handoverOffer = true
      /\ Reply handoverOffer
         = "Maaf, saya mengalami kesulitan. Mau saya hubungkan dengan admin kami?")
  /\ (SuggestHandover retryPrompt = false
      /\ Reply retryPrompt
         = "Maaf, ada sedikit gangguan. Bisa ulangi pertanyaan Anda?")
  /\ (storeReliable env -> transportDown env ->
      forall (w : World) (id first second : string) (doc : ChatSession),
        sessionDocs w !! id = Some doc ->
        Status doc <> StatusLive ->
        FailedAttempts doc = 0 ->
        let turn1 := ProcessMessage ToLower env id first w in
        let turn2 := ProcessMessage ToLower env id second (snd turn1) in
        fst turn1 = Ok retryPrompt /\ fst turn2 = Ok handoverOffer).
Proof.
  split; [|split; [done|split; [done|]]].
  - intros w w1 w2 w3 id content s msgs e HGet Hlive HMsgs HEng counter.
    destruct (ProcessMessage_engine_failure _ _ _ _ id content _ msgs e
                HGet Hlive HMsgs HEng) as [Hres Hstored].
    eexists. split; [exact Hres|]. fold counter.
    split; [|split; [|split]].
    + intros Hc. apply Z.leb_le in Hc. by rewrite Hc.
    + intros Hc. apply Z.leb_gt in Hc. by rewrite Hc.
    + apply wrap64_in_range.
    + exact Hstored.
  - intros Hnf Hdown w id first second doc Hdoc Hlive Hzero turn1 turn2.
    destruct (ProcessMessage_outage_turn w id first doc Hnf Hdown Hdoc Hlive)
      as (Hres1 & doc1 & Hdoc1 & Hst1 & Hn1).
    rewrite Hzero in Hres1, Hn1.
    split; [exact Hres1|].
    assert (Hlive1 : Status doc1 <> StatusLive) by (by rewrite Hst1).
    destruct (ProcessMessage_outage_turn (snd turn1) id second doc1
                Hnf Hdown Hdoc1 Hlive1) as (Hres2 & _).
    rewrite Hn1 in Hres2. exact Hres2.
Qed.

(** The system message saved at the end of a transition touches
    [lastMessageAt] only. *)
Lemma notify_keeps_counter (k : string) (n : Z) (msg : ChatMessage)
    (w w' : World) (r : Result unit) :
  fieldIs FailedAttempts k n (sessionDocs w) ->
  attempt (SaveMessage env msg) w = (Ok r, w') ->
  fieldIs FailedAttempts k n (sessionDocs w').
Proof.
  intros HJ Hrun.
  eapply (triple_run (fieldIs FailedAttempts k n)) in Hrun as [HJ' _]; [done| |done].
  apply triple_attempt.
  apply (triple_SaveMessage env _ (fieldAt FailedAttempts k n));
    [apply fieldIs_read | apply fieldIs_write | done].
Qed.

Lemma ReturnToBot_resets_counter (k : string) (w w' : World) (u : unit) :
  ReturnToBot env k w = (Ok u, w') -> fieldIs FailedAttempts k 0 (sessionDocs w').
Proof.
  unfold ReturnToBot. intros H.
  apply bind_Ok_inv in H as (s & w1 & HG & H).
  apply bind_Ok_inv in H as ([] & w2 & HU & H).
  apply bind_Ok_inv in H as (t & w3 & HT & H).
  apply bind_Ok_inv in H as (r & w4 & HS & H).
  injection H as _ <-. injection HT as _ <-.
  apply GetSession_Ok_inv in HG as (doc & _ & -> & -> & _).
  apply UpdateSession_Ok_inv in HU as [-> _].
  eapply notify_keeps_counter; [|exact HS].
  simpl. eexists. by rewrite lookup_insert_eq.
Qed.

(** C10. A turn in which the engine answers leaves the stored failure
    counter as it was loaded, and so do all operations other than
    [ProcessMessage] and [ReturnToBot]; [ReturnToBot] stores 0. Hence a
    failing turn on a session whose counter is at least 1 (and below the
    largest [int]) returns the handover offer, however many answered turns
    lie between it and the earlier failure. *)
Theorem failure_counter_not_reset_by_success :
  (forall (w w1 w2 w3 : World) (id content : string) (s : ChatSession)
          (msgs : list ChatMessage) (response : ChatResponse),
     GetSession env id w = (Ok s, w1) ->
     Status s <> StatusLive ->
     GetMessages env id 20 w1 = (Ok msgs, w2) ->
     ChatEngine_ProcessMessage ToLower env (chatEngine w2) content
       (toHistory msgs []) w2 = (Ok response, w3) ->
     fst (ProcessMessage ToLower env id content w) = Ok response
     /\ fieldIs FailedAttempts id (FailedAttempts s)
          (sessionDocs (snd (ProcessMessage ToLower env id content w))))
  /\ (forall (w w1 w2 w3 : World) (id content : string) (s : ChatSession)
             (msgs : list ChatMessage) (e : error),
        GetSession env id w = (Ok s, w1) ->
        Status s <> StatusLive ->
        GetMessages env id 20 w1 = (Ok msgs, w2) ->
        ChatEngine_ProcessMessage ToLower env (chatEngine w2) content
          (toHistory msgs []) w2 = (Err e, w3) ->
        1 <= FailedAttempts s < max_int64 ->
        fst (ProcessMessage ToLower env id content w) = Ok handoverOffer)
  /\ (forall (op : Operation) (w : World) (id : string) (n : Z),
        match op with
        | OpProcessMessage _ _ | OpReturnToBot _ => False
        | _ => True
        end ->
        fieldIs FailedAttempts id n (sessionDocs w) ->
        fieldIs FailedAttempts id n (sessionDocs (runOperation ToLower env op w)))
  /\ (forall (w w' : World) (id : string),
        ReturnToBot env id w = (Ok tt, w') ->
        fieldIs FailedAttempts id 0 (sessionDocs w')).
Proof.
  split; [|split; [|split]].
  - intros w w1 w2 w3 id content s msgs response HGet Hlive HMsgs HEng.
    by eapply ProcessMessage_engine_success.
  - intros w w1 w2 w3 id content s msgs e HGet Hlive HMsgs HEng Hn.
    destruct (ProcessMessage_engine_failure _ _ _ _ id content _ msgs e
                HGet Hlive HMsgs HEng) as [Hres _].
    rewrite Hres. rewrite wrap64_in_range.
    + destruct (Z.leb_spec 2 (FailedAttempts s + 1)); [done | lia].
    + unfold in_int64, min_int64, max_int64 in *. lia.
  - intros op w id n Hop HJ.
    destruct op as [v nm e p c l | k | k adminID adminName | k | k | k content | duration];
      try contradiction; simpl;
      apply (triple_keeps _ _ (fun _ => True)); try exact HJ.
    + apply (triple_CreateSession env _ (fun _ => True));
        [apply fieldIs_new | done].
    + apply (triple_RequestHandover env _ (fieldAt FailedAttempts id n));
        try done; [apply fieldIs_read | apply fieldIs_write].
    + apply (triple_ClaimSession env _ (fieldAt FailedAttempts id n));
        try done; [apply fieldIs_read | apply fieldIs_write].
    + apply (triple_CloseSession env _ (fieldAt FailedAttempts id n));
        try done; [apply fieldIs_read | apply fieldIs_write].
    + apply (triple_CleanupInactiveSessions env _ (fieldAt FailedAttempts id n));
        try done; [apply fieldIs_read | apply fieldIs_write].
  - intros w w' id. apply ReturnToBot_resets_counter.
Qed.

Lemma toHistory_app (messages : list ChatMessage) (history : list GroqMessage) :
  toHistory messages history = history ++ toHistory messages [].
Proof.
  revert history. induction messages as [|msg rest IH]; intros history; simpl.
  - by rewrite app_nil_r.
  - destruct (negb (String.eqb (Sender msg) "system")).
    + rewrite IH. rewrite (IH [_]). by rewrite <- app_assoc.
    + apply IH.
Qed.

(** The history keeps the order of the loaded messages, leaves out the
    [system] ones, and tags [bot] and [admin] as assistant, all others as
    user. *)
Lemma toHistory_spec (messages : list ChatMessage) :
  toHistory messages []
  = map (fun msg => mkGroqMessage (roleOf msg) (Content msg))
      (List.filter (fun msg => negb (String.eqb (Sender msg) "system")) messages).
Proof.
  induction messages as [|msg rest IH]; simpl; [done|].
  destruct (negb (String.eqb (Sender msg) "system")); [|exact IH].
  rewrite toHistory_app, IH. simpl. f_equal. f_equal. unfold roleOf.
  destruct (String.eqb_spec (Sender msg) "bot") as [Hb|Hb];
    destruct (String.eqb_spec (Sender msg) "admin") as [Ha|Ha]; simpl;
    rewrite ?bool_decide_eq_true_2, ?bool_decide_eq_false_2 by tauto; done.
Qed.

End Pipeline.

(* ===================================================================== *)
(** * The inactivity reaper *)
(* ===================================================================== *)

Section Reaper.

Variable env : Oracles.
Hypothesis Hnf : storeReliable env.

Lemma closeInactive_run (id : string) (doc : ChatSession) (w : World) :
  exists (t t' : Time) (mid : string),
    fst (closeInactive env id doc w) = Ok tt
    /\ sessionDocs (snd (closeInactive env id doc w))
       = <[id := reaped doc t t']> (sessionDocs w)
    /\ messageDocs (snd (closeInactive env id doc w))
       = messageDocs w
         ++ [mkChatMessage mid id "system"
               "Sesi chat telah berakhir otomatis karena tidak ada aktivitas selama 6 menit."
               t'].
Proof.
  cbv [closeInactive bind attempt UpdateSession SaveMessage wrapErr docSet
       addMessage docTouch timeNow ret].
  rewrite !Hnf.
  cbn [fst snd sessionDocs messageDocs with_sessions with_messages record ID
       set_ID set_Sentiment set_ClosedAt set_Status SessionID Timestamp].
  rewrite lookup_insert_eq.
  cbn [fst snd sessionDocs messageDocs with_sessions with_messages record].
  rewrite insert_insert_eq.
  eexists _, _, _. split; [done|]. split; reflexivity.
Qed.

Lemma Cleanup_loop_run (docs : list (string * ChatSession)) (w : World) :
  NoDup docs.*1 ->
  (forall k d, (k, d) ∈ docs -> sessionDocs w !! k = Some d) ->
  fst (Cleanup_loop env docs w) = Ok tt
  /\ (forall k, k ∉ docs.*1 ->
        sessionDocs (snd (Cleanup_loop env docs w)) !! k = sessionDocs w !! k)
  /\ (forall k d, (k, d) ∈ docs ->
        exists t t' : Time,
          sessionDocs (snd (Cleanup_loop env docs w)) !! k = Some (reaped d t t'))
  /\ exists notes : list ChatMessage,
       messageDocs (snd (Cleanup_loop env docs w)) = messageDocs w ++ notes
       /\ Forall2 (fun kd msg => reaperNote (fst kd) msg) docs notes.
Proof.
  revert w. induction docs as [|[k d] rest IH]; intros w Hnd Hdocs.
  - simpl. unfold iterNext. rewrite Hnf. simpl.
    split; [done|]. split; [done|]. split.
    + intros k d Hin. by apply elem_of_nil in Hin.
    + exists []. by rewrite app_nil_r.
  - apply NoDup_cons in Hnd as [Hk Hnd]. cbn [Cleanup_loop fst snd].
    assert (HN : iterNext env w = (Ok tt, record EvNext w)).
    { unfold iterNext. by rewrite Hnf. }
    mrun HN.
    destruct (closeInactive_run k d (record EvNext w)) as (t & t' & mid & Hr & Hs & Hm).
    destruct (closeInactive env k d (record EvNext w)) as [r w1] eqn:Hc.
    simpl in Hr, Hs, Hm. subst r. mrun Hc.
    destruct (IH w1 Hnd) as (Hres & Hother & Hclosed & notes & Hnotes & HF).
    { intros k' d' Hin. rewrite Hs. rewrite lookup_insert_ne.
      - apply Hdocs. by right.
      - intros ->. apply Hk. apply list_elem_of_fmap. by exists (k', d'). }
    split; [exact Hres|]. split; [|split].
    + intros k' Hk'. apply not_elem_of_cons in Hk' as [Hne Hk'].
      rewrite Hother by done. rewrite Hs. by rewrite lookup_insert_ne.
    + intros k' d' Hin. apply elem_of_cons in Hin as [[= -> ->] | Hin].
      * exists t, t'. rewrite Hother by done. rewrite Hs.
        by rewrite lookup_insert_eq.
      * by apply Hclosed.
    + eexists (_ :: notes). split.
      * rewrite Hnotes, Hm. by rewrite <- app_assoc.
      * constructor; [done | exact HF].
Qed.

(** The documents yielded by the query of the reaper. *)
Lemma queryInactive_docs (cutoff : Time) (w : World) :
  exists docs : list (string * ChatSession),
    queryInactive cutoff w = (Ok docs, record (EvQueryInactive cutoff) w)
    /\ NoDup docs.*1
    /\ forall k d,
         (k, d) ∈ docs
         <-> sessionDocs w !! k = Some d
             /\ activeStatus d = true /\ LastMessageAt d < cutoff.
Proof.
  eexists. split; [reflexivity|]. split.
  - rewrite sortBy_perm.
    apply (sublist_NoDup _ (map_to_list (sessionDocs w)).*1);
      [apply NoDup_fst_map_to_list|].
    apply fmap_sublist. clear.
    induction (map_to_list (sessionDocs w)) as [|x l IH]; simpl; [done|].
    destruct (activeStatus x.2 && (LastMessageAt x.2 <? cutoff));
      by constructor.
  - intros k d. rewrite sortBy_perm, list_elem_of_In, filter_In.
    rewrite <- list_elem_of_In, elem_of_map_to_list. simpl.
    rewrite andb_true_iff, Z.ltb_lt. tauto.
Qed.

Lemma activeStatus_spec (d : ChatSession) :
  activeStatus d = true
  <-> Status d = StatusBot \/ Status d = StatusQueued \/ Status d = StatusLive.
Proof.
  unfold activeStatus. rewrite bool_decide_eq_true.
  rewrite !elem_of_cons, elem_of_nil. tauto.
Qed.

(** C8. With the store answering, a sweep of the reaper at time [sweepTime]
    for the cutoff duration [D] closes exactly the overdue sessions: a
    stored session with status [bot], [queued] or [live] and
    [lastMessageAt < sweepTime - D] is stored as [closed], with [closedAt]
    set and sentiment ["timeout"], and one system message is appended for
    it; every other stored session is left as it was, no session is
    created, and no other message is appended. In particular a session last
    touched at T is closed by a sweep at T + D + eps, and one last touched
    at T + D - eps is not, for 0 < eps and 2 eps <= D. *)
Theorem reaper_closes_exactly_overdue (w : World) (D : Duration) :
  min_int64 < D <= max_int64 ->
  let sweepTime := now env (step w) in
  let w' := snd (CleanupInactiveSessions env D w) in
  fst (CleanupInactiveSessions env D w) = Ok tt
  /\ (forall id doc,
        sessionDocs w !! id = Some doc -> overdue sweepTime D doc ->
        exists (doc' : ChatSession) (closedAt : Time),
          sessionDocs w' !! id = Some doc'
          /\ Status doc' = StatusClosed /\ ClosedAt doc' = Some closedAt
          /\ Sentiment doc' = "timeout"
          /\ exists touched : Time, doc' = reaped doc closedAt touched)
  /\ (forall id doc,
        sessionDocs w !! id = Some doc -> ~ overdue sweepTime D doc ->
        sessionDocs w' !! id = Some doc)
  /\ (forall id, sessionDocs w !! id = None -> sessionDocs w' !! id = None)
  /\ (exists notes : list ChatMessage,
        messageDocs w' = messageDocs w ++ notes
        /\ (forall id doc,
              sessionDocs w !! id = Some doc -> overdue sweepTime D doc ->
              exists msg, msg ∈ notes /\ reaperNote id msg)
        /\ (forall msg, msg ∈ notes ->
              exists doc, sessionDocs w !! SessionID msg = Some doc
                          /\ overdue sweepTime D doc
                          /\ reaperNote (SessionID msg) msg))
  /\ (forall (T eps : Z) id doc,
        0 < eps -> sweepTime = T + D + eps ->
        sessionDocs w !! id = Some doc ->
        (Status doc <> StatusClosed -> LastMessageAt doc = T ->
         storedStatus w' id = Some StatusClosed)
        /\ (2 * eps <= D -> LastMessageAt doc = T + D - eps ->
            sessionDocs w' !! id = Some doc)).
Proof.
  intros HD sweepTime w'.
  assert (Hneg : wrap64 (- D) = - D).
  { apply wrap64_in_range. unfold in_int64, min_int64, max_int64 in *. lia. }
  destruct (queryInactive_docs (sweepTime - D) (record EvNow w))
    as (docs & Hq & Hnd & Hdocs).
  assert (Hrun : CleanupInactiveSessions env D w
                 = Cleanup_loop env docs
                     (record (EvQueryInactive (sweepTime - D)) (record EvNow w))).
  { unfold CleanupInactiveSessions.
    assert (HT : timeNow env w = (Ok sweepTime, record EvNow w)) by done.
    mrun HT. rewrite Hneg. replace (sweepTime + - D) with (sweepTime - D) by lia.
    by mrun Hq. }
  assert (Hin : forall k d, (k, d) ∈ docs
                <-> sessionDocs w !! k = Some d /\ overdue sweepTime D d).
  { intros k d. rewrite Hdocs. unfold overdue. rewrite activeStatus_spec.
    simpl. tauto. }
  destruct (Cleanup_loop_run docs
              (record (EvQueryInactive (sweepTime - D)) (record EvNow w)) Hnd)
    as (Hres & Hother & Hclosed & notes & Hnotes & HF).
  { intros k d Hkd. by apply Hin in Hkd as [Hkd _]. }
  subst w'. rewrite Hrun. simpl in Hother, Hnotes.
  assert (Hkeep : forall id doc, sessionDocs w !! id = Some doc ->
            ~ overdue sweepTime D doc ->
            sessionDocs (snd (Cleanup_loop env docs
               (record (EvQueryInactive (sweepTime - D)) (record EvNow w)))) !! id
            = Some doc).
  { intros id doc Hdoc Hno. rewrite Hother; [done|].
    intros Hid. apply list_elem_of_fmap in Hid as ([k d] & -> & Hkd).
    apply Hin in Hkd as [Hkd Hov]. simpl in Hdoc. congruence. }
  assert (Hclose : forall id doc, sessionDocs w !! id = Some doc ->
            overdue sweepTime D doc ->
            exists closedAt touched : Time,
              sessionDocs (snd (Cleanup_loop env docs
                 (record (EvQueryInactive (sweepTime - D)) (record EvNow w)))) !! id
              = Some (reaped doc closedAt touched)).
  { intros id doc Hdoc Hov. apply Hclosed. by apply Hin. }
  split; [exact Hres|]. split; [|split; [exact Hkeep|split; [|split]]].
  - intros id doc Hdoc Hov.
    destruct (Hclose id doc Hdoc Hov) as (t & t' & Hl).
    exists (reaped doc t t'), t. split; [exact Hl|].
    split; [done|]. split; [done|]. split; [done|]. by exists t'.
  - intros id Hnone. rewrite Hother; [done|].
    intros Hid. apply list_elem_of_fmap in Hid as ([k d] & -> & Hkd).
    apply Hin in Hkd as [Hkd _]. simpl in Hnone. congruence.
  - exists notes. split; [exact Hnotes|]. split.
    + intros id doc Hdoc Hov.
      assert (Hkd : (id, doc) ∈ docs) by (by apply Hin).
      apply list_elem_of_lookup in Hkd as [i Hi].
      destruct (Forall2_lookup_l _ _ _ _ _ HF Hi) as (msg & Hmsg & Hnote).
      exists msg. split; [|exact Hnote]. apply list_elem_of_lookup. by exists i.
    + intros msg Hmsg. apply list_elem_of_lookup in Hmsg as [i Hi].
      destruct (Forall2_lookup_r _ _ _ _ _ HF Hi) as ([k d] & Hkd & Hnote).
      assert (Hk : SessionID msg = k) by apply Hnote.
      apply list_elem_of_lookup_2, Hin in Hkd as [Hkd Hov].
      exists d. rewrite Hk. done.
  - intros T eps id doc Heps Hsweep Hdoc. split.
    + intros Hopen HT.
      destruct (Hclose id doc Hdoc) as (t & t' & Hl).
      { split; [destruct (Status doc); tauto | lia]. }
      unfold storedStatus. by rewrite Hl.
    + intros Heps2 HT. apply Hkeep; [done|]. intros [_ Hlt]. lia.
Qed.

End Reaper.

(* ===================================================================== *)
(** * Worked examples *)
(* ===================================================================== *)

(** C3 (the code on a long conversation). For a session with 21 messages
    [GetMessages] with limit 20 returns the 20 oldest ones, which are not
    the 20 most recent ones: the history built by the pipeline starts at
    "pesan 1" and lacks "pesan 21", and the request sent to the transport
    carries "pesan 11" to "pesan 20" between the prompt and the new
    message. *)
Theorem history_is_the_oldest_twenty :
  let stored := map visitorMessage (seq 1 21) in
  messageDocs worldLongChat = stored
  /\ fst (GetMessages reliableEnv "doc2" 20 worldLongChat) = Ok (take 20 stored)
  /\ take 20 stored <> drop 1 stored
  /\ map (map gContent)
       (chatRequests
          (events (snd (ProcessMessage asciiLower reliableEnv "doc2" "halo"
                          worldLongChat))))
     = [ "Kamu adalah asisten virtual."
         :: map (fun n => "pesan " +:+ pretty n) (seq 11 10) ++ ["halo"] ].
Proof.
  vm_compute. repeat split. intros H. discriminate H.
Qed.

Lemma reliableEnv_store : storeReliable reliableEnv.
Proof. intros k. reflexivity. Qed.

Lemma outageEnv_store : storeReliable outageEnv.
Proof. intros k. reflexivity. Qed.

Lemma outageEnv_down : transportDown outageEnv.
Proof. intros k messages. by eexists. Qed.

(** C1, as the specification words it, fails when a live session is
    closed: the agent stays assigned. *)
Lemma close_keeps_assigned_admin :
  (forall id s, sessionDocs worldClaimed !! id = Some s -> adminIffLive s)
  /\ ~ (forall id s,
          sessionDocs
            (runOperation asciiLower reliableEnv (OpCloseSession "doc2") worldClaimed)
            !! id = Some s ->
          adminIffLive s).
Proof.
  split.
  - apply map_Forall_by_list. vm_compute.
    constructor; [|constructor]. split; [done | intros _; discriminate].
  - intros H. pose proof (H "doc2") as H2. vm_compute in H2.
    destruct (H2 _ eq_refl) as [Hc _].
    assert (Habs : StatusClosed = StatusLive) by (apply Hc; discriminate).
    discriminate Habs.
Qed.

(** C1 (amended) on a claim and on a return to the bot: the session created
    in the hands of the bot with no agent is stored as [live] with the agent
    "admin-1" after [ClaimSession], and as [bot] with no agent after
    [ReturnToBot]; the invariant holds before and after each. *)
Lemma operations_keep_admin_consistent_example :
  let claim := OpClaimSession "doc2" "admin-1" "Sari" in
  let back := OpReturnToBot "doc2" in
  let claimed := runOperation asciiLower reliableEnv claim worldCreated in
  let returned := runOperation asciiLower reliableEnv back claimed in
  namesAgent claim
  /\ (forall id s, sessionDocs worldCreated !! id = Some s -> adminConsistent s)
  /\ (fieldIs Status "doc2" StatusBot (sessionDocs worldCreated)
      /\ fieldIs AssignedAdmin "doc2" "" (sessionDocs worldCreated))
  /\ (forall id s, sessionDocs claimed !! id = Some s -> adminConsistent s)
  /\ (fieldIs Status "doc2" StatusLive (sessionDocs claimed)
      /\ fieldIs AssignedAdmin "doc2" "admin-1" (sessionDocs claimed))
  /\ (forall id s, sessionDocs returned !! id = Some s -> adminConsistent s)
  /\ (fieldIs Status "doc2" StatusBot (sessionDocs returned)
      /\ fieldIs AssignedAdmin "doc2" "" (sessionDocs returned)).
Proof.
  intros claim back claimed returned.
  assert (Hagent : namesAgent claim) by (simpl; discriminate).
  assert (H0 : forall id s,
             sessionDocs worldCreated !! id = Some s -> adminConsistent s).
  { apply map_Forall_by_list. vm_compute.
    constructor; [|constructor]. split; [done | intros Hl; discriminate Hl]. }
  pose proof (operations_keep_admin_consistent asciiLower reliableEnv
                claim worldCreated Hagent H0) as H1.
  pose proof (operations_keep_admin_consistent asciiLower reliableEnv
                back claimed I H1) as H2.
  split; [exact Hagent|]. split; [exact H0|].
  split; [split; eexists; split; vm_compute; reflexivity|].
  split; [exact H1|].
  split; [split; eexists; split; vm_compute; reflexivity|].
  split; [exact H2|].
  split; eexists; split; vm_compute; reflexivity.
Defined.

(** C2, as the specification words it, fails on [RequestHandover]: a closed
    session is stored as queued again. *)
Lemma handover_reopens_closed_session :
  storedStatus worldClosed "doc2" = Some StatusClosed
  /\ storedStatus (snd (RequestHandover reliableEnv "doc2" worldClosed)) "doc2"
     = Some StatusQueued.
Proof. split; vm_compute; reflexivity. Qed.

Lemma closed_is_kept_example :
  storedStatus worldClosed "doc2" = Some StatusClosed
  /\ storedStatus
       (snd (ProcessMessage asciiLower reliableEnv "doc2" "halo" worldClosed)) "doc2"
     = Some StatusClosed
  /\ storedStatus (snd (CleanupInactiveSessions reliableEnv 1 worldClosed)) "doc2"
     = Some StatusClosed.
Proof.
  assert (H : storedStatus worldClosed "doc2" = Some StatusClosed)
    by (vm_compute; reflexivity).
  pose proof (closed_is_kept_by_pipeline_and_reaper_only asciiLower reliableEnv
                worldClosed "doc2" H) as (Hp & Hc & _).
  split; [exact H|]. split; [apply Hp | apply Hc].
Defined.

Lemma ProcessMessage_live_example :
  storedStatus worldClaimed "doc2" = Some StatusLive
  /\ ProcessMessage asciiLower reliableEnv "doc2" "halo" worldClaimed
     = (Ok liveNoOp, record (EvGetSession "doc2") worldClaimed).
Proof.
  assert (H : storedStatus worldClaimed "doc2" = Some StatusLive)
    by (vm_compute; reflexivity).
  destruct (ProcessMessage_live_short_circuit asciiLower reliableEnv
              worldClaimed "doc2" "halo" H) as (Hw & _ & _ & _ & Hr & _).
  split; [exact H|]. specialize (Hr eq_refl).
  destruct (ProcessMessage asciiLower reliableEnv "doc2" "halo" worldClaimed).
  simpl in Hw, Hr. by subst.
Defined.

Lemma ai_failure_escalation_example :
  let turn1 := ProcessMessage asciiLower outageEnv "doc2" "halo" worldCreated in
  let turn2 := ProcessMessage asciiLower outageEnv "doc2" "halo lagi" (snd turn1) in
  fst turn1 = Ok retryPrompt /\ fst turn2 = Ok handoverOffer.
Proof.
  destruct (ai_failure_escalation asciiLower outageEnv) as (_ & _ & _ & H).
  eapply (H outageEnv_store outageEnv_down worldCreated "doc2").
  - vm_compute. reflexivity.
  - simpl. discriminate.
  - reflexivity.
Defined.

Lemma analyzeSentiment_example :
  occursIn "kesel" (asciiLower "Saya KESEL sekali")
  /\ analyzeSentiment asciiLower "Saya KESEL sekali" = "frustrated".
Proof.
  assert (H : occursIn "kesel" (asciiLower "Saya KESEL sekali")).
  { apply (occursIn_asciiLower "KESEL"). exists "Saya ", " sekali". reflexivity. }
  split; [exact H|].
  exact (proj1 (analyzeSentiment_classification asciiLower "Saya KESEL sekali") H).
Defined.

Lemma findRelevantKnowledge_example :
  map Topic
    (findRelevantKnowledge asciiLower exampleEngine "Syarat PT, ISO, merek dan NIB?")
  = ["Pendirian PT"; "ISO"; "HAKI"]
  /\ (length
        (findRelevantKnowledge asciiLower exampleEngine "Syarat PT, ISO, merek dan NIB?")
      <= 3)%nat.
Proof.
  split; [vm_compute; reflexivity|].
  exact (proj1 (findRelevantKnowledge_first_three asciiLower exampleEngine
                  "Syarat PT, ISO, merek dan NIB?")).
Defined.

Lemma reaper_example :
  min_int64 < 2 <= max_int64
  /\ now reliableEnv (step worldCreated) = 3
  /\ LastMessageAt <$> sessionDocs worldCreated !! "doc2" = Some 0
  /\ storedStatus (snd (CleanupInactiveSessions reliableEnv 2 worldCreated)) "doc2"
     = Some StatusClosed
  /\ sessionDocs (snd (CleanupInactiveSessions reliableEnv 3 worldCreated)) !! "doc2"
     = sessionDocs worldCreated !! "doc2".
Proof.
  assert (H2 : min_int64 < 2 <= max_int64) by (vm_compute; split; [done | discriminate]).
  assert (H3 : min_int64 < 3 <= max_int64) by (vm_compute; split; [done | discriminate]).
  split; [exact H2|]. split; [reflexivity|]. split; [vm_compute; reflexivity|].
  destruct (reaper_closes_exactly_overdue reliableEnv reliableEnv_store
              worldCreated 2 H2) as (_ & Hclose & _).
  destruct (reaper_closes_exactly_overdue reliableEnv reliableEnv_store
              worldCreated 3 H3) as (_ & _ & Hkeep & _).
  split.
  - edestruct (Hclose "doc2") as (doc' & t & Hl & Hst & _).
    + vm_compute. reflexivity.
    + split; [by left | vm_compute; reflexivity].
    + unfold storedStatus. rewrite Hl. simpl. by rewrite Hst.
  - destruct (sessionDocs worldCreated !! "doc2") as [doc|] eqn:Hdoc;
      [|vm_compute in Hdoc; discriminate Hdoc].
    apply Hkeep; [exact Hdoc|]. intros [_ Hlt].
    vm_compute in Hdoc. injection Hdoc as <-. vm_compute in Hlt. discriminate Hlt.
Defined.

Lemma presence_registry_example :
  adminStatus worldEmpty = ∅
  /\ fst (IsAnyAdminOnline
            (snd (UpdateAdminStatus reliableEnv "admin-1" "Sari" "offline"
                    (snd (UpdateAdminStatus reliableEnv "admin-1" "Sari" "online"
                            worldEmpty)))))
     = Ok false.
Proof.
  split; [reflexivity|].
  destruct (presence_registry_reports reliableEnv worldEmpty "admin-1" "Sari" "online")
    as (_ & _ & _ & H).
  exact (H eq_refl).
Defined.

Lemma selectiveEnv_store : storeReliable selectiveEnv.
Proof. intros k. reflexivity. Qed.

(** A failing turn, an answered turn, and a failing turn again: the third
    response is the handover offer. *)
Lemma failure_counter_example :
  let turn1 := ProcessMessage asciiLower selectiveEnv "doc2" "ping" worldCreated in
  let turn2 := ProcessMessage asciiLower selectiveEnv "doc2" "halo" (snd turn1) in
  let turn3 := ProcessMessage asciiLower selectiveEnv "doc2" "ping" (snd turn2) in
  fst turn1 = Ok retryPrompt
  /\ (Reply <$> (match fst turn2 with Ok r => Some r | Err _ => None end))
     = Some "Baik, kami bantu."
  /\ fst turn3 = Ok handoverOffer.
Proof.
  intros turn1 turn2 turn3.
  split; [vm_compute; reflexivity|]. split; [vm_compute; reflexivity|].
  destruct (failure_counter_not_reset_by_success asciiLower selectiveEnv)
    as (_ & H & _).
  destruct (pipeline_loads selectiveEnv (snd turn2) "doc2"
              (set_Sentiment
                 (mkChatSession "" "visitor-1" "Ani" "ani@example.com" "0812"
                    StatusBot "" "/layanan" "" "neutral" 1 0 1 "Jakarta" None)
                 "neutral")
              selectiveEnv_store)
    as (msgs & w2 & HGet & HMsgs & _).
  { vm_compute. reflexivity. }
  destruct (ChatEngine_ProcessMessage asciiLower selectiveEnv (chatEngine w2) "ping"
              (toHistory msgs []) w2) as [[r|e] w3] eqn:HEng.
  - exfalso. revert HEng.
    unfold ChatEngine_ProcessMessage, bind, wrapErr, groqChat, selectiveEnv.
    cbn [chat]. unfold buildMessages. rewrite last_snoc. simpl. discriminate.
  - eapply (H _ _ _ _ "doc2" "ping" _ _ _ HGet); [simpl; discriminate | exact HMsgs
      | exact HEng | simpl; vm_compute; split; [discriminate | reflexivity] ].
Defined.

(* ===================================================================== *)
(** * Properties of package [utils] *)
(* ===================================================================== *)

Lemma append_cons (c : ascii) (s t : string) :
  String c s +:+ t = String c (s +:+ t).
Proof. reflexivity. Qed.

Lemma append_nil (t : string) : EmptyString +:+ t = t.
Proof. reflexivity. Qed.

Lemma removeNonDigits_onlyDigits (s : string) :
  onlyDigits (removeNonDigits s) = true.
Proof.
  induction s as [|c t IH]; simpl; [done|].
  destruct (isDigit c) eqn:Hc; simpl; [by rewrite Hc | done].
Qed.

Lemma removeNonDigits_fixed (s : string) :
  onlyDigits s = true -> removeNonDigits s = s.
Proof.
  induction s as [|c t IH]; simpl; [done|].
  intros [Hc Ht]%andb_true_iff. rewrite Hc. by rewrite IH.
Qed.

Lemma onlyDigits_append (a b : string) :
  onlyDigits (a +:+ b) = (onlyDigits a && onlyDigits b)%bool.
Proof. induction a as [|c t IH]; simpl; [done|]. by rewrite IH, andb_assoc. Qed.

Lemma removeNonDigits_append (a b : string) :
  removeNonDigits (a +:+ b) = removeNonDigits a +:+ removeNonDigits b.
Proof.
  induction a as [|c t IH]; simpl; [done|].
  destruct (isDigit c); simpl; by rewrite IH.
Qed.

(** What [FormatPhoneNumber] does to a string of digits, by its first
    byte. *)
Lemma FormatPhoneNumber_digits (d : string) :
  onlyDigits d = true ->
  FormatPhoneNumber d
  = match d with
    | String c t =>
        if Ascii.eqb c "0" then "62" +:+ t
        else if Ascii.eqb c "8" then "62" +:+ d
        else d
    | EmptyString => EmptyString
    end.
Proof.
  intros Hd. unfold FormatPhoneNumber. rewrite (removeNonDigits_fixed d Hd).
  destruct d as [|c t]; [done|]. cbn -[Ascii.eqb].
  rewrite !andb_true_r, (Ascii.eqb_sym "0" c).
  destruct (Ascii.eqb c "0") eqn:H0.
  - reflexivity.
  - cbn -[Ascii.eqb]. rewrite andb_true_r, (Ascii.eqb_sym "8" c).
    by destruct (Ascii.eqb c "8").
Qed.

Lemma FormatPhoneNumber_normal (number : string) :
  onlyDigits (FormatPhoneNumber number) = true
  /\ HasPrefix (FormatPhoneNumber number) "0" = false
  /\ HasPrefix (FormatPhoneNumber number) "8" = false.
Proof.
  unfold FormatPhoneNumber.
  pose proof (removeNonDigits_onlyDigits number) as Hd.
  destruct (removeNonDigits number) as [|c t]; [done|].
  simpl in Hd. apply andb_true_iff in Hd as [Hc Ht]. cbn -[Ascii.eqb].
  rewrite !andb_true_r.
  destruct (Ascii.eqb "0" c) eqn:H0.
  - rewrite !append_cons, !append_nil. cbn. by rewrite Ht.
  - cbn -[Ascii.eqb]. rewrite andb_true_r.
    destruct (Ascii.eqb "8" c) eqn:H8.
    + apply Ascii.eqb_eq in H8. subst c.
      rewrite !append_cons, !append_nil. cbn. by rewrite Ht.
    + cbn -[Ascii.eqb]. by rewrite Hc, Ht, H0, H8.
Qed.

Lemma HasPrefix_one (s : string) (c : ascii) :
  HasPrefix s (String c EmptyString) = false ->
  match s with String d _ => d <> c | EmptyString => True end.
Proof.
  destruct s as [|d t]; [done|]. simpl. rewrite andb_true_r.
  intros H ->. by rewrite Ascii.eqb_refl in H.
Qed.

Lemma FormatPhoneNumber_fixed (number : string) :
  FormatPhoneNumber (FormatPhoneNumber number) = FormatPhoneNumber number.
Proof.
  destruct (FormatPhoneNumber_normal number) as (Hd & H0 & H8).
  rewrite (FormatPhoneNumber_digits _ Hd).
  apply HasPrefix_one in H0, H8.
  destruct (FormatPhoneNumber number) as [|c t]; [done|].
  destruct (Ascii.eqb_spec c "0"); [done|].
  by destruct (Ascii.eqb_spec c "8").
Qed.

(** X1. [FormatPhoneNumber] returns a string of ASCII digits that
    begins neither with 0 nor with 8, and formatting a formatted number
    changes nothing. *)
Theorem FormatPhoneNumber_idempotent (number : string) :
  onlyDigits (FormatPhoneNumber number) = true
  /\ HasPrefix (FormatPhoneNumber number) "0" = false
  /\ HasPrefix (FormatPhoneNumber number) "8" = false
  /\ FormatPhoneNumber (FormatPhoneNumber number) = FormatPhoneNumber number.
Proof.
  destruct (FormatPhoneNumber_normal number) as (Hd & H0 & H8).
  split; [done|]. split; [done|]. split; [done|].
  apply FormatPhoneNumber_fixed.
Qed.

(** X2. Only the digits of the input count, and the local forms
    08..., 8... and the international form 628... of one number are
    formatted alike, to 628.... *)
Theorem FormatPhoneNumber_notations (number rest : string) :
  FormatPhoneNumber number = FormatPhoneNumber (removeNonDigits number)
  /\ (onlyDigits rest = true ->
      FormatPhoneNumber ("08" +:+ rest) = "628" +:+ rest
      /\ FormatPhoneNumber ("8" +:+ rest) = "628" +:+ rest
      /\ FormatPhoneNumber ("628" +:+ rest) = "628" +:+ rest
      /\ FormatPhoneNumber ("+62 8" +:+ rest) = "628" +:+ rest).
Proof.
  split.
  - unfold FormatPhoneNumber.
    by rewrite (removeNonDigits_fixed _ (removeNonDigits_onlyDigits number)).
  - intros Hr. rewrite !append_cons, !append_nil. repeat split.
    + rewrite FormatPhoneNumber_digits; [done | cbn; by rewrite Hr].
    + rewrite FormatPhoneNumber_digits; [done | cbn; by rewrite Hr].
    + rewrite FormatPhoneNumber_digits; [done | cbn; by rewrite Hr].
    + unfold FormatPhoneNumber. cbn. by rewrite (removeNonDigits_fixed rest Hr).
Qed.

(** X3. Formatting the display form of a number gives the formatted
    number back; the display form of a display form is itself; and a
    display form never begins with 62. *)
Theorem FormatPhoneForDisplay_round_trip (number : string) :
  FormatPhoneNumber (FormatPhoneForDisplay number) = FormatPhoneNumber number
  /\ FormatPhoneForDisplay (FormatPhoneForDisplay number)
     = FormatPhoneForDisplay number
  /\ HasPrefix (FormatPhoneForDisplay number) "62" = false.
Proof.
  assert (Hback : FormatPhoneNumber (FormatPhoneForDisplay number)
                  = FormatPhoneNumber number).
  { unfold FormatPhoneForDisplay.
    destruct (FormatPhoneNumber_normal number) as (Hd & _ & _).
    pose proof (FormatPhoneNumber_fixed number) as Hidem.
    destruct (HasPrefix (FormatPhoneNumber number) "62") eqn:H62; [|exact Hidem].
    destruct (FormatPhoneNumber number) as [|c [|c' t]]; [discriminate H62| |].
    { cbn -[Ascii.eqb] in H62. rewrite andb_false_r in H62. discriminate H62. }
    cbn -[Ascii.eqb] in H62. rewrite andb_true_r in H62.
    apply andb_true_iff in H62 as [H6 H2].
    apply Ascii.eqb_eq in H6, H2. subst c c'.
    rewrite !append_cons, !append_nil. cbn [sliceFrom].
    cbn in Hd. rewrite FormatPhoneNumber_digits; [done | cbn; exact Hd]. }
  split; [exact Hback|]. split.
  - unfold FormatPhoneForDisplay at 1. rewrite Hback. reflexivity.
  - unfold FormatPhoneForDisplay.
    destruct (HasPrefix (FormatPhoneNumber number) "62") eqn:H62; [done | exact H62].
Qed.

(** The second pass of [NormalizeNewlines] maps every CR to LF. *)
Lemma ReplaceAll_CR (s : string) :
  ReplaceAll s (String CR EmptyString) (String LF EmptyString)
  = match s with
    | EmptyString => EmptyString
    | String c t =>
        String (if Ascii.eqb c CR then LF else c)
          (ReplaceAll t (String CR EmptyString) (String LF EmptyString))
    end.
Proof.
  destruct s as [|c t]; [done|]. unfold ReplaceAll. cbn -[Ascii.eqb CR LF].
  rewrite andb_true_r, (Ascii.eqb_sym CR c). by destruct (Ascii.eqb c CR).
Qed.

(** The first pass, by the first two bytes. *)
Lemma ReplaceAll_CRLF (s : string) :
  ReplaceAll s (String CR (String LF EmptyString)) (String LF EmptyString)
  = match s with
    | EmptyString => EmptyString
    | String c t =>
        match t with
        | String d t' =>
            if (Ascii.eqb c CR && Ascii.eqb d LF)%bool
            then String LF
                   (ReplaceAll t' (String CR (String LF EmptyString))
                      (String LF EmptyString))
            else String c
                   (ReplaceAll t (String CR (String LF EmptyString))
                      (String LF EmptyString))
        | EmptyString => String c EmptyString
        end
    end.
Proof.
  destruct s as [|c [|d t']]; [done| |]; unfold ReplaceAll; cbn -[Ascii.eqb CR LF].
  - by rewrite andb_false_r.
  - rewrite andb_true_r, (Ascii.eqb_sym CR c), (Ascii.eqb_sym LF d).
    by destruct (Ascii.eqb c CR && Ascii.eqb d LF)%bool.
Qed.

Lemma unifyNewlines_cons (c : ascii) (t : string) :
  unifyNewlines (String c t)
  = if Ascii.eqb c CR
    then String LF
           match t with
           | String d t' =>
               if Ascii.eqb d LF then unifyNewlines t' else unifyNewlines t
           | EmptyString => EmptyString
           end
    else String c (unifyNewlines t).
Proof. reflexivity. Qed.

Lemma freeOf_cons (c d : ascii) (t : string) :
  freeOf c (String d t) = (negb (Ascii.eqb d c) && freeOf c t)%bool.
Proof. reflexivity. Qed.

Lemma NormalizeNewlines_unify_aux (s : string) :
  NormalizeNewlines s = unifyNewlines s
  /\ forall c : ascii, NormalizeNewlines (String c s) = unifyNewlines (String c s).
Proof.
  unfold NormalizeNewlines. induction s as [|d t [IH1 IH2]].
  - split; [done|]. intros c.
    rewrite ReplaceAll_CRLF, ReplaceAll_CR, unifyNewlines_cons.
    by destruct (Ascii.eqb c CR).
  - split; [apply IH2|]. intros c.
    rewrite ReplaceAll_CRLF, (unifyNewlines_cons c).
    destruct (Ascii.eqb c CR) eqn:Hc.
    + destruct (Ascii.eqb d LF) eqn:Hd.
      * rewrite andb_true_l, ReplaceAll_CR.
        replace (Ascii.eqb LF CR) with false by reflexivity.
        by rewrite IH1.
      * rewrite andb_false_r, ReplaceAll_CR, Hc. by rewrite IH2.
    + rewrite andb_false_l, ReplaceAll_CR, Hc. by rewrite IH2.
Qed.

Lemma unifyNewlines_free (s : string) : freeOf CR (unifyNewlines s) = true.
Proof.
  assert (H : freeOf CR (unifyNewlines s) = true
              /\ forall c, freeOf CR (unifyNewlines (String c s)) = true);
    [|apply H].
  induction s as [|d t [IH1 IH2]].
  - split; [done|]. intros c. rewrite unifyNewlines_cons.
    destruct (Ascii.eqb c CR) eqn:Hc; [done|].
    rewrite freeOf_cons, Hc. done.
  - split; [apply IH2|]. intros c. rewrite unifyNewlines_cons.
    destruct (Ascii.eqb c CR) eqn:Hc; rewrite freeOf_cons.
    + replace (Ascii.eqb LF CR) with false by reflexivity.
      destruct (Ascii.eqb d LF); [apply IH1 | apply IH2].
    + rewrite Hc. apply IH2.
Qed.

Lemma unifyNewlines_fixed (s : string) :
  freeOf CR s = true -> unifyNewlines s = s.
Proof.
  induction s as [|c t IH]; [done|]. rewrite freeOf_cons, unifyNewlines_cons.
  intros [Hc Ht]%andb_true_iff. apply negb_true_iff in Hc.
  rewrite Hc. by rewrite IH.
Qed.

Lemma freeOf_occursIn (c : ascii) (s : string) :
  freeOf c s = true <-> ~ occursIn (String c EmptyString) s.
Proof.
  unfold occursIn. induction s as [|d t IH].
  - split; [|done]. intros _ (pre & post & H). by destruct pre.
  - rewrite freeOf_cons, andb_true_iff, negb_true_iff, IH. split.
    + intros [Hd Ht] (pre & post & H). destruct pre as [|e pre].
      * rewrite append_nil, append_cons, append_nil in H. injection H as -> ->.
        by rewrite Ascii.eqb_refl in Hd.
      * rewrite append_cons in H. injection H as -> ->. apply Ht. by exists pre, post.
    + intros Hno. split.
      * destruct (Ascii.eqb_spec d c) as [->|]; [|done].
        exfalso. apply Hno. by exists EmptyString, t.
      * intros (pre & post & ->). apply Hno. by exists (String d pre), post.
Qed.

(** X4. [NormalizeNewlines] computes in two passes what one pass
    over the text computes: every CR LF pair and every other CR is replaced
    by one LF, all other bytes are kept. *)
Theorem NormalizeNewlines_one_pass (text : string) :
  NormalizeNewlines text = unifyNewlines text.
Proof. apply NormalizeNewlines_unify_aux. Qed.

(** X5. The result of [NormalizeNewlines] contains no CR; a text
    without CR is returned as it is; normalizing twice is normalizing
    once. *)
Theorem NormalizeNewlines_idempotent (text : string) :
  ~ occursIn (String CR EmptyString) (NormalizeNewlines text)
  /\ (~ occursIn (String CR EmptyString) text -> NormalizeNewlines text = text)
  /\ NormalizeNewlines (NormalizeNewlines text) = NormalizeNewlines text.
Proof.
  rewrite !(proj1 (NormalizeNewlines_unify_aux _)).
  pose proof (unifyNewlines_free text) as Hfree.
  split; [by apply freeOf_occursIn|]. split.
  - intros Hno. apply unifyNewlines_fixed. by apply freeOf_occursIn.
  - by apply unifyNewlines_fixed.
Qed.

Lemma length_sliceTo (n : nat) (s : string) :
  (n <= String.length s)%nat -> String.length (sliceTo n s) = n.
Proof.
  revert s. induction n as [|n IH]; intros s Hn; [done|].
  destruct s as [|c t]; simpl in *; [lia|]. rewrite IH; lia.
Qed.

Lemma length_append (a b : string) :
  String.length (a +:+ b) = (String.length a + String.length b)%nat.
Proof. induction a as [|c t IH]; [done|]. rewrite append_cons. simpl. by rewrite IH. Qed.

Lemma sliceTo_sliceFrom (n : nat) (s : string) :
  sliceTo n s +:+ sliceFrom n s = s.
Proof.
  revert s. induction n as [|n IH]; intros s; [done|].
  destruct s as [|c t]; [done|]. simpl. rewrite append_cons. by rewrite IH.
Qed.

(** X6. [Truncate] panics exactly on a negative [maxLen]; it
    returns [s] itself when [len(s) <= maxLen]; otherwise it returns the
    first [maxLen] bytes of [s] followed by three dots, a string of
    [maxLen + 3] bytes, which is longer than [s] when [s] has one or two
    bytes more than [maxLen]. *)
Theorem Truncate_cases (s : string) (maxLen : Z) :
  (Truncate s maxLen = None <-> maxLen < 0)
  /\ (len s <= maxLen -> Truncate s maxLen = Some s)
  /\ (0 <= maxLen < len s ->
      exists head tail : string,
        s = head +:+ tail /\ len head = maxLen
        /\ Truncate s maxLen = Some (head +:+ "...")
        /\ len (head +:+ "...") = maxLen + 3
        /\ (len s < maxLen + 3 -> len s < len (head +:+ "..."))).
Proof.
  unfold Truncate, len.
  split; [|split].
  - destruct (Z.leb_spec (Z.of_nat (String.length s)) maxLen) as [Hle|Hgt].
    + split; [done | lia].
    + destruct (Z.ltb_spec maxLen 0); [done|]. split; [done | lia].
  - intros Hle. apply Z.leb_le in Hle. by rewrite Hle.
  - intros [H0 Hlt].
    exists (sliceTo (Z.to_nat maxLen) s), (sliceFrom (Z.to_nat maxLen) s).
    assert (Hlen : String.length (sliceTo (Z.to_nat maxLen) s) = Z.to_nat maxLen)
      by (apply length_sliceTo; lia).
    split; [by rewrite sliceTo_sliceFrom|]. split; [lia|].
    destruct (Z.leb_spec (Z.of_nat (String.length s)) maxLen) as [Hle|_]; [lia|].
    destruct (Z.ltb_spec maxLen 0) as [Hneg|_]; [lia|].
    split; [done|]. rewrite length_append, Hlen. simpl. lia.
Qed.

Lemma append_assoc (a b c : string) : (a +:+ b) +:+ c = a +:+ (b +:+ c).
Proof. induction a as [|x a IH]; [done|]. rewrite !append_cons. by rewrite IH. Qed.

Lemma append_nil_r (a : string) : a +:+ EmptyString = a.
Proof. induction a as [|x a IH]; [done|]. rewrite append_cons. by rewrite IH. Qed.

Lemma splitFrom_free (sep : ascii) (cur s : string) :
  freeOf sep s = true -> splitFrom sep cur s = [cur +:+ s].
Proof.
  revert cur. induction s as [|c t IH]; intros cur.
  - intros _. simpl. by rewrite append_nil_r.
  - rewrite freeOf_cons. intros [Hc Ht]%andb_true_iff.
    apply negb_true_iff in Hc. cbn -[Ascii.eqb]. rewrite Hc.
    rewrite IH by done. by rewrite append_assoc.
Qed.

Lemma splitFrom_sep (sep : ascii) (cur a b : string) :
  freeOf sep a = true ->
  splitFrom sep cur (a +:+ String sep b) = (cur +:+ a) :: splitFrom sep EmptyString b.
Proof.
  revert cur. induction a as [|c t IH]; intros cur.
  - intros _. rewrite append_nil, append_nil_r. cbn -[Ascii.eqb].
    by rewrite Ascii.eqb_refl.
  - rewrite freeOf_cons. intros [Hc Ht]%andb_true_iff.
    apply negb_true_iff in Hc. rewrite append_cons. cbn -[Ascii.eqb]. rewrite Hc.
    rewrite IH by done. by rewrite append_assoc.
Qed.

Lemma splitFrom_nonempty (sep : ascii) (cur s : string) :
  splitFrom sep cur s <> [].
Proof.
  revert cur. induction s as [|c t IH]; intros cur; cbn -[Ascii.eqb]; [done|].
  destruct (Ascii.eqb c sep); [done | apply IH].
Qed.

Lemma splitFrom_one (sep : ascii) (cur s x : string) :
  splitFrom sep cur s = [x] -> freeOf sep s = true.
Proof.
  revert cur. induction s as [|c t IH]; intros cur; [done|].
  cbn -[Ascii.eqb]. destruct (Ascii.eqb c sep) eqn:Hc.
  - intros [= _ H]. by apply splitFrom_nonempty in H.
  - intros H. simpl. apply IH in H. by rewrite H.
Qed.

Lemma splitFrom_two (sep : ascii) (cur s x y : string) :
  splitFrom sep cur s = [x; y] ->
  exists a : string,
    s = a +:+ String sep y /\ freeOf sep a = true /\ freeOf sep y = true.
Proof.
  revert cur. induction s as [|c t IH]; intros cur; [done|].
  cbn -[Ascii.eqb]. destruct (Ascii.eqb c sep) eqn:Hc.
  - intros [= _ H]. apply Ascii.eqb_eq in Hc. subst c.
    pose proof (splitFrom_one _ _ _ _ H) as Hfree.
    rewrite (splitFrom_free _ _ _ Hfree) in H. injection H as <-.
    by exists EmptyString.
  - intros H. apply IH in H as (a & -> & Ha & Hy).
    exists (String c a). rewrite freeOf_cons, Hc. done.
Qed.

Lemma extensions_dotted (mimetype ext : string) :
  extensions !! mimetype = Some ext -> HasPrefix ext "." = true.
Proof.
  intros H. apply elem_of_list_to_map_2 in H.
  repeat (apply elem_of_cons in H as [[= _ ->]|H]; [reflexivity|]).
  by apply elem_of_nil in H.
Qed.

(** X7. [GetExtensionFromMimetype] answers from its table first; for a
    type that is not in the table and has exactly one slash it answers a
    dot followed by what follows the slash (a dot alone when nothing
    follows); for every other type it answers the empty string. So the
    answer is empty or begins with a dot. *)
Theorem GetExtensionFromMimetype_cases (mimetype : string) :
  (forall ext, extensions !! mimetype = Some ext ->
     GetExtensionFromMimetype mimetype = ext)
  /\ (extensions !! mimetype = None ->
      forall type subtype : string,
        mimetype = type +:+ "/" +:+ subtype ->
        freeOf "/" type = true -> freeOf "/" subtype = true ->
        GetExtensionFromMimetype mimetype = "." +:+ subtype)
  /\ (extensions !! mimetype = None ->
      (forall type subtype : string,
         mimetype = type +:+ "/" +:+ subtype ->
         freeOf "/" type = true -> freeOf "/" subtype = true -> False) ->
      GetExtensionFromMimetype mimetype = "")
  /\ (GetExtensionFromMimetype mimetype = ""
      \/ HasPrefix (GetExtensionFromMimetype mimetype) "." = true).
Proof.
  unfold GetExtensionFromMimetype, Split.
  split; [|split; [|split]].
  - by intros ext ->.
  - intros -> type subtype -> Ht Hs.
    change ("/" +:+ subtype) with (String "/"%char subtype).
    rewrite splitFrom_sep by done. by rewrite splitFrom_free.
  - intros -> Hno.
    destruct (splitFrom "/" "" mimetype) as [|x [|y [|z l]]] eqn:Hsplit; try done.
    exfalso. apply splitFrom_two in Hsplit as (a & -> & Ha & Hy).
    by apply (Hno a y).
  - destruct (extensions !! mimetype) as [ext|] eqn:Hext.
    + right. by eapply extensions_dotted.
    + destruct (splitFrom "/" "" mimetype) as [|x [|y [|z l]]]; auto.
Qed.

Section EngineMore.

Variable ToLower : string -> string.

Lemma HasPrefix_append (a b : string) : HasPrefix (a +:+ b) a = true.
Proof. apply HasPrefix_spec. by exists b. Qed.

Lemma HasPrefix_trans (a b c : string) :
  HasPrefix b a = true -> HasPrefix c b = true -> HasPrefix c a = true.
Proof.
  rewrite !HasPrefix_spec. intros [x ->] [y ->]. exists (x +:+ y).
  by rewrite append_assoc.
Qed.

Lemma buildSystemPrompt_prefix (e : ChatEngine) (relevant : list KnowledgeItem) :
  HasPrefix (buildSystemPrompt e relevant) (systemPrompt e) = true.
Proof.
  unfold buildSystemPrompt.
  destruct (Z.of_nat (length relevant) =? 0).
  - apply HasPrefix_spec. exists EmptyString. by rewrite append_nil_r.
  - assert (H : forall acc, HasPrefix acc (systemPrompt e) = true ->
              HasPrefix
                (fold_left
                   (fun sb item =>
                      sb +:+ ("- " +:+ Topic item +:+ ": " +:+ Answer item +:+ newline))
                   relevant acc) (systemPrompt e) = true).
    { induction relevant as [|item rest IH]; intros acc Hacc; [done|].
      simpl. apply IH. eapply HasPrefix_trans; [exact Hacc|].
      apply HasPrefix_append. }
    apply H, HasPrefix_append.
Qed.

(** X8. The request built for the transport is the system message,
    then the last 10 entries of the history (all of it when it has at most
    10) in their order, then the new message under the role "user"; the
    system message begins with the configured prompt and is that prompt when
    no knowledge item matches. *)
Theorem buildMessages_shape (e : ChatEngine) (userMessage : string)
    (history : list GroqMessage) :
  exists sys : string,
    buildMessages ToLower e userMessage history
    = mkGroqMessage "system" sys
      :: drop (length history - 10) history ++ [mkGroqMessage "user" userMessage]
    /\ HasPrefix sys (systemPrompt e) = true
    /\ (findRelevantKnowledge ToLower e userMessage = [] -> sys = systemPrompt e)
    /\ length (buildMessages ToLower e userMessage history)
       = (2 + Nat.min 10 (length history))%nat.
Proof.
  exists (buildSystemPrompt e (findRelevantKnowledge ToLower e userMessage)).
  assert (Heq : buildMessages ToLower e userMessage history
                = mkGroqMessage "system"
                    (buildSystemPrompt e (findRelevantKnowledge ToLower e userMessage))
                  :: drop (length history - 10) history
                     ++ [mkGroqMessage "user" userMessage]).
  { unfold buildMessages. cbn zeta.
    destruct (Z.ltb_spec 10 (Z.of_nat (length history))) as [Hlt|Hge]; [done|].
    replace (length history - 10)%nat with 0%nat by lia. done. }
  split; [exact Heq|]. split; [apply buildSystemPrompt_prefix|]. split.
  - intros ->. reflexivity.
  - rewrite Heq. cbn [length]. rewrite length_app, length_drop. cbn [length]. lia.
Qed.

End EngineMore.

Section EngineRun.

Variable ToLower : string -> string.
Variable env : Oracles.

Lemma shouldSuggestHandover_spec (userMessage botReply : string) :
  shouldSuggestHandover ToLower userMessage botReply = true
  <-> anyOccursIn humanRequestWords (ToLower userMessage)
      \/ anyOccursIn uncertaintyPhrases (ToLower botReply).
Proof.
  unfold shouldSuggestHandover. rewrite <- !containsAny_spec.
  destruct (containsAny (ToLower userMessage) humanRequestWords);
    destruct (containsAny (ToLower botReply) uncertaintyPhrases); intuition.
Qed.

Lemma analyzeSentiment_frustrated (message : string) :
  analyzeSentiment ToLower message = "frustrated"
  <-> anyOccursIn frustratedWords (ToLower message).
Proof.
  unfold analyzeSentiment. rewrite <- containsAny_spec.
  destruct (containsAny (ToLower message) frustratedWords); [done|].
  destruct (containsAny (ToLower message) positiveWords); split; discriminate.
Qed.

(** X9. [ChatEngine.ProcessMessage] calls the transport once and
    touches nothing else. If the transport fails, the error is returned
    wrapped; if it answers, the reply is returned as it is, the sentiment is
    that of the new message alone, and handover is suggested exactly when a
    frustrated phrase or a human-request phrase occurs in the lower-cased
    message or an uncertainty phrase occurs in the lower-cased reply. *)
Theorem ChatEngine_ProcessMessage_outcome (e : ChatEngine) (userMessage : string)
    (history : list GroqMessage) (w : World) :
  let request := buildMessages ToLower e userMessage history in
  let run := ChatEngine_ProcessMessage ToLower env e userMessage history w in
  snd run = record (EvChat request) w
  /\ (forall err, chat env (step w) request = Err err ->
        fst run = Err (ErrWrap "groq API error" err))
  /\ (forall reply, chat env (step w) request = Ok reply ->
        exists response : ChatResponse,
          fst run = Ok response
          /\ Reply response = reply
          /\ rSentiment response = analyzeSentiment ToLower userMessage
          /\ (SuggestHandover response = true
              <-> anyOccursIn frustratedWords (ToLower userMessage)
                  \/ anyOccursIn humanRequestWords (ToLower userMessage)
                  \/ anyOccursIn uncertaintyPhrases (ToLower reply))).
Proof.
  intros request run. subst run.
  unfold ChatEngine_ProcessMessage, bind, wrapErr, groqChat, ret. fold request.
  destruct (chat env (step w) request) as [reply|err] eqn:Hchat; simpl.
  - split; [done|]. split; [intros err Herr; discriminate Herr|].
    intros reply' [= <-]. eexists. split; [reflexivity|]. simpl.
    split; [done|]. split; [done|].
    rewrite orb_true_iff, shouldSuggestHandover_spec, <- analyzeSentiment_frustrated.
    rewrite String.eqb_eq. tauto.
  - split; [done|]. split; [by intros err' [= <-]|]. intros reply Hr. discriminate Hr.
Qed.

End EngineRun.

(* ===================================================================== *)
(** * What the operations leave alone *)
(* ===================================================================== *)

Section Effects.

Variable ToLower : string -> string.
Variable env : Oracles.

(** [R] relates the state before to the state after; [okSet k] allows a
    write to the session document [k], [okMsg msg] the insertion of [msg]. *)
Variable R : World -> World -> Prop.
Variable okSet : string -> Prop.
Variable okMsg : ChatMessage -> Prop.

Hypothesis R_refl : forall w, R w w.
Hypothesis R_trans : forall a b c, R a b -> R b c -> R a c.
Hypothesis R_record : forall e w, R w (record e w).
Hypothesis R_sessions :
  forall w k d, okSet k -> R w (with_sessions w (<[k := d]> (sessionDocs w))).
Hypothesis R_new :
  forall w k d,
    sessionDocs w !! k = None -> R w (with_sessions w (<[k := d]> (sessionDocs w))).
Hypothesis R_messages :
  forall w msg, okMsg msg -> R w (with_messages w (messageDocs w ++ [msg])).

Lemma effect_ret {A : Type} (a : A) (phi : A -> Prop) :
  phi a -> effect R (ret a) phi.
Proof. intros Ha w. split; [apply R_refl|]. simpl. by intros b [= <-]. Qed.

Lemma effect_bind {A B : Type} (m : M A) (k : A -> M B)
    (psi : A -> Prop) (phi : B -> Prop) :
  effect R m psi ->
  (forall a : A, psi a -> effect R (k a) phi) ->
  effect R (bind m k) phi.
Proof.
  intros Hm Hk w. unfold bind. destruct (Hm w) as [HR Hpsi].
  destruct (m w) as [[a|e] w1]; simpl in *.
  - destruct (Hk a (Hpsi a eq_refl) w1) as [HR1 Hphi].
    split; [by eapply R_trans | done].
  - split; [done | intros b Hb; discriminate Hb].
Qed.

Lemma effect_attempt {A : Type} (m : M A) (psi : A -> Prop) :
  effect R m psi -> effect R (attempt m) (fun _ => True).
Proof.
  intros Hm w. unfold attempt. destruct (Hm w) as [HR _].
  by destruct (m w) as [r w1].
Qed.

Lemma effect_wrapErr {A : Type} (context : string) (m : M A) (phi : A -> Prop) :
  effect R m phi -> effect R (wrapErr context m) phi.
Proof.
  intros Hm w. unfold wrapErr. destruct (Hm w) as [HR Hphi].
  destruct (m w) as [[a|e] w1]; simpl in *; split; try done.
Qed.

Lemma effect_weaken {A : Type} (m : M A) (psi phi : A -> Prop) :
  effect R m psi -> (forall a, psi a -> phi a) -> effect R m phi.
Proof.
  intros Hm Himp w. destruct (Hm w) as [HR Hpsi]. split; [done|].
  intros a Ha. by apply Himp, Hpsi.
Qed.

Lemma effect_timeNow : effect R (timeNow env) (fun _ => True).
Proof. intros w. split; [apply R_record | done]. Qed.

Lemma effect_iterNext : effect R (iterNext env) (fun _ => True).
Proof. intros w. split; [apply R_record | done]. Qed.

Lemma effect_groqChat (messages : list GroqMessage) :
  effect R (groqChat env messages) (fun _ => True).
Proof. intros w. split; [apply R_record | done]. Qed.

Lemma effect_docGet (k : string) : effect R (docGet env k) (fun _ => True).
Proof.
  intros w. split; [|done]. unfold docGet.
  destruct (fault env (step w)); [apply R_record|].
  destruct (sessionDocs w !! k); apply R_record.
Qed.

Lemma effect_docSet (k : string) (s : ChatSession) :
  okSet k -> effect R (docSet env k s) (fun _ => True).
Proof.
  intros Hk w. split; [|done]. unfold docSet.
  destruct (fault env (step w)); simpl; [apply R_record|].
  eapply R_trans; [apply R_record|]. by apply (R_sessions (record _ w)).
Qed.

Lemma effect_docTouch (k : string) (t : Time) :
  okSet k -> effect R (docTouch env k t) (fun _ => True).
Proof.
  intros Hk w. split; [|done]. unfold docTouch.
  destruct (fault env (step w)); simpl; [apply R_record|].
  destruct (sessionDocs w !! k); simpl; [|apply R_record].
  eapply R_trans; [apply R_record|]. by apply (R_sessions (record _ w)).
Qed.

Lemma effect_addSession (s : ChatSession) :
  effect R (addSession env s) (fun _ => True).
Proof.
  intros w. split; [|done]. unfold addSession.
  destruct (fault env (step w)); simpl; [apply R_record|].
  destruct (sessionDocs w !! autoID env (step w)) eqn:Hk; simpl; [apply R_record|].
  eapply R_trans; [apply R_record|]. by apply (R_new (record _ w)).
Qed.

Lemma effect_addMessage (msg : ChatMessage) :
  (forall id, okMsg (set_msgID msg id)) ->
  effect R (addMessage env msg) (fun _ => True).
Proof.
  intros Hmsg w. split; [|done]. unfold addMessage.
  destruct (fault env (step w)); simpl; [apply R_record|].
  eapply R_trans; [apply R_record|]. by apply (R_messages (record _ w)).
Qed.

Lemma effect_GetSession (k : string) :
  effect R (GetSession env k) (fun s => ID s = k).
Proof.
  eapply effect_bind; [apply effect_wrapErr, effect_docGet|].
  intros d _. by apply effect_ret.
Qed.

Lemma effect_UpdateSession (s : ChatSession) :
  okSet (ID s) -> effect R (UpdateSession env s) (fun _ => True).
Proof. intros Hk. by apply effect_wrapErr, effect_docSet. Qed.

Lemma effect_SaveMessage (msg : ChatMessage) :
  okSet (SessionID msg) -> (forall id, okMsg (set_msgID msg id)) ->
  effect R (SaveMessage env msg) (fun _ => True).
Proof.
  intros Hk Hmsg. eapply effect_bind.
  - by apply effect_wrapErr, effect_addMessage.
  - intros id _. eapply effect_bind.
    + eapply effect_attempt. by apply effect_docTouch.
    + intros r _. by apply effect_ret.
Qed.

Lemma effect_GetMessages_loop (docs messages : list ChatMessage) :
  effect R (GetMessages_loop env docs messages) (fun _ => True).
Proof.
  revert messages. induction docs as [|doc rest IH]; intros messages; simpl.
  - eapply effect_bind; [apply effect_wrapErr, effect_iterNext|].
    intros _ _. by apply effect_ret.
  - eapply effect_bind; [apply effect_wrapErr, effect_iterNext|].
    intros _ _. apply IH.
Qed.

Lemma effect_GetMessages (sessionID : string) (limit : nat) :
  effect R (GetMessages env sessionID limit) (fun _ => True).
Proof.
  eapply (effect_bind _ _ (fun _ => True)).
  - intros w. split; [apply R_record | done].
  - intros docs _. apply effect_GetMessages_loop.
Qed.

Lemma effect_ChatEngine_ProcessMessage (e : ChatEngine) (userMessage : string)
    (history : list GroqMessage) :
  effect R (ChatEngine_ProcessMessage ToLower env e userMessage history)
    (fun _ => True).
Proof.
  eapply effect_bind; [apply effect_wrapErr, effect_groqChat|].
  intros reply _. by apply effect_ret.
Qed.

Lemma effect_IsAnyAdminOnline : effect R IsAnyAdminOnline (fun _ => True).
Proof. intros w. split; [apply R_refl | done]. Qed.

Lemma effect_CreateSession (v n e p c l : string) :
  effect R (CreateSession env v n e p c l) (fun _ => True).
Proof.
  unfold CreateSession.
  eapply effect_bind; [apply effect_timeNow | intros t1 _].
  eapply effect_bind; [apply effect_timeNow | intros t2 _].
  eapply effect_bind; [apply effect_wrapErr, effect_addSession | intros id _].
  by apply effect_ret.
Qed.

Lemma effect_RequestHandover (k : string) :
  okSet k ->
  (forall mid content t, okMsg (mkChatMessage mid k "system" content t)) ->
  effect R (RequestHandover env k) (fun _ => True).
Proof.
  intros Hk Hmsg. unfold RequestHandover.
  eapply effect_bind; [apply effect_GetSession | intros s Hid].
  eapply effect_bind.
  { apply effect_UpdateSession. simpl. by rewrite Hid. }
  intros _ _.
  eapply effect_bind; [apply effect_timeNow | intros t _].
  eapply effect_bind.
  { eapply effect_attempt. apply effect_SaveMessage; [done|]. intros id. apply Hmsg. }
  intros r _.
  eapply effect_bind; [apply effect_IsAnyAdminOnline | intros b _].
  by apply effect_ret.
Qed.

Lemma effect_ClaimSession (k adminID adminName : string) :
  okSet k ->
  (forall mid content t, okMsg (mkChatMessage mid k "system" content t)) ->
  effect R (ClaimSession env k adminID adminName) (fun _ => True).
Proof.
  intros Hk Hmsg. unfold ClaimSession.
  eapply effect_bind; [apply effect_GetSession | intros s Hid].
  eapply effect_bind.
  { apply effect_UpdateSession. simpl. by rewrite Hid. }
  intros _ _.
  eapply effect_bind; [apply effect_timeNow | intros t _].
  eapply effect_bind.
  { eapply effect_attempt. apply effect_SaveMessage; [done|]. intros id. apply Hmsg. }
  intros r _. by apply effect_ret.
Qed.

Lemma effect_CloseSession (k : string) :
  okSet k -> effect R (CloseSession env k) (fun _ => True).
Proof.
  intros Hk. unfold CloseSession.
  eapply effect_bind; [apply effect_GetSession | intros s Hid].
  eapply effect_bind; [apply effect_timeNow | intros t _].
  apply effect_UpdateSession. simpl. by rewrite Hid.
Qed.

Lemma effect_ReturnToBot (k : string) :
  okSet k ->
  (forall mid content t, okMsg (mkChatMessage mid k "system" content t)) ->
  effect R (ReturnToBot env k) (fun _ => True).
Proof.
  intros Hk Hmsg. unfold ReturnToBot.
  eapply effect_bind; [apply effect_GetSession | intros s Hid].
  eapply effect_bind.
  { apply effect_UpdateSession. simpl. by rewrite Hid. }
  intros _ _.
  eapply effect_bind; [apply effect_timeNow | intros t _].
  eapply effect_bind.
  { eapply effect_attempt. apply effect_SaveMessage; [done|]. intros id. apply Hmsg. }
  intros r _. by apply effect_ret.
Qed.

Lemma effect_ProcessMessage (k content : string) :
  okSet k ->
  (forall mid reply t, okMsg (mkChatMessage mid k "bot" reply t)) ->
  effect R (ProcessMessage ToLower env k content) (fun _ => True).
Proof.
  intros Hk Hmsg. unfold ProcessMessage.
  eapply effect_bind; [apply effect_GetSession | intros s Hid].
  destruct (decide (Status s = StatusLive)); [by apply effect_ret|].
  eapply effect_bind; [apply effect_wrapErr, effect_GetMessages | intros messages _].
  eapply (effect_bind _ _ (fun _ => True)).
  { intros w. split; [apply R_refl | done]. }
  intros engine _.
  eapply effect_bind.
  { eapply effect_attempt. apply effect_ChatEngine_ProcessMessage. }
  intros r _.
  eapply (effect_bind _ _ (fun sr => ID (fst sr) = k)).
  { destruct r as [response|e].
    - by apply effect_ret.
    - eapply effect_bind.
      + eapply effect_attempt. apply effect_UpdateSession. simpl. by rewrite Hid.
      + intros _ _. by apply effect_ret. }
  intros [s' response] Hid'. simpl in *.
  eapply effect_bind; [apply effect_timeNow | intros t _].
  eapply effect_bind.
  { eapply effect_attempt. apply effect_SaveMessage; [done|]. intros id. apply Hmsg. }
  intros r' _.
  eapply effect_bind.
  { eapply effect_attempt. apply effect_UpdateSession. simpl. by rewrite Hid'. }
  intros _ _. by apply effect_ret.
Qed.

Lemma effect_closeInactive (k : string) (d : ChatSession) :
  okSet k ->
  (forall mid content t, okMsg (mkChatMessage mid k "system" content t)) ->
  effect R (closeInactive env k d) (fun _ => True).
Proof.
  intros Hk Hmsg. unfold closeInactive.
  eapply effect_bind; [apply effect_timeNow | intros t _].
  eapply effect_bind.
  { eapply effect_attempt. by apply effect_UpdateSession. }
  intros [[]|e] _; [|by apply effect_ret].
  eapply effect_bind; [apply effect_timeNow | intros t' _].
  eapply effect_bind.
  { eapply effect_attempt. apply effect_SaveMessage; [done|]. intros id. apply Hmsg. }
  intros r' _. by apply effect_ret.
Qed.

Lemma effect_Cleanup_loop (docs : list (string * ChatSession)) :
  (forall k d, (k, d) ∈ docs ->
     okSet k /\ forall mid content t, okMsg (mkChatMessage mid k "system" content t)) ->
  effect R (Cleanup_loop env docs) (fun _ => True).
Proof.
  induction docs as [|[k d] rest IH]; intros Hdocs; simpl.
  - apply effect_iterNext.
  - eapply effect_bind; [apply effect_iterNext | intros _ _].
    eapply effect_bind.
    { destruct (Hdocs k d) as [Hk Hmsg]; [left|]. by apply effect_closeInactive. }
    intros _ _. apply IH. intros k' d' Hin. apply (Hdocs k' d'). by right.
Qed.

Lemma effect_CleanupInactiveSessions (duration : Duration) :
  (forall k, okSet k) ->
  (forall mid k content t, okMsg (mkChatMessage mid k "system" content t)) ->
  effect R (CleanupInactiveSessions env duration) (fun _ => True).
Proof.
  intros Hk Hmsg. unfold CleanupInactiveSessions.
  eapply effect_bind; [apply effect_timeNow | intros t _].
  eapply (effect_bind _ _ (fun _ => True)).
  { intros w. split; [apply R_record | done]. }
  intros docs _. apply effect_Cleanup_loop. intros k d _. split; [apply Hk|].
  intros mid content t'. apply Hmsg.
Qed.

End Effects.

Lemma docSat_read (P : ChatSession -> Prop) (k : string)
    (m : gmap string ChatSession) k' d :
  docSat P k m -> m !! k' = Some d -> docAt P k k' d.
Proof. intros (d0 & Hd0 & HP) Hk' ->. congruence. Qed.

Lemma docSat_write (P : ChatSession -> Prop) (k : string)
    (m : gmap string ChatSession) k' d :
  docSat P k m -> docAt P k k' d -> docSat P k (<[k' := d]> m).
Proof.
  intros (d0 & Hd0 & HP) Hd. unfold docSat. rewrite lookup_insert.
  case_decide as Hk.
  - exists d. split; [done|]. by apply Hd.
  - by exists d0.
Qed.

Lemma docSat_new (P : ChatSession -> Prop) (k : string)
    (m : gmap string ChatSession) k' d :
  docSat P k m -> m !! k' = None -> True -> docSat P k (<[k' := d]> m).
Proof.
  intros (d0 & Hd0 & HP) Hnone _. apply docSat_write; [by exists d0|].
  intros ->. congruence.
Qed.

Section Frames.

Variable ToLower : string -> string.
Variable env : Oracles.

(** X10. An operation called on one session leaves the documents
    of all other sessions as they are (an absent one stays absent), and
    [CreateSession] leaves every existing document as it is, whatever the
    store and the transport answer. *)
Theorem operations_touch_only_their_session (op : Operation) (w : World)
    (k : string) :
  (forall id, targetOf op = Some id -> k <> id ->
     sessionDocs (runOperation ToLower env op w) !! k = sessionDocs w !! k)
  /\ (forall v n e p c l d,
        op = OpCreateSession v n e p c l ->
        sessionDocs w !! k = Some d ->
        sessionDocs (runOperation ToLower env op w) !! k = Some d).
Proof.
  split.
  - intros id Hop Hk.
    set (R := fun a b : World => sessionDocs b !! k = sessionDocs a !! k).
    set (okSet := fun k' : string => k' <> k).
    set (okMsg := fun _ : ChatMessage => True).
    assert (Hrefl : forall a, R a a) by done.
    assert (Htrans : forall a b c, R a b -> R b c -> R a c).
    { unfold R. intros a b c Hab Hbc. by rewrite Hbc. }
    assert (Hrec : forall e a, R a (record e a)) by done.
    assert (Hset : forall a k' d, okSet k' ->
              R a (with_sessions a (<[k' := d]> (sessionDocs a)))).
    { unfold R, okSet. intros a k' d Hne. simpl. by rewrite lookup_insert_ne. }
    assert (Hmsg : forall a msg, okMsg msg ->
              R a (with_messages a (messageDocs a ++ [msg]))) by done.
    assert (Hid : okSet id) by (unfold okSet; congruence).
    change (R w (runOperation ToLower env op w)).
    destruct op as [v n e p c l | k0 | k0 a nm | k0 | k0 | k0 content | duration];
      try discriminate Hop; injection Hop as ->; simpl.
    + by apply (effect_RequestHandover env R okSet okMsg).
    + by apply (effect_ClaimSession env R okSet okMsg).
    + by apply (effect_CloseSession env R okSet).
    + by apply (effect_ReturnToBot env R okSet okMsg).
    + by apply (effect_ProcessMessage ToLower env R okSet okMsg).
  - intros v n e p c l d -> Hd. simpl.
    set (R := fun a b : World =>
                sessionDocs a !! k = Some d -> sessionDocs b !! k = Some d).
    assert (HR : R w (snd (CreateSession env v n e p c l w))); [|by apply HR].
    apply (effect_CreateSession env R); unfold R; try done.
    + intros a b c0 Hab Hbc Ha. by apply Hbc, Hab.
    + intros a k' d' Hnone Ha. simpl. rewrite lookup_insert_ne; [done|]. congruence.
Qed.

(** X11. Every operation leaves the stored messages in place and in
    order; what it appends is, for the pipeline, messages of the bot in the
    session it was called on, for [RequestHandover], [ClaimSession] and
    [ReturnToBot] system messages in that session, for the reaper system
    messages, and for [CreateSession] and [CloseSession] nothing. *)
Theorem operations_only_append_messages (op : Operation) (w : World) :
  exists new : list ChatMessage,
    messageDocs (runOperation ToLower env op w) = messageDocs w ++ new
    /\ Forall (mayAppend op) new.
Proof.
  set (okMsg := mayAppend op).
  set (R := fun a b : World =>
              exists new, messageDocs b = messageDocs a ++ new /\ Forall okMsg new).
  set (okSet := fun _ : string => True).
  assert (Hrefl : forall a, R a a).
  { intros a. exists []. by rewrite app_nil_r. }
  assert (Htrans : forall a b c, R a b -> R b c -> R a c).
  { intros a b c (n1 & H1 & F1) (n2 & H2 & F2). exists (n1 ++ n2).
    split; [by rewrite H2, H1, app_assoc | by apply Forall_app]. }
  assert (Hrec : forall e a, R a (record e a)) by (intros e a; apply (Hrefl a)).
  assert (Hset : forall a k' d, okSet k' ->
            R a (with_sessions a (<[k' := d]> (sessionDocs a)))).
  { intros a k' d _. apply (Hrefl a). }
  assert (Hnew : forall a k' d, sessionDocs a !! k' = None ->
            R a (with_sessions a (<[k' := d]> (sessionDocs a)))).
  { intros a k' d _. apply (Hrefl a). }
  assert (Hmsg : forall a msg, okMsg msg ->
            R a (with_messages a (messageDocs a ++ [msg]))).
  { intros a msg Hok. exists [msg]. split; [done | by constructor]. }
  change (R w (runOperation ToLower env op w)).
  destruct op as [v n e p c l | k0 | k0 a nm | k0 | k0 | k0 content | duration];
    simpl.
  - by apply (effect_CreateSession env R).
  - by apply (effect_RequestHandover env R okSet okMsg).
  - by apply (effect_ClaimSession env R okSet okMsg).
  - by apply (effect_CloseSession env R okSet).
  - by apply (effect_ReturnToBot env R okSet okMsg).
  - by apply (effect_ProcessMessage ToLower env R okSet okMsg).
  - by apply (effect_CleanupInactiveSessions env R okSet okMsg).
Qed.

End Frames.

Section Frames2.

Variable ToLower : string -> string.
Variable env : Oracles.

Lemma operations_keep_registry (op : Operation) (w : World) :
  adminStatus (runOperation ToLower env op w) = adminStatus w
  /\ chatEngine (runOperation ToLower env op w) = chatEngine w.
Proof.
  set (R := fun a b : World =>
              adminStatus b = adminStatus a /\ chatEngine b = chatEngine a).
  set (okSet := fun _ : string => True).
  set (okMsg := fun _ : ChatMessage => True).
  assert (Hrefl : forall a, R a a) by done.
  assert (Htrans : forall a b c, R a b -> R b c -> R a c).
  { intros a b c [H1 H2] [H3 H4]. split; congruence. }
  assert (Hrec : forall e a, R a (record e a)) by done.
  assert (Hset : forall a k' d, okSet k' ->
            R a (with_sessions a (<[k' := d]> (sessionDocs a)))) by done.
  assert (Hnew : forall a k' d, sessionDocs a !! k' = None ->
            R a (with_sessions a (<[k' := d]> (sessionDocs a)))) by done.
  assert (Hmsg : forall a msg, okMsg msg ->
            R a (with_messages a (messageDocs a ++ [msg]))) by done.
  change (R w (runOperation ToLower env op w)).
  destruct op as [v n e p c l | k0 | k0 a nm | k0 | k0 | k0 content | duration];
    simpl.
  - by apply (effect_CreateSession env R).
  - by apply (effect_RequestHandover env R okSet okMsg).
  - by apply (effect_ClaimSession env R okSet okMsg).
  - by apply (effect_CloseSession env R okSet).
  - by apply (effect_ReturnToBot env R okSet okMsg).
  - by apply (effect_ProcessMessage ToLower env R okSet okMsg).
  - by apply (effect_CleanupInactiveSessions env R okSet okMsg).
Qed.

Lemma UpdateAdminStatus_cases (adminID adminName status : string) (w : World) :
  UpdateAdminStatus env adminID adminName status w
  = if String.eqb status "offline"
    then (Ok tt, with_admins w (delete adminID (adminStatus w)))
    else
      (Ok tt,
       with_admins (record EvNow w)
         (<[adminID :=
              match adminStatus w !! adminID with
              | Some existing =>
                  mkAdminStatus (AdminID existing) (AdminName existing) status
                    (ActiveChats existing) (MaxChats existing) (now env (step w))
              | None => mkAdminStatus adminID adminName status 0 5 (now env (step w))
              end]> (adminStatus w))).
Proof.
  unfold UpdateAdminStatus, bind, getAdmins, putAdmins, timeNow.
  destruct (String.eqb status "offline"); [done|].
  by destruct (adminStatus w !! adminID).
Qed.

(** X12. The operations on sessions never change the presence
    registry nor the engine, and a presence report changes neither
    collection and makes no call to the store or to the transport: it reads
    the clock at most. *)
Theorem sessions_and_presence_are_separate (w : World) :
  (forall op : Operation,
     adminStatus (runOperation ToLower env op w) = adminStatus w
     /\ chatEngine (runOperation ToLower env op w) = chatEngine w)
  /\ (forall adminID adminName status : string,
        let w' := snd (UpdateAdminStatus env adminID adminName status w) in
        sessionDocs w' = sessionDocs w /\ messageDocs w' = messageDocs w
        /\ chatEngine w' = chatEngine w
        /\ (events w' = events w \/ events w' = EvNow :: events w)).
Proof.
  split; [intros op; apply operations_keep_registry|].
  intros adminID adminName status w'. subst w'.
  rewrite UpdateAdminStatus_cases.
  destruct (String.eqb status "offline"); simpl; auto.
Qed.

(** X13. Every entry of the registry is filed under its own agent
    id, has the capacity 5 and no active chat: this holds of the empty
    registry and is kept by every presence report and by every operation on
    sessions. A claim does not count as an active chat. *)
Theorem registry_shape_is_kept (w : World) :
  registryShape (adminStatus (NewSessionManager (chatEngine w)))
  /\ (registryShape (adminStatus w) ->
      (forall adminID adminName status : string,
         registryShape
           (adminStatus (snd (UpdateAdminStatus env adminID adminName status w))))
      /\ (forall op : Operation,
            registryShape (adminStatus (runOperation ToLower env op w)))).
Proof.
  split.
  - intros k entry Hk. simpl in Hk. by rewrite lookup_empty in Hk.
  - intros Hshape. split.
    + intros adminID adminName status. rewrite UpdateAdminStatus_cases.
      destruct (String.eqb status "offline"); simpl.
      * intros k entry Hk. apply lookup_delete_Some in Hk as [_ Hk].
        by apply Hshape.
      * intros k entry. rewrite lookup_insert. case_decide as Hk.
        -- subst k. intros [= <-].
           destruct (adminStatus w !! adminID) as [existing|] eqn:Hex; [|done].
           simpl. by apply Hshape.
        -- apply Hshape.
    + intros op. by rewrite (proj1 (operations_keep_registry op w)).
Qed.

(** X14. No operation deletes a session document or changes the data
    of its visitor or its creation time; and a closing time, once stored,
    stays stored: [ReturnToBot], [RequestHandover] and [ClaimSession] on a
    closed session change its status and keep [closedAt]. *)
Theorem operations_keep_visitor_data (op : Operation) (w : World)
    (id : string) (doc : ChatSession) :
  sessionDocs w !! id = Some doc ->
  exists doc' : ChatSession,
    sessionDocs (runOperation ToLower env op w) !! id = Some doc'
    /\ visitorData doc' = visitorData doc
    /\ (is_Some (ClosedAt doc) -> is_Some (ClosedAt doc')).
Proof.
  intros Hdoc.
  set (P := fun d : ChatSession =>
              visitorData d = visitorData doc
              /\ (is_Some (ClosedAt doc) -> is_Some (ClosedAt d))).
  assert (HJ : docSat P id (sessionDocs w)) by (by exists doc).
  assert (Hread := docSat_read P id).
  assert (Hwrite := docSat_write P id).
  assert (Hnew := docSat_new P id).
  assert (Hclose : forall (d : ChatSession) (f : ChatSession -> ChatSession),
            visitorData (f d) = visitorData d ->
            (is_Some (ClosedAt d) -> is_Some (ClosedAt (f d))) ->
            forall k, docAt P id k d -> docAt P id k (f d)).
  { intros d f Hv Hc k Hd Hk. destruct (Hd Hk) as [Hv' Hc'].
    split; [congruence | tauto]. }
  change (docSat P id (sessionDocs (runOperation ToLower env op w))).
  destruct op as [v n e p c l | k0 | k0 a nm | k0 | k0 | k0 content | duration];
    simpl; apply (triple_keeps _ _ (fun _ => True)); try exact HJ.
  - by apply (triple_CreateSession env _ (fun _ => True)).
  - apply (triple_RequestHandover env _ (docAt P id)); try done.
  - apply (triple_ClaimSession env _ (docAt P id)); try done.
  - apply (triple_CloseSession env _ (docAt P id)); try done.
    intros d t.
    by apply (Hclose d (fun d => set_ClosedAt (set_Status d StatusClosed) (Some t))).
  - apply (triple_ReturnToBot env _ (docAt P id)); try done.
  - apply (triple_ProcessMessage ToLower env _ (docAt P id)); try done.
  - apply (triple_CleanupInactiveSessions env _ (docAt P id)); try done.
    intros k d t.
    by apply (Hclose d (fun d =>
                set_Sentiment (set_ClosedAt (set_Status d StatusClosed) (Some t))
                  "timeout")).
Qed.

End Frames2.

Section ReaperFaults.

Variable env : Oracles.

Lemma CleanupInactiveSessions_unfold (D : Duration) (w : World) :
  exists docs : list (string * ChatSession),
    CleanupInactiveSessions env D w
    = Cleanup_loop env docs
        (record (EvQueryInactive (now env (step w) + wrap64 (- D))) (record EvNow w))
    /\ forall k d,
         (k, d) ∈ docs
         <-> sessionDocs w !! k = Some d
             /\ activeStatus d = true
             /\ LastMessageAt d < now env (step w) + wrap64 (- D).
Proof.
  destruct (queryInactive_docs (now env (step w) + wrap64 (- D)) (record EvNow w))
    as (docs & Hq & _ & Hdocs).
  exists docs. split; [|exact Hdocs].
  unfold CleanupInactiveSessions.
  assert (HT : timeNow env w = (Ok (now env (step w)), record EvNow w)) by done.
  mrun HT. by mrun Hq.
Qed.

(** X15. Whatever the store answers during a sweep, a session
    that is closed already or was touched at or after the cutoff keeps its
    document, an absent one stays absent, and every other session either
    keeps its status, sentiment and closing time or is stored closed with
    sentiment "timeout" and a closing time: the three change together. *)
Theorem reaper_under_store_failures (w : World) (D : Duration) (k : string) :
  let cutoff := now env (step w) + wrap64 (- D) in
  let w' := snd (CleanupInactiveSessions env D w) in
  (forall doc,
     sessionDocs w !! k = Some doc ->
     Status doc = StatusClosed \/ cutoff <= LastMessageAt doc ->
     sessionDocs w' !! k = Some doc)
  /\ (sessionDocs w !! k = None -> sessionDocs w' !! k = None)
  /\ (forall doc,
        sessionDocs w !! k = Some doc ->
        exists doc' : ChatSession,
          sessionDocs w' !! k = Some doc'
          /\ (sameClosing doc doc' \/ closedOnTimeout doc')).
Proof.
  intros cutoff w'.
  assert (Hspared : (forall d, sessionDocs w !! k = Some d ->
                       Status d = StatusClosed \/ cutoff <= LastMessageAt d) ->
                    sessionDocs w' !! k = sessionDocs w !! k).
  { intros Hk. subst w'.
    destruct (CleanupInactiveSessions_unfold D w) as (docs & -> & Hdocs).
    set (R := fun a b : World => sessionDocs b !! k = sessionDocs a !! k).
    set (okSet := fun k' : string => k' <> k).
    set (okMsg := fun _ : ChatMessage => True).
    assert (HR : R (record (EvQueryInactive cutoff) (record EvNow w))
                   (snd (Cleanup_loop env docs
                           (record (EvQueryInactive cutoff) (record EvNow w))))).
    { apply (effect_Cleanup_loop env R okSet okMsg); try done.
      - unfold R. intros a b c Hab Hbc. by rewrite Hbc.
      - unfold R, okSet. intros a k' d Hne. simpl. by rewrite lookup_insert_ne.
      - intros k' d Hin. split; [|done]. intros ->.
        apply Hdocs in Hin as (Hd & Hact & Hlt).
        destruct (Hk d Hd) as [Hclosed | Hge]; [|fold cutoff in Hlt; lia].
        apply activeStatus_spec in Hact. rewrite Hclosed in Hact.
        destruct Hact as [?|[?|?]]; discriminate. }
    exact HR. }
  split; [|split].
  - intros doc Hdoc Hk. rewrite Hspared; [done|].
    intros d Hd. by replace d with doc by congruence.
  - intros Hnone. rewrite Hspared; [done|]. intros d Hd. congruence.
  - intros doc Hdoc.
    set (P := fun d : ChatSession => sameClosing doc d \/ closedOnTimeout d).
    assert (HJ : docSat P k (sessionDocs w)).
    { exists doc. split; [done|]. by left. }
    change (docSat P k (sessionDocs w')). subst w'.
    apply (triple_keeps _ _ (fun _ => True)); [|exact HJ].
    apply (triple_CleanupInactiveSessions env _ (docAt P k));
      [apply docSat_read | apply docSat_write | | |].
    + intros k' d v Hd Hk'. destruct (Hd Hk') as [Hs|Hc]; [by left | by right].
    + intros k' d t Hd Hk'. destruct (Hd Hk') as [Hs|Hc]; [by left | by right].
    + intros k' d t _ _. right. by repeat split.
Qed.

End ReaperFaults.

Section StoreRuns.

Variable ToLower : string -> string.
Variable env : Oracles.

(** X16. A session returned by [CreateSession] carries the data
    it was given, is in the hands of the bot with no agent, neutral
    sentiment, no failure and no closing time, is filed under an id that was
    free, and is what [GetSession] returns for that id right after, unless
    the store fails. *)
Theorem CreateSession_GetSession_round_trip
    (v n e p c l : string) (w w' : World) (s : ChatSession) :
  CreateSession env v n e p c l w = (Ok s, w') ->
  (VisitorID s = v /\ VisitorName s = n /\ VisitorEmail s = e
   /\ VisitorPhone s = p /\ CurrentPage s = c /\ Location s = l)
  /\ (Status s = StatusBot /\ AssignedAdmin s = "" /\ Sentiment s = "neutral"
      /\ FailedAttempts s = 0 /\ ClosedAt s = None)
  /\ sessionDocs w !! ID s = None
  /\ (fault env (step w') = false ->
      GetSession env (ID s) w' = (Ok s, record (EvGetSession (ID s)) w')).
Proof.
  unfold CreateSession. intros H.
  apply bind_Ok_inv in H as (t1 & w1 & H1 & H). injection H1 as <- <-.
  apply bind_Ok_inv in H as (t2 & w2 & H2 & H). injection H2 as <- <-.
  apply bind_Ok_inv in H as (id & w3 & H3 & H). injection H as <- <-.
  unfold wrapErr, addSession in H3.
  destruct (fault env (step (record EvNow (record EvNow w)))); [discriminate|].
  simpl in H3.
  destruct (sessionDocs w !! autoID env (step (record EvNow (record EvNow w))))
    eqn:Hfree; [discriminate|].
  injection H3 as <- <-. simpl.
  split; [done|]. split; [done|]. split; [exact Hfree|].
  intros Hf. rewrite (GetSession_run env _ _ _ (lookup_insert_eq _ _ _) Hf). done.
Qed.

Lemma GetSession_missing (id : string) (w : World) :
  sessionDocs w !! id = None ->
  GetSession env id w
  = (Err (ErrWrap "failed to get session"
            (if fault env (step w) then ErrUnavailable else ErrNotFound)),
     record (EvGetSession id) w).
Proof.
  intros Hnone. unfold GetSession, bind, wrapErr, docGet, ret.
  rewrite Hnone. by destruct (fault env (step w)).
Qed.

Lemma bind_Err {A B : Type} (m : M A) (k : A -> M B) (w w1 : World) (e : error) :
  m w = (Err e, w1) -> bind m k w = (Err e, w1).
Proof. intros H. unfold bind. by rewrite H. Qed.

(** X17. Called on an id under which no session is stored, the
    pipeline and the four transitions return the error of the failed read
    (not found, when the store answers) and leave the state as it was, the
    read logged: no document is created and no message is saved. *)
Theorem operations_on_unknown_session (id : string) (w : World) :
  sessionDocs w !! id = None ->
  let e := ErrWrap "failed to get session"
             (if fault env (step w) then ErrUnavailable else ErrNotFound) in
  let w' := record (EvGetSession id) w in
  RequestHandover env id w = (Err e, w')
  /\ (forall adminID adminName,
        ClaimSession env id adminID adminName w = (Err e, w'))
  /\ CloseSession env id w = (Err e, w')
  /\ ReturnToBot env id w = (Err e, w')
  /\ (forall content, ProcessMessage ToLower env id content w = (Err e, w')).
Proof.
  intros Hnone e w'. pose proof (GetSession_missing id w Hnone) as HG.
  repeat split; intros; by apply bind_Err.
Qed.

Lemma SaveMessage_fault (msg : ChatMessage) (w : World) :
  fault env (step w) = true ->
  SaveMessage env msg w
  = (Err (ErrWrap "failed to save message" ErrUnavailable),
     record (EvAddMessage (SessionID msg)) w).
Proof.
  intros Hf. unfold SaveMessage, bind, wrapErr, addMessage. by rewrite Hf.
Qed.

Lemma SaveMessage_run (msg : ChatMessage) (w : World) :
  fault env (step w) = false ->
  let w1 := with_messages (record (EvAddMessage (SessionID msg)) w)
              (messageDocs w ++ [set_msgID msg (autoID env (step w))]) in
  let w2 := record (EvTouchSession (SessionID msg)) w1 in
  SaveMessage env msg w
  = (Ok tt,
     if fault env (step w1) then w2
     else match sessionDocs w !! SessionID msg with
          | Some d =>
              with_sessions w2
                (<[SessionID msg := set_LastMessageAt d (Timestamp msg)]>
                   (sessionDocs w))
          | None => w2
          end).
Proof.
  intros Hf w1 w2. unfold SaveMessage, bind, wrapErr, addMessage, attempt, docTouch, ret.
  rewrite Hf. cbn [fst snd]. fold w1.
  destruct (fault env (step w1)); [done|].
  cbn [sessionDocs w1 with_messages record].
  subst w1. cbn [sessionDocs with_messages record].
  by destruct (sessionDocs w !! SessionID msg).
Qed.

(** X18. [SaveMessage] returns an error only when the insertion of the
    message fails, and then nothing is written. Otherwise the message is
    stored at the end of the collection under the generated id, also when
    its session does not exist or the update of [lastMessageAt] fails; when
    that update succeeds, [lastMessageAt] of the session is the timestamp of
    the message and nothing else of the session changes. *)
Theorem SaveMessage_cases (msg : ChatMessage) (w : World) :
  (fault env (step w) = true ->
   SaveMessage env msg w
   = (Err (ErrWrap "failed to save message" ErrUnavailable),
      record (EvAddMessage (SessionID msg)) w))
  /\ (fault env (step w) = false ->
      let w' := snd (SaveMessage env msg w) in
      fst (SaveMessage env msg w) = Ok tt
      /\ messageDocs w' = messageDocs w ++ [set_msgID msg (autoID env (step w))]
      /\ (sessionDocs w !! SessionID msg = None -> sessionDocs w' = sessionDocs w)
      /\ (fault env (S (step w)) = true -> sessionDocs w' = sessionDocs w)
      /\ (forall d, sessionDocs w !! SessionID msg = Some d ->
            fault env (S (step w)) = false ->
            sessionDocs w'
            = <[SessionID msg := set_LastMessageAt d (Timestamp msg)]> (sessionDocs w))).
Proof.
  split; [apply SaveMessage_fault|].
  intros Hf w'. subst w'. rewrite (SaveMessage_run msg w Hf).
  cbn [fst snd].
  change (step (with_messages (record (EvAddMessage (SessionID msg)) w)
                  (messageDocs w ++ [set_msgID msg (autoID env (step w))])))
    with (S (step w)).
  destruct (fault env (S (step w))).
  - repeat split; try done.
  - destruct (sessionDocs w !! SessionID msg) as [d|].
    + repeat split; try done. by intros d' [= <-].
    + repeat split; try done.
Qed.

End StoreRuns.

Section ReliableStore.

Variable ToLower : string -> string.
Variable env : Oracles.
Hypothesis Hnf : storeReliable env.

(** X19. On a stored session, when the store answers: [RequestHandover]
    stores the session as queued and returns whether an agent is online (the
    session is queued also when none is); [ClaimSession] stores it as live
    with the agent assigned; [ReturnToBot] stores it as in the hands of the
    bot, with no agent and the failure counter 0. Each of the three appends
    one system message to the session, and [lastMessageAt] becomes the time
    of that message. [CloseSession] stores the status closed with the closing
    time, appends no message and leaves [lastMessageAt] as it was. *)
Theorem transitions_on_reliable_store (id : string) (doc : ChatSession) (w : World) :
  sessionDocs w !! id = Some doc ->
  let t := now env (S (S (step w))) in
  let mid := autoID env (S (S (S (step w)))) in
  let after (m : World -> World) (d : ChatSession) (text : string) :=
    sessionDocs (m w) = <[id := set_LastMessageAt d t]> (sessionDocs w)
    /\ messageDocs (m w) = messageDocs w ++ [mkChatMessage mid id "system" text t] in
  (fst (RequestHandover env id w)
   = Ok (existsb (fun kv => String.eqb (adminState (snd kv)) "online")
           (map_to_list (adminStatus w)))
   /\ after (fun w => snd (RequestHandover env id w))
        (set_Status (set_ID doc "") StatusQueued)
        "Pengunjung meminta untuk dihubungkan dengan admin.")
  /\ (forall adminID adminName,
        fst (ClaimSession env id adminID adminName w) = Ok tt
        /\ after (fun w => snd (ClaimSession env id adminID adminName w))
             (set_AssignedAdmin (set_Status (set_ID doc "") StatusLive) adminID)
             (adminName +:+ " telah bergabung ke chat."))
  /\ (fst (ReturnToBot env id w) = Ok tt
      /\ after (fun w => snd (ReturnToBot env id w))
           (set_FailedAttempts
              (set_AssignedAdmin (set_Status (set_ID doc "") StatusBot) "") 0)
           "Sesi telah dikembalikan ke AI. Silakan lanjutkan percakapan Anda.")
  /\ (fst (CloseSession env id w) = Ok tt
      /\ sessionDocs (snd (CloseSession env id w))
         = <[id := set_ClosedAt (set_Status (set_ID doc "") StatusClosed)
                     (Some (now env (S (step w))))]> (sessionDocs w)
      /\ messageDocs (snd (CloseSession env id w)) = messageDocs w).
Proof.
  intros Hdoc t mid after. subst after. cbv beta.
  repeat split; intros;
    cbv [RequestHandover ClaimSession ReturnToBot CloseSession IsAnyAdminOnline
         getAdmins bind attempt GetSession UpdateSession SaveMessage wrapErr
         docGet docSet addMessage docTouch timeNow ret];
    repeat first
      [ rewrite Hnf | rewrite Hdoc | rewrite lookup_insert_eq
      | progress cbn [fst snd sessionDocs messageDocs adminStatus with_sessions
                      with_messages record ID set_ID set_Status set_AssignedAdmin
                      set_FailedAttempts set_ClosedAt SessionID Timestamp] ];
    rewrite ?insert_insert_eq; try reflexivity.
Qed.

Lemma GetMessages_loop_quiet (docs messages : list ChatMessage) (w : World) :
  exists w' : World,
    GetMessages_loop env docs messages w = (Ok (messages ++ docs), w')
    /\ sessionDocs w' = sessionDocs w /\ messageDocs w' = messageDocs w
    /\ chatEngine w' = chatEngine w
    /\ chatRequests (events w') = chatRequests (events w).
Proof.
  revert messages w. induction docs as [|doc rest IH]; intros messages w.
  - exists (record EvNext w). simpl. unfold bind, wrapErr, iterNext, ret.
    rewrite Hnf. by rewrite app_nil_r.
  - destruct (IH (messages ++ [doc]) (record EvNext w))
      as (w' & Hrun & Hs & Hm & He & Hc).
    exists w'. simpl. unfold bind, wrapErr, iterNext. rewrite Hnf.
    rewrite Hrun. by rewrite <- app_assoc.
Qed.

Lemma GetMessages_quiet (sessionID : string) (limit : nat) (w : World) :
  exists w' : World,
    GetMessages env sessionID limit w
    = (Ok (take limit
             (sortBy message_le
                (List.filter (fun m => String.eqb (SessionID m) sessionID)
                   (messageDocs w)))), w')
    /\ sessionDocs w' = sessionDocs w /\ messageDocs w' = messageDocs w
    /\ chatEngine w' = chatEngine w
    /\ chatRequests (events w') = chatRequests (events w).
Proof.
  unfold GetMessages, bind, queryMessages.
  match goal with
  | |- context [GetMessages_loop env ?docs [] ?w1] =>
      destruct (GetMessages_loop_quiet docs [] w1) as (w' & Hrun & H)
  end.
  exists w'. rewrite Hrun. done.
Qed.

Lemma ChatEngine_ProcessMessage_run (e : ChatEngine) (userMessage : string)
    (history : list GroqMessage) (w : World) :
  let request := buildMessages ToLower e userMessage history in
  ChatEngine_ProcessMessage ToLower env e userMessage history w
  = (match chat env (step w) request with
     | Ok reply =>
         Ok (mkChatResponse reply (QArith_base.Qmake 4 5)
               (String.eqb (analyzeSentiment ToLower userMessage) "frustrated"
                || shouldSuggestHandover ToLower userMessage reply)
               (analyzeSentiment ToLower userMessage))
     | Err err => Err (ErrWrap "groq API error" err)
     end, record (EvChat request) w).
Proof.
  intros request. unfold ChatEngine_ProcessMessage, bind, wrapErr, groqChat, ret.
  fold request. by destruct (chat env (step w) request).
Qed.

(** X20. One turn of the pipeline on a stored session that is not live,
    when the store answers. The transport is called once, with the request
    built from the engine, the new message and the history of the first 20
    messages of the session. One message of the bot is appended, whose
    content is the reply that is returned. The stored sentiment is that of
    the response; status and assigned agent are kept; and [lastMessageAt] is
    the one loaded at the start of the turn: the write of the session at the
    end of the turn undoes the update made when the message of the bot was
    saved. *)
Theorem ProcessMessage_turn_on_reliable_store (id content : string)
    (doc : ChatSession) (w : World) :
  sessionDocs w !! id = Some doc -> Status doc <> StatusLive ->
  let history :=
    toHistory
      (take 20
         (sortBy message_le
            (List.filter (fun m => String.eqb (SessionID m) id) (messageDocs w))))
      [] in
  let request := buildMessages ToLower (chatEngine w) content history in
  let w' := snd (ProcessMessage ToLower env id content w) in
  exists (response : ChatResponse) (doc' : ChatSession) (mid : string) (t : Time),
    fst (ProcessMessage ToLower env id content w) = Ok response
    /\ chatRequests (events w') = request :: chatRequests (events w)
    /\ messageDocs w' = messageDocs w ++ [mkChatMessage mid id "bot" (Reply response) t]
    /\ sessionDocs w' = <[id := doc']> (sessionDocs w)
    /\ Sentiment doc' = rSentiment response
    /\ LastMessageAt doc' = LastMessageAt doc
    /\ Status doc' = Status doc /\ AssignedAdmin doc' = AssignedAdmin doc.
Proof.
  intros Hdoc Hlive history request w'. subst w'.
  unfold ProcessMessage. mrun (GetSession_run env id w doc Hdoc (Hnf _)).
  destruct (decide (Status (set_ID doc id) = StatusLive)) as [Heq|_];
    [by destruct Hlive|].
  destruct (GetMessages_quiet id 20 (record (EvGetSession id) w))
    as (w2 & HMsgs & Hs2 & Hm2 & He2 & Hc2).
  cbn [sessionDocs messageDocs chatEngine events record] in HMsgs, Hs2, Hm2, He2, Hc2.
  mrun (wrapErr_run "failed to get history" _ _ _ _ HMsgs).
  assert (HE : getEngine w2 = (Ok (chatEngine w2), w2)) by done. mrun HE.
  rewrite He2. fold history.
  mrun (attempt_run _ _ _ _
          (ChatEngine_ProcessMessage_run (chatEngine w) content history w2)).
  fold request.
  destruct (chat env (step w2) request) as [reply|err];
    cbv [bind attempt UpdateSession SaveMessage wrapErr docSet addMessage docTouch
         timeNow ret];
    repeat first
      [ rewrite Hnf | rewrite Hs2 | rewrite Hm2 | rewrite Hc2 | rewrite Hdoc
      | rewrite lookup_insert_eq | rewrite insert_insert_eq
      | progress cbn [fst snd sessionDocs messageDocs events with_sessions
                      with_messages record ID set_ID set_Sentiment
                      set_FailedAttempts SessionID Timestamp chatRequests] ];
    eexists _, _, _, _; repeat split; try reflexivity.
Qed.

End ReliableStore.

Section Queries.

Variable env : Oracles.

Lemma elem_of_sortBy {A : Type} (le : A -> A -> bool) (x : A) (l : list A) :
  x ∈ sortBy le l <-> x ∈ l.
Proof. by rewrite (sortBy_perm le l). Qed.

Lemma statusIn_spec (statuses : list SessionStatus) (s : ChatSession) :
  statusIn statuses s = true <-> Status s ∈ statuses.
Proof. unfold statusIn. by rewrite bool_decide_eq_true. Qed.

Lemma elem_of_activeOfVisitor_source (v : string) (w : World) (kd : string * ChatSession) :
  kd ∈ sortBy key_le
         (List.filter
            (fun d => String.eqb (VisitorID (snd d)) v
                      && statusIn [StatusBot; StatusQueued; StatusLive] (snd d))
            (map_to_list (sessionDocs w)))
  <-> sessionDocs w !! kd.1 = Some kd.2 /\ VisitorID kd.2 = v
      /\ Status kd.2 <> StatusClosed.
Proof.
  rewrite elem_of_sortBy, list_elem_of_In, filter_In, <- list_elem_of_In.
  destruct kd as [k d]. rewrite elem_of_map_to_list. simpl.
  rewrite andb_true_iff, String.eqb_eq, statusIn_spec.
  split.
  - intros (Hk & Hv & Hs). repeat split; try done.
    intros Hc. rewrite Hc in Hs.
    repeat (apply elem_of_cons in Hs as [Hs|Hs]; [discriminate|]).
    by apply elem_of_nil in Hs.
  - intros (Hk & Hv & Hs). repeat split; try done.
    destruct (Status d); try done; repeat constructor.
Qed.

(** X21. [GetSessionByVisitorID] makes one call to the store and writes
    nothing. When that call fails the error is returned wrapped. Otherwise a
    session it returns is a stored session of that visitor that is not
    closed, with its document id filled in, and it returns no session
    exactly when every stored session of the visitor is closed. *)
Theorem GetSessionByVisitorID_cases (visitorID : string) (w : World) :
  let r := GetSessionByVisitorID env visitorID w in
  snd r = record EvNext w
  /\ (fault env (step w) = true ->
      fst r = Err (ErrWrap "failed to query session" ErrUnavailable))
  /\ (fault env (step w) = false ->
      (exists o : option ChatSession, fst r = Ok o)
      /\ (forall s : ChatSession, fst r = Ok (Some s) ->
            VisitorID s = visitorID /\ Status s <> StatusClosed
            /\ exists doc : ChatSession,
                 sessionDocs w !! ID s = Some doc /\ s = set_ID doc (ID s))
      /\ (fst r = Ok None <->
          forall (k : string) (doc : ChatSession),
            sessionDocs w !! k = Some doc -> VisitorID doc = visitorID ->
            Status doc = StatusClosed)).
Proof.
  intros r. subst r.
  unfold GetSessionByVisitorID, bind, getWorld, wrapErr, iterNext, activeOfVisitor.
  destruct (fault env (step w)) eqn:Hf; cbn [fst snd].
  - split; [done|]. split; [done|]. intros [=].
  - match goal with
    | |- context [take 1 ?l] =>
        pose proof (elem_of_activeOfVisitor_source visitorID w) as Hin;
        destruct l as [|[k d] rest] eqn:Hl
    end; cbn [take fst snd ret].
    + split; [done|]. split; [intros [=]|]. intros _.
      split; [by eexists|]. split; [intros s [=]|].
      split; [|done]. intros _ k doc Hk Hv.
      destruct (decide (Status doc = StatusClosed)) as [|Hne]; [done|].
      exfalso. eapply (not_elem_of_nil (k, doc)). by apply Hin.
    + split; [done|]. split; [intros [=]|]. intros _.
      split; [by eexists|].
      destruct (proj1 (Hin (k, d))) as (Hk & Hv & Hs); [left|]. simpl in *.
      split.
      * intros s [= <-]. simpl. repeat split; try done.
        exists d. split; [done|]. by destruct d.
      * split; [intros [=]|]. intros Hall. exfalso. by eapply Hs, Hall.
Qed.

Lemma GetQueuedSessions_loop_keeps (docs : list (string * ChatSession))
    (sessions : list ChatSession) (w : World) :
  let w' := snd (GetQueuedSessions_loop env docs sessions w) in
  sessionDocs w' = sessionDocs w /\ messageDocs w' = messageDocs w
  /\ adminStatus w' = adminStatus w.
Proof.
  revert sessions w. induction docs as [|d rest IH]; intros sessions w; simpl;
    unfold bind, iterNext; destruct (fault env (step w)); simpl; try done.
  apply (IH _ (record EvNext w)).
Qed.

Lemma GetQueuedSessions_loop_run (docs : list (string * ChatSession))
    (sessions : list ChatSession) (w : World) :
  storeReliable env ->
  fst (GetQueuedSessions_loop env docs sessions w)
  = Ok (sessions ++ map (fun d => set_ID (snd d) (fst d)) docs).
Proof.
  intros Hnf. revert sessions w. induction docs as [|d rest IH]; intros sessions w;
    simpl; unfold bind, iterNext; rewrite Hnf; simpl.
  - by rewrite app_nil_r.
  - rewrite IH. by rewrite <- app_assoc.
Qed.

Lemma GetQueuedSessions_loop_fault (docs : list (string * ChatSession))
    (sessions : list ChatSession) (w : World) :
  fault env (step w) = true ->
  fst (GetQueuedSessions_loop env docs sessions w) = Err ErrUnavailable.
Proof.
  intros Hf. destruct docs; simpl; unfold bind, iterNext; by rewrite Hf.
Qed.

(** X22. [GetQueuedSessions] writes nothing and fails when its first call
    to the store fails. When the store answers it returns, each once,
    exactly the stored sessions whose status is queued or live, with their
    document ids filled in: live sessions are listed too. *)
Theorem GetQueuedSessions_lists_queued_and_live (w : World) :
  let r := GetQueuedSessions env w in
  (sessionDocs (snd r) = sessionDocs w /\ messageDocs (snd r) = messageDocs w
   /\ adminStatus (snd r) = adminStatus w)
  /\ (fault env (step w) = true -> fst r = Err ErrUnavailable)
  /\ (storeReliable env ->
      exists sessions : list ChatSession,
        fst r = Ok sessions
        /\ NoDup (map ID sessions)
        /\ forall s : ChatSession,
             s ∈ sessions <->
             (Status s = StatusQueued \/ Status s = StatusLive)
             /\ exists doc : ChatSession,
                  sessionDocs w !! ID s = Some doc /\ s = set_ID doc (ID s)).
Proof.
  intros r. subst r. unfold GetQueuedSessions, bind, getWorld. cbn beta iota.
  split; [apply GetQueuedSessions_loop_keeps|].
  split; [apply GetQueuedSessions_loop_fault|].
  intros Hnf. rewrite GetQueuedSessions_loop_run by done. simpl.
  eexists. split; [reflexivity|].
  assert (Hin : forall kd, kd ∈ queuedAndLive w <->
            sessionDocs w !! kd.1 = Some kd.2
            /\ (Status kd.2 = StatusQueued \/ Status kd.2 = StatusLive)).
  { intros [k d]. unfold queuedAndLive.
    rewrite elem_of_sortBy, list_elem_of_In, filter_In, <- list_elem_of_In.
    rewrite elem_of_map_to_list, statusIn_spec. simpl.
    rewrite elem_of_cons, list_elem_of_singleton. tauto. }
  split.
  - rewrite map_map. simpl.
    change (NoDup (queuedAndLive w).*1).
    unfold queuedAndLive. rewrite (sortBy_perm key_le).
    eapply NoDup_fmap_fst.
    + intros k d d' H1 H2.
      apply list_elem_of_In, filter_In in H1 as [H1 _].
      apply list_elem_of_In, filter_In in H2 as [H2 _].
      apply list_elem_of_In, elem_of_map_to_list in H1.
      apply list_elem_of_In, elem_of_map_to_list in H2. congruence.
    + apply NoDup_ListNoDup, List.NoDup_filter, NoDup_ListNoDup, NoDup_map_to_list.
  - intros s. rewrite list_elem_of_In, in_map_iff. split.
    + intros ([k d] & <- & Hkd). apply list_elem_of_In, Hin in Hkd as [Hk Hs].
      simpl in *. split; [done|]. exists d. split; [done|]. by destruct d.
    + intros (Hs & d & Hk & Heq). exists (ID s, d). split; [by rewrite Heq at 2|].
      apply list_elem_of_In, Hin. simpl. split; [done|].
      rewrite Heq in Hs. by destruct d.
Qed.

(** X23. [GetOnlineAdmins] and [IsAnyAdminOnline] change nothing. The
    entries the first returns are exactly the entries of the registry whose
    status is online, and the second answers true exactly when the first
    returns an entry. *)
Theorem GetOnlineAdmins_agrees_with_IsAnyAdminOnline (w : World) :
  snd (GetOnlineAdmins w) = w /\ snd (IsAnyAdminOnline w) = w
  /\ (exists (admins : list AdminStatus) (online : bool),
        fst (GetOnlineAdmins w) = Ok admins
        /\ fst (IsAnyAdminOnline w) = Ok online
        /\ (online = true <-> admins <> [])
        /\ forall admin : AdminStatus,
             admin ∈ admins <->
             adminState admin = "online"
             /\ exists k : string, adminStatus w !! k = Some admin).
Proof.
  unfold GetOnlineAdmins, IsAnyAdminOnline, bind, getAdmins, ret. cbn [fst snd].
  split; [done|]. split; [done|]. eexists _, _.
  split; [reflexivity|]. split; [reflexivity|]. split.
  - induction (map_to_list (adminStatus w)) as [|[k a] l IH]; [done|].
    simpl. by destruct (String.eqb (adminState a) "online").
  - intros admin. rewrite list_elem_of_In, filter_In, in_map_iff, String.eqb_eq.
    split.
    + intros [([k a] & <- & Hin) Hon]. split; [done|]. exists k.
      by apply elem_of_map_to_list, list_elem_of_In.
    + intros [Hon [k Hk]]. split; [|done]. exists (k, admin). split; [done|].
      by apply list_elem_of_In, elem_of_map_to_list.
Qed.

End Queries.

Section Summary.

Variable env : Oracles.
Hypothesis Hnf : storeReliable env.

Lemma summaryLines_foldr (messages : list ChatMessage) (summary : string) :
  summaryLines messages summary
  = summary +:+ foldr (fun msg rest => summaryLine msg +:+ rest) "" messages.
Proof.
  revert summary. induction messages as [|msg rest IH]; intros summary; simpl.
  - by rewrite append_nil_r.
  - rewrite IH. by rewrite append_assoc.
Qed.

(** X24. When the store answers, [GenerateAISummary] writes nothing. For
    a session without messages it returns the text "Tidak ada percakapan.".
    Otherwise it returns the header with the name, the e-mail and the
    sentiment of the visitor (left out when the session document does not
    exist), the line "Ringkasan percakapan:" and one line for each of the
    last five of the first 50 messages of the session. *)
Theorem GenerateAISummary_cases (id : string) (w : World) :
  let messages :=
    take 50
      (sortBy message_le
         (List.filter (fun m => String.eqb (SessionID m) id) (messageDocs w))) in
  let header :=
    match sessionDocs w !! id with
    | Some doc =>
        "Pengunjung: " +:+ VisitorName doc +:+ " (" +:+ VisitorEmail doc +:+ ")"
        +:+ newline +:+ "Sentimen: " +:+ Sentiment doc +:+ newline +:+ newline
    | None => ""
    end in
  let r := GenerateAISummary env id w in
  sessionDocs (snd r) = sessionDocs w /\ messageDocs (snd r) = messageDocs w
  /\ (messages = [] -> fst r = Ok "Tidak ada percakapan.")
  /\ (messages <> [] ->
      fst r
      = Ok ((header +:+ "Ringkasan percakapan:" +:+ newline)
            +:+ foldr (fun msg rest => summaryLine msg +:+ rest) ""
                  (drop (length messages - 5) messages))).
Proof.
  intros messages header r. subst r. unfold GenerateAISummary.
  destruct (GetMessages_quiet env Hnf id 50 w) as (w2 & HMsgs & Hs2 & Hm2 & _ & _).
  fold messages in HMsgs. mrun HMsgs.
  destruct messages as [|m0 rest] eqn:Hmsgs.
  - simpl. repeat split; try done.
  - rewrite <- Hmsgs.
    assert (Hlen : (Z.of_nat (length messages) =? 0) = false).
    { subst messages. rewrite Hmsgs. simpl. lia. }
    fold messages. rewrite Hlen.
    assert (Hstart : (if 5 <? Z.of_nat (length messages)
                      then (length messages - 5)%nat else 0%nat)
                     = (length messages - 5)%nat).
    { destruct (Z.ltb_spec 5 (Z.of_nat (length messages))); lia. }
    unfold bind, attempt, ret.
    destruct (sessionDocs w !! id) as [doc|] eqn:Hdoc.
    + rewrite (GetSession_run env id w2 doc) by (by rewrite ?Hs2).
      cbn [fst snd sessionDocs messageDocs record]. rewrite Hstart.
      split; [done|]. split; [done|]. split; [by rewrite Hmsgs|]. intros _.
      rewrite summaryLines_foldr. subst header. by destruct doc.
    + rewrite (GetSession_missing env id w2) by (by rewrite Hs2).
      cbn [fst snd sessionDocs messageDocs record]. rewrite Hstart.
      split; [done|]. split; [done|]. split; [by rewrite Hmsgs|]. intros _.
      by rewrite summaryLines_foldr.
Qed.

End Summary.

(* ===================================================================== *)
(** * Further worked examples *)
(* ===================================================================== *)

Lemma worldCreated_doc : sessionDocs worldCreated !! "doc2" = Some docCreated.
Proof. vm_compute. reflexivity. Qed.

Lemma operations_keep_visitor_data_example :
  exists doc' : ChatSession,
    sessionDocs worldCreated !! "doc2" = Some docCreated
    /\ sessionDocs (runOperation asciiLower reliableEnv (OpCloseSession "doc2")
                      worldCreated) !! "doc2" = Some doc'
    /\ visitorData doc' = visitorData docCreated.
Proof.
  destruct (operations_keep_visitor_data asciiLower reliableEnv
              (OpCloseSession "doc2") worldCreated "doc2" docCreated
              worldCreated_doc) as (doc' & H1 & H2 & _).
  exists doc'. split; [exact worldCreated_doc|]. split; [exact H1 | exact H2].
Defined.

Lemma CreateSession_GetSession_example :
  CreateSession reliableEnv "visitor-1" "Ani" "ani@example.com" "0812"
    "/layanan" "Jakarta" worldEmpty
  = (Ok (set_ID docCreated "doc2"), worldCreated)
  /\ GetSession reliableEnv "doc2" worldCreated
     = (Ok (set_ID docCreated "doc2"), record (EvGetSession "doc2") worldCreated).
Proof.
  assert (H : CreateSession reliableEnv "visitor-1" "Ani" "ani@example.com" "0812"
                "/layanan" "Jakarta" worldEmpty
              = (Ok (set_ID docCreated "doc2"), worldCreated))
    by (vm_compute; reflexivity).
  destruct (CreateSession_GetSession_round_trip reliableEnv _ _ _ _ _ _ _ _ _ H)
    as (_ & _ & _ & HG).
  split; [exact H | exact (HG eq_refl)].
Defined.

Lemma operations_on_unknown_session_example :
  sessionDocs worldEmpty !! "doc9" = None
  /\ CloseSession reliableEnv "doc9" worldEmpty
     = (Err (ErrWrap "failed to get session" ErrNotFound),
        record (EvGetSession "doc9") worldEmpty).
Proof.
  assert (H : sessionDocs worldEmpty !! "doc9" = None) by reflexivity.
  destruct (operations_on_unknown_session asciiLower reliableEnv "doc9" worldEmpty H)
    as (_ & _ & HC & _).
  split; [exact H | exact HC].
Defined.

Lemma transitions_on_reliable_store_example :
  sessionDocs worldCreated !! "doc2" = Some docCreated
  /\ fst (RequestHandover reliableEnv "doc2" worldCreated) = Ok false
  /\ fieldIs Status "doc2" StatusQueued
       (sessionDocs (snd (RequestHandover reliableEnv "doc2" worldCreated))).
Proof.
  destruct (transitions_on_reliable_store reliableEnv reliableEnv_store "doc2"
              docCreated worldCreated worldCreated_doc) as [(Hr & Hs & _) _].
  split; [exact worldCreated_doc|]. split; [exact Hr|].
  rewrite Hs. eexists. split; [apply lookup_insert_eq | reflexivity].
Defined.

Lemma ProcessMessage_turn_example :
  sessionDocs worldCreated !! "doc2" = Some docCreated
  /\ Status docCreated <> StatusLive
  /\ exists (response : ChatResponse) (doc' : ChatSession),
       fst (ProcessMessage asciiLower reliableEnv "doc2" "halo" worldCreated)
       = Ok response
       /\ sessionDocs (snd (ProcessMessage asciiLower reliableEnv "doc2" "halo"
                              worldCreated)) !! "doc2" = Some doc'
       /\ LastMessageAt doc' = LastMessageAt docCreated.
Proof.
  assert (Hlive : Status docCreated <> StatusLive) by discriminate.
  destruct (ProcessMessage_turn_on_reliable_store asciiLower reliableEnv
              reliableEnv_store "doc2" "halo" docCreated worldCreated
              worldCreated_doc Hlive)
    as (response & doc' & mid & t & Hr & _ & _ & Hs & _ & Ht & _).
  split; [exact worldCreated_doc|]. split; [exact Hlive|].
  exists response, doc'. split; [exact Hr|]. split; [|exact Ht].
  rewrite Hs. apply lookup_insert_eq.
Defined.

Lemma GenerateAISummary_example :
  fst (GenerateAISummary reliableEnv "doc2" worldCreated)
  = Ok "Tidak ada percakapan.".
Proof.
  destruct (GenerateAISummary_cases reliableEnv reliableEnv_store "doc2"
              worldCreated) as (_ & _ & He & _).
  apply He. reflexivity.
Defined.
